(** * Geographic RAG system: spatial index, vector store, retrieval engine,
      query parser and query executor

    A shallow embedding of the TypeScript sources under [lib/spatial],
    [lib/rag] and [lib/query], together with the properties stated for
    them.

    Conventions of the embedding.
    - A JavaScript [number] is a real number ([R]): arithmetic is exact, and
      [NaN], the infinities and rounding are outside the model.  Comparisons
      are the decidable order of [R].  [Math.floor] and [Math.ceil] return
      integers ([Z]).
    - A JavaScript string is a [string], read as a sequence of Latin-1 code
      units.
    - A [Map] is an association list in insertion order ([JSMap]); a [Set] of
      strings is a duplicate-free list in insertion order ([JSSet]).
    - A function that can throw returns [Result]. *)

From Stdlib Require Import Reals Lra Lia ZArith List Bool Ascii String.
From Stdlib Require Import DecimalString.
Import ListNotations.

Local Open Scope string_scope.
Local Open Scope R_scope.
Local Open Scope list_scope.

Set Implicit Arguments.

(* ================================================================== *)
(** * Part I: the embedding *)
(* ================================================================== *)

(** ** JavaScript values *)

Module JS.

(** Thrown errors carry their message. *)
Inductive Result (A : Type) : Type :=
| Ok (a : A)
| Throw (message : string).
Arguments Ok {A} a.
Arguments Throw {A} message.

Definition bind {A B} (r : Result A) (k : A -> Result B) : Result B :=
  match r with
  | Ok a => k a
  | Throw m => Throw m
  end.

(** Number comparisons, as booleans. *)
Definition leb (x y : R) : bool := if Rle_dec x y then true else false.
Definition ltb (x y : R) : bool := if Rlt_dec x y then true else false.
Definition geb (x y : R) : bool := leb y x.
Definition eqb (x y : R) : bool := if Req_dec_T x y then true else false.

(** Truthiness of a number: every number but [0] (and [NaN]). *)
Definition truthy (x : R) : bool := negb (eqb x 0).

(** [x || d] on an optional number. *)
Definition orDefault (x : option R) (d : R) : R :=
  match x with
  | Some v => if truthy v then v else d
  | None => d
  end.

Definition floor (x : R) : Z := Zfloor x.
Definition ceil (x : R) : Z := Zceil x.

(** [String(n)] for an integral number. *)
Definition intToString (z : Z) : string :=
  NilZero.string_of_int (Z.to_int z).

(** The integers [lo, lo+1, ..., hi] visited by
    [for (let x = lo; x <= hi; x++)]. *)
Definition range (lo hi : Z) : list Z :=
  map (fun i => (lo + Z.of_nat i)%Z) (seq 0 (Z.to_nat (hi - lo + 1))).

(** [a.splice(a.indexOf(x), 1)] for an [x] that occurs in [a]. *)
Fixpoint removeFirst (x : string) (a : list string) : list string :=
  match a with
  | [] => []
  | y :: rest => if String.eqb x y then rest else y :: removeFirst x rest
  end.

End JS.
Import JS.

(** ** [Map] and [Set] in insertion order *)

Module JSMap.

Definition t (V : Type) : Type := list (string * V).

Definition empty {V} : t V := [].

Fixpoint get {V} (m : t V) (k : string) : option V :=
  match m with
  | [] => None
  | (k', v) :: rest => if String.eqb k k' then Some v else get rest k
  end.

Definition has {V} (m : t V) (k : string) : bool :=
  match get m k with Some _ => true | None => false end.

(** [set] keeps the position of a key that is already present and appends
    a new one. *)
Fixpoint set {V} (m : t V) (k : string) (v : V) : t V :=
  match m with
  | [] => [(k, v)]
  | (k', v') :: rest =>
      if String.eqb k k' then (k', v) :: rest else (k', v') :: set rest k v
  end.

Definition delete {V} (m : t V) (k : string) : t V :=
  filter (fun e => negb (String.eqb k (fst e))) m.

Definition keys {V} (m : t V) : list string := map fst m.
Definition values {V} (m : t V) : list V := map snd m.
Definition size {V} (m : t V) : nat := List.length m.

End JSMap.

Module JSSet.

Definition t : Type := list string.

Definition empty : t := [].

Definition has (s : t) (x : string) : bool := existsb (String.eqb x) s.

Definition add (s : t) (x : string) : t := if has s x then s else s ++ [x].

Definition delete (s : t) (x : string) : t :=
  filter (fun y => negb (String.eqb x y)) s.

Definition size (s : t) : nat := List.length s.

Definition addAll (s : t) (xs : list string) : t := fold_left add xs s.

End JSSet.

(** ** [lib/types/geographic.ts] *)

Record Coordinates : Type := mkCoordinates {
  latitude : R;
  longitude : R
}.

Record BoundingBox : Type := mkBoundingBox {
  north : R;
  south : R;
  east : R;
  west : R
}.

(** [type] and [coordinates] of a feature, as one tagged value. *)
Inductive Geometry : Type :=
| Point (c : Coordinates)
| LineString (cs : list Coordinates)
| Polygon (rings : list (list Coordinates)).

Record GeographicFeature : Type := mkFeature {
  id : string;
  name : string;
  geometry : Geometry;
  properties : list (string * string)
}.

(** ** [lib/spatial/utils.ts] *)

Module SpatialUtils.

Definition toRadians (degrees : R) : R := degrees * (PI / 180).

(** [Math.atan2(y, x)]. *)
Definition atan2 (y x : R) : R :=
  if Rlt_dec 0 x then atan (y / x)
  else if Rlt_dec x 0 then
    (if Rle_dec 0 y then atan (y / x) + PI else atan (y / x) - PI)
  else if Rlt_dec 0 y then PI / 2
  else if Rlt_dec y 0 then - (PI / 2)
  else 0.

Definition calculateDistance (coord1 coord2 : Coordinates) : R :=
  let R_ := 6371 in
  let dLat := toRadians (latitude coord2 - latitude coord1) in
  let dLon := toRadians (longitude coord2 - longitude coord1) in
  let a :=
    sin (dLat / 2) * sin (dLat / 2) +
    cos (toRadians (latitude coord1)) *
      cos (toRadians (latitude coord2)) *
      sin (dLon / 2) *
      sin (dLon / 2) in
  let c := 2 * atan2 (sqrt a) (sqrt (1 - a)) in
  R_ * c.

Definition isPointInBounds (point : Coordinates) (bounds : BoundingBox) : bool :=
  geb (latitude point) (south bounds) &&
  leb (latitude point) (north bounds) &&
  geb (longitude point) (west bounds) &&
  leb (longitude point) (east bounds).

Definition createBoundingBox (center : Coordinates) (radiusKm : R) : BoundingBox :=
  let latDelta := radiusKm / 111 in
  let lonDelta := radiusKm / (111 * cos (toRadians (latitude center))) in
  {| north := latitude center + latDelta;
     south := latitude center - latDelta;
     east := longitude center + lonDelta;
     west := longitude center - lonDelta |}.

End SpatialUtils.

(** ** [lib/spatial/spatial-index.ts] *)

Module SpatialIndex.
Import SpatialUtils.

Record QuadTreeSpatialIndex : Type := mkIndex {
  features : JSMap.t GeographicFeature;
  spatialGrid : JSMap.t JSSet.t
}.

(** [new QuadTreeSpatialIndex()]. *)
Definition empty : QuadTreeSpatialIndex :=
  {| features := JSMap.empty; spatialGrid := JSMap.empty |}.

Definition gridSize : R := 0.01.

(** The template string [`${x},${y}`]. *)
Definition gridKey (x y : Z) : string :=
  (intToString x ++ "," ++ intToString y)%string.

(** [processCoord] of [getFeatureBounds].  The accumulator [None] is the
    initial box (north and east at negative infinity, south and west at
    positive infinity), from which [Math.min] and [Math.max] return the
    coordinate itself. *)
Definition processCoord (acc : option BoundingBox) (coord : Coordinates)
  : option BoundingBox :=
  match acc with
  | None =>
      Some {| north := latitude coord; south := latitude coord;
              east := longitude coord; west := longitude coord |}
  | Some b =>
      Some {| north := Rmax (north b) (latitude coord);
              south := Rmin (south b) (latitude coord);
              east := Rmax (east b) (longitude coord);
              west := Rmin (west b) (longitude coord) |}
  end.

(** [None] is the box of a geometry without any coordinate, whose four
    sides are still infinite. *)
Definition getFeatureBounds (feature : GeographicFeature) : option BoundingBox :=
  match geometry feature with
  | Point coord => processCoord None coord
  | LineString coords => fold_left processCoord coords None
  | Polygon coords =>
      fold_left (fun acc ring => fold_left processCoord ring acc) coords None
  end.

(** With the infinite box the loops run from positive to negative infinity,
    that is not at all. *)
Definition getGridKeys (feature : GeographicFeature) : list string :=
  match geometry feature with
  | Point coords =>
      let x := floor (longitude coords / gridSize) in
      let y := floor (latitude coords / gridSize) in
      [gridKey x y]
  | _ =>
      match getFeatureBounds feature with
      | None => []
      | Some bounds =>
          let minX := floor (west bounds / gridSize) in
          let maxX := ceil (east bounds / gridSize) in
          let minY := floor (south bounds / gridSize) in
          let maxY := ceil (north bounds / gridSize) in
          flat_map (fun x => map (fun y => gridKey x y) (range minY maxY))
                   (range minX maxX)
      end
  end.

(** One round of the [forEach] of [insert]. *)
Definition addToCell (featureId : string) (grid : JSMap.t JSSet.t) (key : string)
  : JSMap.t JSSet.t :=
  let grid1 :=
    if negb (JSMap.has grid key) then JSMap.set grid key JSSet.empty else grid in
  match JSMap.get grid1 key with
  | Some cell => JSMap.set grid1 key (JSSet.add cell featureId)
  | None => grid1
  end.

Definition insert (feature : GeographicFeature) (idx : QuadTreeSpatialIndex)
  : QuadTreeSpatialIndex :=
  let features1 := JSMap.set (features idx) (id feature) feature in
  let gridKeys := getGridKeys feature in
  {| features := features1;
     spatialGrid := fold_left (addToCell (id feature)) gridKeys (spatialGrid idx) |}.

(** The infinite box of an empty geometry lies on no side of [bounds], so
    the negated disjunction is false. *)
Definition featureIntersectsBounds (feature : GeographicFeature) (bounds : BoundingBox)
  : bool :=
  match geometry feature with
  | Point coords => isPointInBounds coords bounds
  | _ =>
      match getFeatureBounds feature with
      | None => false
      | Some featureBounds =>
          negb (ltb (east featureBounds) (west bounds) ||
                ltb (east bounds) (west featureBounds) ||
                ltb (north featureBounds) (south bounds) ||
                ltb (north bounds) (south featureBounds))
      end
  end.

(** The body of the inner loop of [query], for the cell [(x, y)]. *)
Definition scanCell (idx : QuadTreeSpatialIndex) (x : Z) (acc : JSSet.t) (y : Z)
  : JSSet.t :=
  match JSMap.get (spatialGrid idx) (gridKey x y) with
  | Some cellFeatures => JSSet.addAll acc cellFeatures
  | None => acc
  end.

(** The candidate ids gathered by the two nested loops of [query]. *)
Definition candidateIds (idx : QuadTreeSpatialIndex) (bounds : BoundingBox) : JSSet.t :=
  let minGridX := floor (west bounds / gridSize) in
  let maxGridX := ceil (east bounds / gridSize) in
  let minGridY := floor (south bounds / gridSize) in
  let maxGridY := ceil (north bounds / gridSize) in
  fold_left
    (fun acc x => fold_left (scanCell idx x) (range minGridY maxGridY) acc)
    (range minGridX maxGridX) JSSet.empty.

Definition query (idx : QuadTreeSpatialIndex) (bounds : BoundingBox)
  : list GeographicFeature :=
  flat_map
    (fun i =>
       match JSMap.get (features idx) i with
       | Some feature =>
           if featureIntersectsBounds feature bounds then [feature] else []
       | None => []
       end)
    (candidateIds idx bounds).

(** [None] is the centre of the infinite box, which is [NaN]. *)
Definition getFeatureCenter (feature : GeographicFeature) : option Coordinates :=
  match geometry feature with
  | Point coords => Some coords
  | _ =>
      match getFeatureBounds feature with
      | None => None
      | Some bounds =>
          Some {| latitude := (north bounds + south bounds) / 2;
                  longitude := (east bounds + west bounds) / 2 |}
      end
  end.

(** A [NaN] distance is not [<= radiusKm]. *)
Definition withinRadius (center : Coordinates) (radiusKm : R)
           (feature : GeographicFeature) : bool :=
  match getFeatureCenter feature with
  | Some featureCoords => leb (calculateDistance center featureCoords) radiusKm
  | None => false
  end.

Definition queryRadius (idx : QuadTreeSpatialIndex) (center : Coordinates)
           (radiusKm : R) : list GeographicFeature :=
  let bounds := createBoundingBox center radiusKm in
  let candidates := query idx bounds in
  filter (withinRadius center radiusKm) candidates.

(** One round of the [forEach] of [remove]. *)
Definition removeFromCell (featureId : string) (grid : JSMap.t JSSet.t) (key : string)
  : JSMap.t JSSet.t :=
  match JSMap.get grid key with
  | Some cell =>
      let cell1 := JSSet.delete cell featureId in
      if Nat.eqb (JSSet.size cell1) 0 then JSMap.delete grid key
      else JSMap.set grid key cell1
  | None => grid
  end.

Definition remove (featureId : string) (idx : QuadTreeSpatialIndex)
  : bool * QuadTreeSpatialIndex :=
  match JSMap.get (features idx) featureId with
  | None => (false, idx)
  | Some feature =>
      let gridKeys := getGridKeys feature in
      (true,
       {| features := JSMap.delete (features idx) featureId;
          spatialGrid :=
            fold_left (removeFromCell featureId) gridKeys (spatialGrid idx) |})
  end.

Definition clear (idx : QuadTreeSpatialIndex) : QuadTreeSpatialIndex := empty.

(** The calls a client can make that change the index. *)
Inductive Op : Type :=
| OpInsert (feature : GeographicFeature)
| OpRemove (featureId : string)
| OpClear.

Definition apply (idx : QuadTreeSpatialIndex) (op : Op) : QuadTreeSpatialIndex :=
  match op with
  | OpInsert feature => insert feature idx
  | OpRemove featureId => snd (remove featureId idx)
  | OpClear => clear idx
  end.

Definition run (ops : list Op) : QuadTreeSpatialIndex := fold_left apply ops empty.

(** [member grid key i]: the bucket of cell [key] holds the id [i]. *)
Definition member (grid : JSMap.t JSSet.t) (key i : string) : Prop :=
  exists cell, JSMap.get grid key = Some cell /\ In i cell.

(** Every stored feature is filed under its own id and registered in every
    cell of its current geometry. *)
Definition registered (idx : QuadTreeSpatialIndex) : Prop :=
  forall i f,
    JSMap.get (features idx) i = Some f ->
    id f = i /\ forall key, In key (getGridKeys f) -> member (spatialGrid idx) key i.

End SpatialIndex.

(** ** String built-ins *)

Module JSString.

Definition code (c : ascii) : nat := nat_of_ascii c.

Definition inRange (lo hi : nat) (c : ascii) : bool :=
  Nat.leb lo (code c) && Nat.leb (code c) hi.

Definition isUpper (c : ascii) : bool := inRange 65 90 c.
Definition isLower (c : ascii) : bool := inRange 97 122 c.
Definition isLetter (c : ascii) : bool := isUpper c || isLower c.
Definition isDigit (c : ascii) : bool := inRange 48 57 c.

(** The white space and line terminators of ECMAScript that are Latin-1. *)
Definition isSpace (c : ascii) : bool :=
  inRange 9 13 c || Nat.eqb (code c) 32 || Nat.eqb (code c) 160.

(** [toLowerCase] on a Latin-1 code unit. *)
Definition lowerChar (c : ascii) : ascii :=
  if isUpper c || (inRange 192 222 c && negb (Nat.eqb (code c) 215))
  then ascii_of_nat (code c + 32) else c.

Fixpoint toLowerCase (s : string) : string :=
  match s with
  | EmptyString => EmptyString
  | String c rest => String (lowerChar c) (toLowerCase rest)
  end.

Fixpoint trimStart (s : string) : string :=
  match s with
  | String c rest => if isSpace c then trimStart rest else s
  | EmptyString => EmptyString
  end.

Fixpoint rev (s : string) : string :=
  match s with
  | EmptyString => EmptyString
  | String c rest => (rev rest ++ String c EmptyString)%string
  end.

Definition trimEnd (s : string) : string := rev (trimStart (rev s)).

Definition trim (s : string) : string := trimEnd (trimStart s).

(** [s.includes(sub)]. *)
Fixpoint includes (s sub : string) : bool :=
  String.prefix sub s ||
  match s with
  | EmptyString => false
  | String _ rest => includes rest sub
  end.

Definition isEmpty (s : string) : bool :=
  match s with EmptyString => true | _ => false end.

(** The value of the leading decimal digits of [cs], after [acc], with the
    number of digits read and what follows them. *)
Fixpoint digits (acc : Z) (count : nat) (cs : list ascii) : Z * nat * list ascii :=
  match cs with
  | c :: rest =>
      if isDigit c
      then digits (acc * 10 + Z.of_nat (code c - 48))%Z (S count) rest
      else (acc, count, cs)
  | [] => (acc, count, cs)
  end.

(** [Number.parseFloat] on a decimal numeral: an optional minus sign, digits
    and an optional fraction.  These are the only texts the parser passes to
    it; what follows the numeral is ignored. *)
Definition parseFloat (s : string) : R :=
  let cs := list_ascii_of_string s in
  let '(negative, cs1) :=
    match cs with
    | "-"%char :: rest => (true, rest)
    | _ => (false, cs)
    end in
  let '(whole, _, cs2) := digits 0 0 cs1 in
  let '(mantissa, places) :=
    match cs2 with
    | "."%char :: rest => let '(m, n, _) := digits whole 0 rest in (m, n)
    | _ => (whole, O)
    end in
  let magnitude := IZR mantissa / IZR (10 ^ Z.of_nat places) in
  if negative then - magnitude else magnitude.

(** [Number.parseInt] on a run of decimal digits. *)
Definition parseInt (s : string) : Z :=
  let '(n, _, _) := digits 0 0 (list_ascii_of_string s) in n.

(** [s.replace(from, to)] for a one-character [from]: the first occurrence. *)
Fixpoint replaceFirst (from to : ascii) (s : string) : string :=
  match s with
  | EmptyString => EmptyString
  | String c rest =>
      if Ascii.eqb c from then String to rest
      else String c (replaceFirst from to rest)
  end.

End JSString.

(** ** Built-ins of the host that the sources call and do not define *)

Class Host : Type := {
  (** [new Date(s).getTime()]; [None] for an invalid date, which compares
      false with everything. *)
  Date_parse : string -> option R;
  (** The successive readings of the system clock ([Date.now()],
      [new Date()]): [Date_now n] is what the [n]-th reading returns.  A
      function that reads the clock takes the number of readings made so far
      and returns the new number. *)
  Date_now : nat -> R;
  (** [d.setDate(d.getDate() + n)], [d.setMonth(d.getMonth() + n)] and
      [d.setFullYear(d.getFullYear() + n)] on the instant [d]. *)
  Date_addDays : R -> Z -> R;
  Date_addMonths : R -> Z -> R;
  Date_addYears : R -> Z -> R;
  (** [d.toISOString().split("T")[0]]. *)
  Date_isoDay : R -> string;
  (** [x.toFixed(digits)]. *)
  Number_toFixed : R -> nat -> string
}.

(** ** [lib/rag/types.ts] *)

Module Doc.

Inductive DocType : Type := feature | analysis | report | observation.

Definition typeName (t : DocType) : string :=
  match t with
  | feature => "feature"
  | analysis => "analysis"
  | report => "report"
  | observation => "observation"
  end.

Record SpatialContext : Type := mkSpatialContext {
  nearbyFeatures : list string;
  region : string;
  climate : string;
  elevation : option R
}.

Record Metadata : Type := mkMetadata {
  type : DocType;
  location : option Coordinates;
  bounds : option BoundingBox;
  timestamp : string;
  source : string;
  tags : list string;
  confidence : option R
}.

Record GeographicDocument : Type := mkDocument {
  id : string;
  content : string;
  metadata : Metadata;
  embedding : option (list R);
  spatialContext : option SpatialContext
}.

Definition withEmbedding (d : GeographicDocument) (e : list R) : GeographicDocument :=
  {| id := id d; content := content d; metadata := metadata d;
     embedding := Some e; spatialContext := spatialContext d |}.

Record VectorSearchResult : Type := mkSearchResult {
  document : GeographicDocument;
  similarity : R;
  spatialRelevance : R;
  combinedScore : R
}.

Record Filters : Type := mkFilters {
  filterType : option (list string);
  dateRange : option (string * string);
  filterTags : option (list string);
  minConfidence : option R
}.

Record RAGQuery : Type := mkRAGQuery {
  text : string;
  queryLocation : option Coordinates;
  radius : option R;
  filters : option Filters;
  spatialWeight : option R
}.

End Doc.

(** ** [lib/rag/embeddings.ts] *)

Module Embeddings.
Import Doc.

Definition dimensions : nat := 384.

(** [ToInt32]. *)
Definition toInt32 (z : Z) : Z := ((z + 2 ^ 31) mod 2 ^ 32 - 2 ^ 31)%Z.

Definition hashStep (hash : Z) (c : ascii) : Z :=
  let char := Z.of_nat (JSString.code c) in
  let hash1 := (toInt32 (Z.shiftl hash 5) - hash + char)%Z in
  Z.land (toInt32 hash1) (toInt32 hash1).

Definition simpleHash (str : string) : Z :=
  Z.abs (fold_left hashStep (list_ascii_of_string str) 0%Z).

Definition sumSquares (v : list R) : R :=
  fold_left (fun sum val => sum + val * val) v 0.

(** [generateEmbedding] of [MockEmbeddingProvider]. *)
Definition generateEmbedding (text : string) : list R :=
  let hash := simpleHash text in
  let embedding :=
    map (fun i =>
           let seed := IZR hash + INR i in
           (sin seed + cos (seed * 1.5) + sin (seed * 2.3)) / 3)
        (seq 0 dimensions) in
  let magnitude := sqrt (sumSquares embedding) in
  map (fun val => val / magnitude) embedding.

(** The batches of ten are embedded one after the other and concatenated
    in order. *)
Definition generateBatchEmbeddings (texts : list string) : list (list R) :=
  map generateEmbedding texts.

(** [climateMap[climate.toLowerCase()] || [0, 0, 0]]. *)
Definition encodeClimate (climate : string) : list R :=
  let key := JSString.toLowerCase climate in
  if String.eqb key "tropical" then [1; 0; 0]
  else if String.eqb key "temperate" then [0; 1; 0]
  else if String.eqb key "polar" then [0; 0; 1]
  else if String.eqb key "arid" then [0.5; 0.5; 0]
  else if String.eqb key "mediterranean" then [0.7; 0.3; 0]
  else [0; 0; 0].

Definition extractSpatialFeatures (document : GeographicDocument) : list R :=
  let located :=
    match location (metadata document) with
    | Some loc =>
        [latitude loc / 90;
         longitude loc / 180;
         sin (latitude loc * PI / 180);
         cos (latitude loc * PI / 180);
         sin (longitude loc * PI / 180);
         cos (longitude loc * PI / 180)]
    | None => []
    end in
  let elev :=
    match spatialContext document with
    | Some ctx =>
        match elevation ctx with
        | Some e => if truthy e then [tanh (e / 5000)] else [0]
        | None => [0]
        end
    | None => [0]
    end in
  let clim :=
    match spatialContext document with
    | Some ctx =>
        if negb (JSString.isEmpty (climate ctx)) then encodeClimate (climate ctx)
        else [0; 0; 0]
    | None => [0; 0; 0]
    end in
  located ++ elev ++ clim.

(** [enhanceWithSpatialContext] of [GeographicEmbeddingEnhancer]. *)
Definition enhanceWithSpatialContext (textEmbedding : list R)
           (document : GeographicDocument) : list R :=
  match location (metadata document) with
  | Some _ => textEmbedding ++ extractSpatialFeatures document
  | None => textEmbedding
  end.

End Embeddings.

(** ** [lib/rag/vector-store.ts] *)

Module VectorStore.
Import Doc SpatialUtils.

Record VectorStoreOptions : Type := mkOptions {
  optDimensions : nat;
  optSpatialWeight : R;
  maxResults : nat
}.

Record GeographicVectorStore : Type := mkStore {
  documents : JSMap.t GeographicDocument;
  embeddings : JSMap.t (list R);
  spatialIndex : JSMap.t (list string);
  options : VectorStoreOptions
}.

(** [new GeographicVectorStore(options)]. *)
Definition create (opts : VectorStoreOptions) : GeographicVectorStore :=
  {| documents := JSMap.empty; embeddings := JSMap.empty;
     spatialIndex := JSMap.empty; options := opts |}.

Definition gridKey (x y : Z) : string :=
  (intToString x ++ "," ++ intToString y)%string.

Definition addToSpatialIndex (docId : string) (loc : Coordinates)
           (grid : JSMap.t (list string)) : JSMap.t (list string) :=
  let gridSize := 0.1 in
  let gridX := floor (longitude loc / gridSize) in
  let gridY := floor (latitude loc / gridSize) in
  let key := gridKey gridX gridY in
  let grid1 := if negb (JSMap.has grid key) then JSMap.set grid key [] else grid in
  match JSMap.get grid1 key with
  | Some cellDocs => JSMap.set grid1 key (cellDocs ++ [docId])
  | None => grid1
  end.

Definition addDocument (document : GeographicDocument) (st : GeographicVectorStore)
  : GeographicVectorStore :=
  let documents1 := JSMap.set (documents st) (id document) document in
  let embeddings1 :=
    match embedding document with
    | Some e => JSMap.set (embeddings st) (id document) e
    | None => embeddings st
    end in
  let spatialIndex1 :=
    match location (metadata document) with
    | Some loc => addToSpatialIndex (id document) loc (spatialIndex st)
    | None => spatialIndex st
    end in
  {| documents := documents1; embeddings := embeddings1;
     spatialIndex := spatialIndex1; options := options st |}.

(** The calls of [Promise.all(documents.map(...))] run in order. *)
Definition addDocuments (docs : list GeographicDocument) (st : GeographicVectorStore)
  : GeographicVectorStore :=
  fold_left (fun st doc => addDocument doc st) docs st.

(** The loop of [cosineSimilarity]: dot product and the two squared norms. *)
Fixpoint accumulate (a b : list R) (acc : R * R * R) : R * R * R :=
  match a, b with
  | x :: a', y :: b' =>
      let '(dotProduct, normA, normB) := acc in
      accumulate a' b' (dotProduct + x * y, normA + x * x, normB + y * y)
  | _, _ => acc
  end.



Definition lengthError : string := "Vectors must have the same length".

Definition cosineSimilarity (a b : list R) : Result R :=
  if negb (Nat.eqb (List.length a) (List.length b)) then
    Throw lengthError
  else
    let '(dotProduct, normA, normB) := accumulate a b (0, 0, 0) in
    Ok (dotProduct / (sqrt normA * sqrt normB)).

Definition calculateSpatialRelevance (document : GeographicDocument) (query : RAGQuery)
  : R :=
  match queryLocation query, location (metadata document) with
  | Some qloc, Some dloc =>
      let distance := calculateDistance qloc dloc in
      let maxDistance := orDefault (radius query) 100 in
      exp (- distance / (maxDistance / 3))
  | _, _ => 0.5
  end.

Definition combineScores (similarity spatialRelevance spatialWeight : R) : R :=
  (1 - spatialWeight) * similarity + spatialWeight * spatialRelevance.

(** [getSpatialCandidates]: the documents of the scanned cells, in scan
    order and with repetitions, that are stored with a location within
    [radiusKm]. *)
Definition getSpatialCandidates (st : GeographicVectorStore) (loc : Coordinates)
           (radiusKm : R) : list string :=
  let gridSize := 0.1 in
  let latRange := radiusKm / 111 in
  let lonRange := radiusKm / (111 * cos (latitude loc * PI / 180)) in
  let minGridX := floor ((longitude loc - lonRange) / gridSize) in
  let maxGridX := ceil ((longitude loc + lonRange) / gridSize) in
  let minGridY := floor ((latitude loc - latRange) / gridSize) in
  let maxGridY := ceil ((latitude loc + latRange) / gridSize) in
  let candidates :=
    flat_map
      (fun x =>
         flat_map
           (fun y =>
              match JSMap.get (spatialIndex st) (gridKey x y) with
              | Some cellDocs => cellDocs
              | None => []
              end)
           (range minGridY maxGridY))
      (range minGridX maxGridX) in
  filter
    (fun docId =>
       match JSMap.get (documents st) docId with
       | Some document =>
           match location (metadata document) with
           | Some dloc => leb (calculateDistance loc dloc) radiusKm
           | None => false
           end
       | None => false
       end)
    candidates.

Section Search.
Context {host : Host}.

(** [a < b] on two [Date] objects. *)
Definition dateLt (a b : option R) : bool :=
  match a, b with
  | Some x, Some y => ltb x y
  | _, _ => false
  end.

(** The predicate of the [filter] in [getCandidateDocuments]. *)
Definition passesFilters (st : GeographicVectorStore) (f : Filters) (docId : string)
  : bool :=
  match JSMap.get (documents st) docId with
  | None => false
  | Some document =>
      let typeOk :=
        match filterType f with
        | Some types =>
            existsb (String.eqb (typeName (type (metadata document)))) types
        | None => true
        end in
      let dateOk :=
        match dateRange f with
        | Some (startText, endText) =>
            let docDate := Date_parse (timestamp (metadata document)) in
            let startDate := Date_parse startText in
            let endDate := Date_parse endText in
            negb (dateLt docDate startDate || dateLt endDate docDate)
        | None => true
        end in
      let tagsOk :=
        match filterTags f with
        | Some wanted =>
            existsb (fun tag => existsb (String.eqb tag) (tags (metadata document)))
                    wanted
        | None => true
        end in
      let confidenceOk :=
        match minConfidence f, confidence (metadata document) with
        | Some minC, Some c => negb (truthy minC && truthy c && ltb c minC)
        | _, _ => true
        end in
      typeOk && dateOk && tagsOk && confidenceOk
  end.

Definition getCandidateDocuments (st : GeographicVectorStore) (query : RAGQuery)
  : list string :=
  let candidates :=
    match queryLocation query with
    | None => JSMap.keys (documents st)
    | Some loc =>
        let spatialCandidates :=
          getSpatialCandidates st loc (orDefault (radius query) 100) in
        let candidates := JSSet.addAll JSSet.empty spatialCandidates in
        if Nat.eqb (JSSet.size candidates) 0 then JSMap.keys (documents st)
        else candidates
    end in
  match filters query with
  | Some f => filter (passesFilters st f) candidates
  | None => candidates
  end.

(** The body of the [for] loop of [search]. *)
Definition scoreCandidate (st : GeographicVectorStore) (queryEmbedding : list R)
           (query : RAGQuery) (docId : string)
  : Result (option VectorSearchResult) :=
  match JSMap.get (documents st) docId, JSMap.get (embeddings st) docId with
  | Some document, Some embedding =>
      bind (cosineSimilarity queryEmbedding embedding) (fun similarity =>
      let spatialRelevance := calculateSpatialRelevance document query in
      let combinedScore :=
        combineScores similarity spatialRelevance
          (orDefault (spatialWeight query) (optSpatialWeight (options st))) in
      Ok (Some {| document := document; similarity := similarity;
                  spatialRelevance := spatialRelevance;
                  combinedScore := combinedScore |}))
  | _, _ => Ok None
  end.

Fixpoint scoreAll (st : GeographicVectorStore) (queryEmbedding : list R)
         (query : RAGQuery) (candidates : list string)
         (results : list VectorSearchResult) : Result (list VectorSearchResult) :=
  match candidates with
  | [] => Ok results
  | docId :: rest =>
      bind (scoreCandidate st queryEmbedding query docId) (fun r =>
      scoreAll st queryEmbedding query rest
        (match r with Some x => results ++ [x] | None => results end))
  end.

(** [results.sort((a, b) => b.combinedScore - a.combinedScore)]: a stable
    sort by decreasing score. *)
Fixpoint insertByScore (x : VectorSearchResult) (sorted : list VectorSearchResult)
  : list VectorSearchResult :=
  match sorted with
  | [] => [x]
  | y :: rest =>
      if ltb (combinedScore x) (combinedScore y) then y :: insertByScore x rest
      else x :: sorted
  end.

Definition sortByScore (results : list VectorSearchResult) : list VectorSearchResult :=
  fold_right insertByScore [] results.

Definition search (st : GeographicVectorStore) (queryEmbedding : list R)
           (query : RAGQuery) : Result (list VectorSearchResult) :=
  let candidates := getCandidateDocuments st query in
  bind (scoreAll st queryEmbedding query candidates []) (fun results =>
  Ok (firstn (maxResults (options st)) (sortByScore results))).

End Search.

Definition removeFromSpatialIndex (docId : string) (loc : Coordinates)
           (grid : JSMap.t (list string)) : JSMap.t (list string) :=
  let gridSize := 0.1 in
  let gridX := floor (longitude loc / gridSize) in
  let gridY := floor (latitude loc / gridSize) in
  let key := gridKey gridX gridY in
  match JSMap.get grid key with
  | Some cellDocs =>
      if existsb (String.eqb docId) cellDocs then
        let cellDocs1 := removeFirst docId cellDocs in
        if Nat.eqb (List.length cellDocs1) 0 then JSMap.delete grid key
        else JSMap.set grid key cellDocs1
      else grid
  | None => grid
  end.

Definition removeDocument (docId : string) (st : GeographicVectorStore)
  : bool * GeographicVectorStore :=
  match JSMap.get (documents st) docId with
  | None => (false, st)
  | Some document =>
      (true,
       {| documents := JSMap.delete (documents st) docId;
          embeddings := JSMap.delete (embeddings st) docId;
          spatialIndex :=
            match location (metadata document) with
            | Some loc => removeFromSpatialIndex docId loc (spatialIndex st)
            | None => spatialIndex st
            end;
          options := options st |})
  end.

Record Stats : Type := mkStats {
  totalDocuments : nat;
  documentsWithEmbeddings : nat;
  documentsWithLocation : nat;
  spatialGridCells : nat
}.

Definition hasLocation (d : GeographicDocument) : bool :=
  match location (metadata d) with Some _ => true | None => false end.

Definition getStats (st : GeographicVectorStore) : Stats :=
  {| totalDocuments := JSMap.size (documents st);
     documentsWithEmbeddings := JSMap.size (embeddings st);
     documentsWithLocation :=
       List.length (filter hasLocation (JSMap.values (documents st)));
     spatialGridCells := JSMap.size (spatialIndex st) |}.

End VectorStore.

(** ** [lib/rag/rag-engine.ts] *)

Module RAGEngine.
Import Doc Embeddings VectorStore.

Record GeographicRAGEngine : Type := mkEngine {
  vectorStore : GeographicVectorStore
}.

Definition defaultOptions : VectorStoreOptions :=
  {| optDimensions := 384; optSpatialWeight := 0.3; maxResults := 10 |}.

(** [new GeographicRAGEngine()]. *)
Definition create : GeographicRAGEngine :=
  {| vectorStore := VectorStore.create defaultOptions |}.





(** The documents as [addDocuments] hands them to the store: each one
    receives the enhanced form of the embedding of its text, whether it had
    an embedding or not. *)
Definition embedAll (documents : list GeographicDocument) : list GeographicDocument :=
  let texts := map content documents in
  let embeddings := generateBatchEmbeddings texts in
  map (fun entry =>
         withEmbedding (fst entry) (enhanceWithSpatialContext (snd entry) (fst entry)))
      (combine documents embeddings).

Definition addDocuments (documents : list GeographicDocument)
           (engine : GeographicRAGEngine) : GeographicRAGEngine :=
  {| vectorStore := VectorStore.addDocuments (embedAll documents) (vectorStore engine) |}.

Definition sumScores (sources : list VectorSearchResult) : R :=
  fold_left (fun sum s => sum + combinedScore s) sources 0.

Definition calculateConfidence (sources : list VectorSearchResult) : R :=
  match sources with
  | [] => 0
  | _ =>
      let avgScore := sumScores sources / INR (List.length sources) in
      let diversityBonus := Rmin (INR (List.length sources) / 5) 1 * 0.1 in
      Rmin 1 (avgScore + diversityBonus)
  end.

Definition spatialScope (query : RAGQuery) : string :=
  match queryLocation query with
  | None => "global"
  | Some _ =>
      match radius query with
      | Some r =>
          if truthy r && leb r 10 then "local"
          else if truthy r && leb r 100 then "regional"
          else "national"
      | None => "national"
      end
  end.

(** The part of a [RAGResponse] that is computed from the search results;
    the answer text and the timings are left out. *)
Record RAGResponse : Type := mkResponse {
  sources : list VectorSearchResult;
  scope : string;
  responseConfidence : R;
  documentsRetrieved : nat;
  spatialFiltering : bool
}.

Section Retrieval.
Context {host : Host}.

(** [query]: the query text is embedded as it is, and an error thrown by
    the search rejects the whole call. *)
Definition query (engine : GeographicRAGEngine) (q : RAGQuery) : Result RAGResponse :=
  let queryEmbedding := generateEmbedding (text q) in
  bind (search (vectorStore engine) queryEmbedding q) (fun searchResults =>
  Ok {| sources := searchResults;
        scope := spatialScope q;
        responseConfidence := calculateConfidence searchResults;
        documentsRetrieved := List.length searchResults;
        spatialFiltering :=
          match queryLocation q with Some _ => true | None => false end |}).

End Retrieval.

End RAGEngine.

(** ** Regular expressions

    The fragment of ECMAScript regular expressions that the parser uses, with
    the backtracking semantics of the language: alternatives are tried from
    left to right, a greedy quantifier tries the longest repetition first and
    a lazy one the shortest, and the first complete match wins. *)

Module Regex.

(** A class of characters. *)
Inductive CharSet : Type :=
| One (c : ascii)
| Span (lo hi : ascii)
| Digit
| Space
| Union (a b : CharSet).

(** Quantifiers apply to a class of characters, except for [?], which applies
    to any expression. *)
Inductive Regex : Type :=
| Empty
| Char (cs : CharSet)
| Seq (r1 r2 : Regex)
| Alt (r1 r2 : Regex)
| Opt (r : Regex)
| Repeat (cs : CharSet) (min : nat) (max : option nat) (greedy : bool)
| Group (n : nat) (r : Regex)
| WordBoundary
| EndOfInput.

Definition inSpan (lo hi c : ascii) : bool :=
  Nat.leb (JSString.code lo) (JSString.code c) &&
  Nat.leb (JSString.code c) (JSString.code hi).

(** [Canonicalize] of a Latin-1 code unit under the flag [i]: its upper
    case, when that is a Latin-1 code unit again. *)
Definition canonical (c : ascii) : ascii :=
  if JSString.isLower c ||
     (JSString.inRange 224 254 c && negb (Nat.eqb (JSString.code c) 247))
  then ascii_of_nat (JSString.code c - 32) else c.

Fixpoint member (cs : CharSet) (c : ascii) : bool :=
  match cs with
  | One c0 => Ascii.eqb c0 c
  | Span lo hi => inSpan lo hi c
  | Digit => JSString.isDigit c
  | Space => JSString.isSpace c
  | Union a b => member a c || member b c
  end.

(** Membership under the flag [i]: some member of the class has the
    canonical form of [c]. *)
Fixpoint memberIgnoreCase (cs : CharSet) (c : ascii) : bool :=
  match cs with
  | One c0 => Ascii.eqb (canonical c0) (canonical c)
  | Span lo hi =>
      inSpan lo hi c || inSpan lo hi (canonical c) || inSpan lo hi (JSString.lowerChar c)
  | Digit => JSString.isDigit c
  | Space => JSString.isSpace c
  | Union a b => memberIgnoreCase a c || memberIgnoreCase b c
  end.

Definition accepts (ignoreCase : bool) (cs : CharSet) (c : ascii) : bool :=
  if ignoreCase then memberIgnoreCase cs c else member cs c.

(** [\w]. *)
Definition isWordChar (c : ascii) : bool :=
  JSString.isLetter c || JSString.isDigit c || Ascii.eqb c "_".

Definition isWord (c : option ascii) : bool :=
  match c with Some c => isWordChar c | None => false end.

(** The spans [(start, end)] of the capturing groups, latest first. *)
Definition Captures : Type := list (nat * (nat * nat)).

Fixpoint capture (caps : Captures) (n : nat) : option (nat * nat) :=
  match caps with
  | [] => None
  | (m, span) :: rest => if Nat.eqb n m then Some span else capture rest n
  end.

(** A continuation receives the character before the position, the rest of
    the input, the position and the captures, and returns the end of the
    match and the final captures. *)
Definition Cont : Type :=
  option ascii -> list ascii -> nat -> Captures -> option (nat * Captures).

Definition belowMax (count : nat) (max : option nat) : bool :=
  match max with Some m => Nat.ltb count m | None => true end.

(** A quantified class from a position where [count] characters have been
    taken. *)
Fixpoint repeatFrom (test : ascii -> bool) (min : nat) (max : option nat)
         (greedy : bool) (k : Cont) (caps : Captures)
         (count : nat) (prev : option ascii) (rest : list ascii) (pos : nat)
  : option (nat * Captures) :=
  let stop := if Nat.leb min count then k prev rest pos caps else None in
  let more :=
    match rest with
    | c :: rest' =>
        if belowMax count max && test c
        then repeatFrom test min max greedy k caps (S count) (Some c) rest' (S pos)
        else None
    | [] => None
    end in
  if greedy then match more with Some m => Some m | None => stop end
  else match stop with Some m => Some m | None => more end.

Fixpoint run (ignoreCase : bool) (r : Regex)
         (prev : option ascii) (rest : list ascii) (pos : nat) (caps : Captures)
         (k : Cont) : option (nat * Captures) :=
  match r with
  | Empty => k prev rest pos caps
  | Char cs =>
      match rest with
      | c :: rest' =>
          if accepts ignoreCase cs c then k (Some c) rest' (S pos) caps else None
      | [] => None
      end
  | Seq r1 r2 =>
      run ignoreCase r1 prev rest pos caps
          (fun prev' rest' pos' caps' => run ignoreCase r2 prev' rest' pos' caps' k)
  | Alt r1 r2 =>
      match run ignoreCase r1 prev rest pos caps k with
      | Some m => Some m
      | None => run ignoreCase r2 prev rest pos caps k
      end
  | Opt r1 =>
      match run ignoreCase r1 prev rest pos caps k with
      | Some m => Some m
      | None => k prev rest pos caps
      end
  | Repeat cs min max greedy =>
      repeatFrom (accepts ignoreCase cs) min max greedy k caps 0 prev rest pos
  | Group n r1 =>
      run ignoreCase r1 prev rest pos caps
          (fun prev' rest' pos' caps' => k prev' rest' pos' ((n, (pos, pos')) :: caps'))
  | WordBoundary =>
      if xorb (isWord prev) (isWord (hd_error rest)) then k prev rest pos caps
      else None
  | EndOfInput =>
      match rest with
      | [] => k prev rest pos caps
      | _ :: _ => None
      end
  end.

(** A compiled expression: the text between the slashes of its literal, kept
    for reference, the pattern it denotes and its flag [i]. *)
Record RegExp : Type := mkRegExp {
  source : string;
  pattern : Regex;
  ignoreCase : bool
}.

(** A successful match: [index], the end of the matched text
    ([index + match[0].length]) and the captured spans. *)
Record Match : Type := mkMatch {
  index : nat;
  stop : nat;
  captures : Captures
}.

(** The first match that starts at [pos] or later. *)
Fixpoint scan (re : RegExp) (prev : option ascii) (rest : list ascii) (pos : nat)
  : option Match :=
  match run (ignoreCase re) (pattern re) prev rest pos []
            (fun _ _ pos' caps => Some (pos', caps)) with
  | Some (e, caps) => Some {| index := pos; stop := e; captures := caps |}
  | None =>
      match rest with
      | c :: rest' => scan re (Some c) rest' (S pos)
      | [] => None
      end
  end.

(** The input from position [n] on, with the character before it. *)
Fixpoint advance (n : nat) (prev : option ascii) (rest : list ascii)
  : option ascii * list ascii :=
  match n, rest with
  | S n', c :: rest' => advance n' (Some c) rest'
  | _, _ => (prev, rest)
  end.

(** [re.exec(text)] with [re.lastIndex = lastIndex]. *)
Definition exec (re : RegExp) (text : string) (lastIndex : nat) : option Match :=
  let '(prev, rest) := advance lastIndex None (list_ascii_of_string text) in
  scan re prev rest lastIndex.

(** The loop [while ((match = re.exec(text)) !== null)] of an expression with
    the flag [g], which resumes at the end of the previous match.  [None]:
    the loop is still running when the fuel is used up. *)
Fixpoint execLoop (fuel : nat) (re : RegExp) (text : string) (lastIndex : nat)
  : option (list Match) :=
  match fuel with
  | O => None
  | S fuel' =>
      match exec re text lastIndex with
      | None => Some []
      | Some m => option_map (cons m) (execLoop fuel' re text (stop m))
      end
  end.

(** The matches found by the loop.  The fuel is enough for every expression
    that cannot match the empty string (lemma [execLoop_finishes]). *)
Definition execAll (re : RegExp) (text : string) : list Match :=
  match execLoop (S (S (String.length text))) re text 0 with
  | Some ms => ms
  | None => []
  end.

(** [match[0]] and [match[n]]. *)
Definition matched (text : string) (m : Match) : string :=
  String.substring (index m) (stop m - index m) text.

Definition group (text : string) (m : Match) (n : nat) : string :=
  match capture (captures m) n with
  | Some (a, b) => String.substring a (b - a) text
  | None => ""
  end.

(** *** Writing expressions *)

Fixpoint lit (s : string) : Regex :=
  match s with
  | EmptyString => Empty
  | String c EmptyString => Char (One c)
  | String c rest => Seq (Char (One c)) (lit rest)
  end.

Fixpoint seqs (rs : list Regex) : Regex :=
  match rs with
  | [] => Empty
  | [r] => r
  | r :: rest => Seq r (seqs rest)
  end.

Fixpoint alts (rs : list Regex) : Regex :=
  match rs with
  | [] => Empty
  | [r] => r
  | r :: rest => Alt r (alts rest)
  end.

Definition plus (cs : CharSet) : Regex := Repeat cs 1 None true.
Definition star (cs : CharSet) : Regex := Repeat cs 0 None true.
Definition lazyPlus (cs : CharSet) : Regex := Repeat cs 1 None false.
Definition times (lo hi : nat) (cs : CharSet) : Regex := Repeat cs lo (Some hi) true.

Definition upper : CharSet := Span "A" "Z".
Definition lower : CharSet := Span "a" "z".

(** *** Progress *)

(** The least number of characters a match of [r] consumes. *)
Fixpoint minLength (r : Regex) : nat :=
  match r with
  | Empty => 0
  | Char _ => 1
  | Seq r1 r2 => minLength r1 + minLength r2
  | Alt r1 r2 => Nat.min (minLength r1) (minLength r2)
  | Opt _ => 0
  | Repeat _ min _ _ => min
  | Group _ r1 => minLength r1
  | WordBoundary => 0
  | EndOfInput => 0
  end.

(** [reaches k res pos len low]: the continuation [k] gave [res] at a
    position that is at least [low] and has consumed input only. *)
Definition reaches (k : Cont) (res : nat * Captures) (pos len low : nat) : Prop :=
  exists prev' rest' pos' caps',
    k prev' rest' pos' caps' = Some res /\
    (low <= pos')%nat /\ (pos' + List.length rest' = pos + len)%nat.

End Regex.

(** ** [lib/query/types.ts] *)

Module Query.

Inductive IntentType : Type :=
| search | compare | analyze | describe | find_nearby | route | change_detection.

Record QueryIntent : Type := mkIntent {
  intentType : IntentType;
  subtype : option string;
  description : string
}.

Inductive DistanceUnit : Type := km | miles | meters.

Inductive EntityType : Type :=
| location | feature_type | measurement | time | organization.

(** The [value] of an entity.  Its shape goes with the [type] of the entity,
    which is read off it: a place name or a pair of coordinates for a
    location, the canonical noun for a feature type, [{distance, unit}] for
    a measurement. *)
Inductive EntityValue : Type :=
| PlaceName (placeName : string)
| PlaceCoordinates (coords : Coordinates)
| FeatureNoun (noun : string)
| Distance (distance : R) (unit : DistanceUnit).

Record ExtractedEntity : Type := mkEntity {
  text : string;
  value : EntityValue;
  confidence : R;
  positionStart : nat;
  positionEnd : nat
}.

Definition entityType (e : ExtractedEntity) : EntityType :=
  match value e with
  | PlaceName _ | PlaceCoordinates _ => location
  | FeatureNoun _ => feature_type
  | Distance _ _ => measurement
  end.

Inductive ConstraintType : Type :=
| point | radius | bounds | polygon | within | intersects | near.

Record ConstraintParameters : Type := mkParameters {
  parameterRadius : option R;
  parameterUnit : option DistanceUnit;
  locationName : option string
}.

Record SpatialConstraint : Type := mkConstraint {
  constraintType : ConstraintType;
  geometry : Coordinates;
  parameters : option ConstraintParameters
}.

Inductive TemporalType : Type := before | after | between | during | recent.

Record TemporalConstraint : Type := mkTemporal {
  temporalType : TemporalType;
  startDate : option string;
  endDate : option string
}.

Inductive Operator : Type :=
| equals | contains | greater_than | less_than | op_in | not_in.

Inductive FilterValue : Type :=
| TextValue (s : string)
| NumberValue (x : R).

Record QueryFilter : Type := mkFilter {
  field : string;
  operator : Operator;
  filterValue : FilterValue
}.

Record ParsedQuery : Type := mkParsedQuery {
  intent : QueryIntent;
  entities : list ExtractedEntity;
  spatialConstraints : list SpatialConstraint;
  temporalConstraints : list TemporalConstraint;
  filters : list QueryFilter;
  parsingConfidence : R
}.

(** An entity whose confidence is not negative. *)
Definition nonnegative (e : ExtractedEntity) : Prop := 0 <= confidence e.

End Query.

(** ** [lib/query/parser.ts] *)

Module Parser.
Import Regex Query.

Definition letters : CharSet := Union lower upper.

Definition LOCATION_PATTERNS : list RegExp :=
  [ {| source := "\b(?:in|at|near|around|within)\s+([A-Z][a-zA-Z\s,]+?)(?:\s|$|,)";
       ignoreCase := true;
       pattern :=
         seqs [WordBoundary;
               alts [lit "in"; lit "at"; lit "near"; lit "around"; lit "within"];
               plus Space;
               Group 1 (Seq (Char upper)
                            (lazyPlus (Union lower (Union upper (Union Space (One ","))))));
               alts [Char Space; EndOfInput; Char (One ",")]] |};
    {| source := "\b([A-Z][a-zA-Z\s]+(?:City|County|State|Province|Country|Park|Mountain|River|Lake))\b";
       ignoreCase := true;
       pattern :=
         seqs [WordBoundary;
               Group 1 (seqs [Char upper;
                              plus (Union lower (Union upper Space));
                              alts [lit "City"; lit "County"; lit "State";
                                    lit "Province"; lit "Country"; lit "Park";
                                    lit "Mountain"; lit "River"; lit "Lake"]]);
               WordBoundary] |};
    {| source := "\b(\d+\.?\d*)\s*,\s*(\d+\.?\d*)\b";
       ignoreCase := false;
       pattern :=
         seqs [WordBoundary;
               Group 1 (seqs [plus Digit; Opt (Char (One ".")); star Digit]);
               star Space; Char (One ","); star Space;
               Group 2 (seqs [plus Digit; Opt (Char (One ".")); star Digit]);
               WordBoundary] |} ].

(** The alternatives of units: km, kilometer(s), mile(s), meter(s), m. *)
Definition unitWords : Regex :=
  alts [lit "km";
        Seq (lit "kilometer") (Opt (Char (One "s")));
        Seq (lit "mile") (Opt (Char (One "s")));
        Seq (lit "meter") (Opt (Char (One "s")));
        lit "m"].

(** Digits with an optional fraction. *)
Definition decimal : Regex :=
  Seq (plus Digit) (Opt (Seq (Char (One ".")) (plus Digit))).

Definition DISTANCE_PATTERNS : list RegExp :=
  [ {| source := "\b(\d+(?:\.\d+)?)\s*(km|kilometers?|miles?|meters?|m)\b";
       ignoreCase := true;
       pattern :=
         seqs [WordBoundary; Group 1 decimal; star Space; Group 2 unitWords;
               WordBoundary] |};
    {| source := "\bwithin\s+(\d+(?:\.\d+)?)\s*(km|kilometers?|miles?|meters?|m)\b";
       ignoreCase := true;
       pattern :=
         seqs [WordBoundary; lit "within"; plus Space; Group 1 decimal; star Space;
               Group 2 unitWords; WordBoundary] |} ].

(** Four digits, two digits and two digits, separated by hyphens. *)
Definition isoDate : Regex :=
  seqs [times 4 4 Digit; Char (One "-"); times 2 2 Digit; Char (One "-");
        times 2 2 Digit].

Definition TIME_PATTERNS : list RegExp :=
  [ {| source := "\b(last|past)\s+(\d+)\s+(days?|weeks?|months?|years?)\b";
       ignoreCase := true;
       pattern :=
         seqs [WordBoundary; Group 1 (Alt (lit "last") (lit "past")); plus Space;
               Group 2 (plus Digit); plus Space;
               Group 3 (alts [Seq (lit "day") (Opt (Char (One "s")));
                              Seq (lit "week") (Opt (Char (One "s")));
                              Seq (lit "month") (Opt (Char (One "s")));
                              Seq (lit "year") (Opt (Char (One "s")))]);
               WordBoundary] |};
    {| source := "\b(before|after|since)\s+(\d{4}-\d{2}-\d{2}|\d{1,2}\/\d{1,2}\/\d{4})\b";
       ignoreCase := true;
       pattern :=
         seqs [WordBoundary;
               Group 1 (alts [lit "before"; lit "after"; lit "since"]); plus Space;
               Group 2 (Alt isoDate
                            (seqs [times 1 2 Digit; Char (One "/"); times 1 2 Digit;
                                   Char (One "/"); times 4 4 Digit]));
               WordBoundary] |};
    {| source := "\b(between)\s+(\d{4}-\d{2}-\d{2})\s+and\s+(\d{4}-\d{2}-\d{2})\b";
       ignoreCase := true;
       pattern :=
         seqs [WordBoundary; Group 1 (lit "between"); plus Space; Group 2 isoDate;
               plus Space; lit "and"; plus Space; Group 3 isoDate; WordBoundary] |} ].

Definition INTENT_KEYWORDS : list (IntentType * list string) :=
  [ (search, ["find"; "search"; "locate"; "show"; "list"; "get"]);
    (compare, ["compare"; "difference"; "versus"; "vs"; "contrast"]);
    (analyze, ["analyze"; "analysis"; "examine"; "study"; "investigate"]);
    (describe, ["describe"; "what is"; "tell me about"; "information about"]);
    (find_nearby, ["nearby"; "close to"; "around"; "near"; "within"]);
    (route, ["route"; "path"; "direction"; "navigate"; "travel"]);
    (change_detection, ["change"; "changed"; "difference"; "evolution"; "trend"]) ].

Definition FEATURE_TYPES : list string :=
  [ "city"; "town"; "village"; "mountain"; "river"; "lake"; "forest"; "park";
    "building"; "road"; "highway"; "airport"; "hospital"; "school"; "restaurant";
    "vegetation"; "water"; "urban"; "agriculture"; "desert"; "coastline" ].

Definition isSearch (t : IntentType) : bool :=
  match t with search => true | _ => false end.

Definition generateIntentDescription (type : IntentType) (subtype : option string)
  : string :=
  let description :=
    match type with
    | search => "Search for geographic information"
    | compare => "Compare geographic features or areas"
    | analyze => "Analyze geographic data or patterns"
    | describe => "Describe geographic features or locations"
    | find_nearby => "Find nearby geographic features"
    | route => "Find routes or directions"
    | change_detection => "Detect changes over time"
    end in
  match subtype with
  | Some sub =>
      if JSString.isEmpty sub then description
      else (description ++ " (" ++ JSString.replaceFirst "_" " " sub ++ ")")%string
  | None => description
  end.

(** The score of one intent: how many of its keywords the text includes. *)
Definition keywordScore (queryText : string) (keywords : list string) : nat :=
  fold_left
    (fun sum keyword => (sum + (if JSString.includes queryText keyword then 1 else 0))%nat)
    keywords 0%nat.

Definition extractIntent (queryText : string) : QueryIntent :=
  let bestMatch :=
    fold_left
      (fun best entry =>
         let score := keywordScore queryText (snd entry) in
         if Nat.ltb (snd best) score then (fst entry, score) else best)
      INTENT_KEYWORDS (search, 0%nat) in
  let subtype :=
    if isSearch (fst bestMatch) then
      if JSString.includes queryText "satellite" || JSString.includes queryText "imagery"
      then Some "satellite_analysis"
      else if JSString.includes queryText "feature" ||
              JSString.includes queryText "geographic"
      then Some "geographic_features"
      else None
    else None in
  {| intentType := fst bestMatch;
     subtype := subtype;
     description := generateIntentDescription (fst bestMatch) subtype |}.

Definition normalizeUnit (unit : string) : DistanceUnit :=
  let normalized := JSString.toLowerCase unit in
  if JSString.includes normalized "mile" then miles
  else if JSString.includes normalized "meter" || String.eqb normalized "m" then meters
  else km.

(** The entities of the first loop of [extractEntities], for one pattern. *)
Definition locationEntities (queryText : string) (re : RegExp) : list ExtractedEntity :=
  flat_map
    (fun m =>
       let name := JSString.trim (group queryText m 1) in
       if negb (JSString.isEmpty (group queryText m 1)) &&
          Nat.ltb 2 (String.length name)
       then [{| text := name; value := PlaceName name; confidence := 0.8;
                positionStart := index m; positionEnd := stop m |}]
       else [])
    (execAll re queryText).

Definition coordPattern : RegExp :=
  let number :=
    seqs [Opt (Char (One "-")); plus Digit; Opt (Char (One ".")); star Digit] in
  {| source := "\b(-?\d+\.?\d*)\s*,\s*(-?\d+\.?\d*)\b";
     ignoreCase := false;
     pattern :=
       seqs [WordBoundary; Group 1 number; star Space; Char (One ","); star Space;
             Group 2 number; WordBoundary] |}.

Definition coordinateEntities (queryText : string) : list ExtractedEntity :=
  flat_map
    (fun m =>
       let lat := JSString.parseFloat (group queryText m 1) in
       let lon := JSString.parseFloat (group queryText m 2) in
       if geb lat (-90) && leb lat 90 && geb lon (-180) && leb lon 180
       then [{| text := matched queryText m;
                value := PlaceCoordinates {| latitude := lat; longitude := lon |};
                confidence := 0.95;
                positionStart := index m; positionEnd := stop m |}]
       else [])
    (execAll coordPattern queryText).

(** The expression built from the name of a feature type, with the flags
    [gi]. *)
Definition featureTypePattern (featureType : string) : RegExp :=
  {| source := ("\b" ++ featureType ++ "s?\b")%string;
     ignoreCase := true;
     pattern :=
       seqs [WordBoundary; lit featureType; Opt (Char (One "s")); WordBoundary] |}.

Definition featureTypeEntities (queryText : string) (featureType : string)
  : list ExtractedEntity :=
  map
    (fun m =>
       {| text := matched queryText m; value := FeatureNoun featureType;
          confidence := 0.9;
          positionStart := index m; positionEnd := stop m |})
    (execAll (featureTypePattern featureType) queryText).

Definition measurementEntities (queryText : string) (re : RegExp)
  : list ExtractedEntity :=
  map
    (fun m =>
       let value := JSString.parseFloat (group queryText m 1) in
       let unit := JSString.toLowerCase (group queryText m 2) in
       {| text := matched queryText m;
          value := Distance value (normalizeUnit unit);
          confidence := 0.95;
          positionStart := index m; positionEnd := stop m |})
    (execAll re queryText).

Definition extractEntities (queryText : string) : list ExtractedEntity :=
  flat_map (locationEntities queryText) LOCATION_PATTERNS ++
  coordinateEntities queryText ++
  flat_map (featureTypeEntities queryText) FEATURE_TYPES ++
  flat_map (measurementEntities queryText) DISTANCE_PATTERNS.

Definition isType (t : EntityType) (e : ExtractedEntity) : bool :=
  match entityType e, t with
  | location, location | feature_type, feature_type | measurement, measurement
  | time, time | organization, organization => true
  | _, _ => false
  end.

(** [value.distance] and [value.unit] of a measurement. *)
Definition distanceOf (e : ExtractedEntity) : option R :=
  match value e with Distance d _ => Some d | _ => None end.

Definition unitOf (e : ExtractedEntity) : option DistanceUnit :=
  match value e with Distance _ u => Some u | _ => None end.

(** [Math.abs(a - b) < 50] on two positions. *)
Definition closerThan50 (a b : nat) : bool :=
  Z.ltb (Z.abs (Z.of_nat a - Z.of_nat b)) 50.

Definition extractSpatialConstraints (queryText : string)
           (entities : list ExtractedEntity) : list SpatialConstraint :=
  let locationEntities := filter (isType location) entities in
  let measurementEntities := filter (isType measurement) entities in
  let fromLocations :=
    map
      (fun locationEntity =>
         match value locationEntity with
         | PlaceCoordinates coords =>
             let nearbyMeasurement :=
               find (fun m => closerThan50 (positionStart m) (positionEnd locationEntity))
                    measurementEntities in
             match nearbyMeasurement with
             | Some m =>
                 {| constraintType := radius; geometry := coords;
                    parameters :=
                      Some {| parameterRadius := distanceOf m;
                              parameterUnit := unitOf m;
                              locationName := None |} |}
             | None =>
                 {| constraintType := point; geometry := coords; parameters := None |}
             end
         | other =>
             {| constraintType := within;
                geometry := {| latitude := 0; longitude := 0 |};
                parameters :=
                  Some {| parameterRadius := None; parameterUnit := None;
                          locationName :=
                            match other with
                            | PlaceName n => Some n
                            | _ => None
                            end |} |}
         end)
      locationEntities in
  let fromNearby :=
    if JSString.includes queryText "nearby" || JSString.includes queryText "around" ||
       JSString.includes queryText "near"
    then
      let defaultRadius :=
        match measurementEntities with
        | m :: _ => distanceOf m
        | [] => Some 10
        end in
      match locationEntities with
      | loc :: _ =>
          match value loc with
          | PlaceCoordinates coords =>
              [{| constraintType := radius; geometry := coords;
                  parameters :=
                    Some {| parameterRadius := defaultRadius;
                            parameterUnit := Some km;
                            locationName := None |} |}]
          | _ => []
          end
      | [] => []
      end
    else [] in
  fromLocations ++ fromNearby.

Section Clock.
Context {host : Host}.

(** What one match of a time pattern adds.  [reads] counts the readings of
    the clock: [new Date()] is evaluated twice for a relative period. *)
Definition temporalOfMatch (queryText : string) (acc : list TemporalConstraint * nat)
           (m : Match) : list TemporalConstraint * nat :=
  let '(constraints, reads) := acc in
  let word := group queryText m 1 in
  if String.eqb word "last" || String.eqb word "past" then
    let amount := JSString.parseInt (group queryText m 2) in
    let unit := JSString.toLowerCase (group queryText m 3) in
    let endDate := Date_now reads in
    let startDate := Date_now (S reads) in
    let startDate1 :=
      if String.eqb unit "days" || String.eqb unit "day"
      then Date_addDays startDate (- amount)
      else if String.eqb unit "weeks" || String.eqb unit "week"
      then Date_addDays startDate (- (amount * 7))
      else if String.eqb unit "months" || String.eqb unit "month"
      then Date_addMonths startDate (- amount)
      else if String.eqb unit "years" || String.eqb unit "year"
      then Date_addYears startDate (- amount)
      else startDate in
    (constraints ++
       [{| temporalType := between;
           startDate := Some (Date_isoDay startDate1);
           endDate := Some (Date_isoDay endDate) |}],
     S (S reads))
  else acc.

Definition extractTemporalConstraints (queryText : string) (reads : nat)
  : list TemporalConstraint * nat :=
  fold_left
    (fun acc re => fold_left (temporalOfMatch queryText) (execAll re queryText) acc)
    TIME_PATTERNS ([], reads).

End Clock.

Definition typeFilterPattern : RegExp :=
  {| source := "(?:type|category):\s*([a-zA-Z_]+)";
     ignoreCase := true;
     pattern :=
       seqs [Alt (lit "type") (lit "category"); Char (One ":"); star Space;
             Group 1 (plus (Union lower (Union upper (One "_"))))] |}.

Definition confidenceFilterPattern : RegExp :=
  {| source := "(?:confidence|accuracy)\s*(?:>|above|greater than)\s*(\d+(?:\.\d+)?)";
     ignoreCase := true;
     pattern :=
       seqs [Alt (lit "confidence") (lit "accuracy"); star Space;
             alts [lit ">"; lit "above"; lit "greater than"]; star Space;
             Group 1 decimal] |}.

Definition extractFilters (queryText : string) : list QueryFilter :=
  let typeFilters :=
    if JSString.includes queryText "type:" || JSString.includes queryText "category:"
    then
      match exec typeFilterPattern queryText 0 with
      | Some typeMatch =>
          [{| field := "type"; operator := equals;
              filterValue := TextValue (group queryText typeMatch 1) |}]
      | None => []
      end
    else [] in
  let confidenceFilters :=
    if JSString.includes queryText "confidence" || JSString.includes queryText "accuracy"
    then
      match exec confidenceFilterPattern queryText 0 with
      | Some confMatch =>
          [{| field := "confidence"; operator := greater_than;
              filterValue :=
                NumberValue (JSString.parseFloat (group queryText confMatch 1)) |}]
      | None => []
      end
    else [] in
  typeFilters ++ confidenceFilters.

Definition sumConfidence (entities : list ExtractedEntity) : R :=
  fold_left (fun sum e => sum + confidence e) entities 0.

Definition calculateParsingConfidence (intent : QueryIntent)
           (entities : list ExtractedEntity)
           (spatialConstraints : list SpatialConstraint) : R :=
  let confidence0 := 0.5 in
  let confidence1 :=
    if negb (isSearch (intentType intent)) ||
       match subtype intent with Some sub => negb (JSString.isEmpty sub) | None => false end
    then confidence0 + 0.2 else confidence0 in
  let confidence2 := confidence1 + Rmin (INR (List.length entities) * 0.1) 0.3 in
  let confidence3 :=
    confidence2 + Rmin (INR (List.length spatialConstraints) * 0.15) 0.3 in
  let avgEntityConfidence :=
    if Nat.ltb 0 (List.length entities)
    then sumConfidence entities / INR (List.length entities) else 0 in
  let confidence4 := confidence3 + avgEntityConfidence * 0.2 in
  Rmin confidence4 1.0.

Section Parse.
Context {host : Host}.

(** [parseQuery], with the number of clock readings before and after. *)
Definition parseQuery (queryText : string) (reads : nat) : ParsedQuery * nat :=
  let normalizedQuery := JSString.trim (JSString.toLowerCase queryText) in
  let intent := extractIntent normalizedQuery in
  let entities := extractEntities queryText in
  let spatialConstraints := extractSpatialConstraints queryText entities in
  let '(temporalConstraints, reads1) := extractTemporalConstraints normalizedQuery reads in
  let filters := extractFilters normalizedQuery in
  let confidence := calculateParsingConfidence intent entities spatialConstraints in
  ({| intent := intent;
      entities := entities;
      spatialConstraints := spatialConstraints;
      temporalConstraints := temporalConstraints;
      filters := filters;
      parsingConfidence := confidence |},
   reads1).

End Parse.

End Parser.

(** ** [btoa] and [JSON.stringify] *)

Module Encoding.

Definition base64Alphabet : list ascii :=
  list_ascii_of_string
    "ABCDEFGHIJKLMNOPQRSTUVWXYZabcdefghijklmnopqrstuvwxyz0123456789+/".

Definition sextet (n : N) : string :=
  String (nth (N.to_nat (n mod 64)) base64Alphabet "="%char) EmptyString.

Fixpoint base64 (bytes : list N) : string :=
  match bytes with
  | [] => ""
  | [a] =>
      let n := (a * 65536)%N in
      (sextet (n / 262144) ++ sextet (n / 4096) ++ "==")%string
  | [a; b] =>
      let n := (a * 65536 + b * 256)%N in
      (sextet (n / 262144) ++ sextet (n / 4096) ++ sextet (n / 64) ++ "=")%string
  | a :: b :: c :: rest =>
      let n := (a * 65536 + b * 256 + c)%N in
      (sextet (n / 262144) ++ sextet (n / 4096) ++ sextet (n / 64) ++ sextet n ++
       base64 rest)%string
  end.

(** [btoa(s)]; every code unit of a Latin-1 string is a byte, so the call
    does not throw. *)
Definition btoa (s : string) : string :=
  base64 (map N_of_ascii (list_ascii_of_string s)).

Definition hexDigit (n : nat) : ascii :=
  nth (n mod 16) (list_ascii_of_string "0123456789abcdef") "0"%char.

(** The escape of one character inside a JSON string. *)
Definition escapeChar (c : ascii) : string :=
  let n := JSString.code c in
  if Nat.eqb n 34 then String "\"%char (String c EmptyString)
  else if Nat.eqb n 92 then "\\"
  else if Nat.eqb n 8 then "\b"
  else if Nat.eqb n 12 then "\f"
  else if Nat.eqb n 10 then "\n"
  else if Nat.eqb n 13 then "\r"
  else if Nat.eqb n 9 then "\t"
  else if Nat.ltb n 32
  then String "\"%char (String "u"%char (String "0"%char (String "0"%char
         (String (hexDigit (n / 16)) (String (hexDigit n) EmptyString)))))
  else String c EmptyString.

Fixpoint escape (s : string) : string :=
  match s with
  | EmptyString => EmptyString
  | String c rest => (escapeChar c ++ escape rest)%string
  end.

(** [JSON.stringify] of a string, of an array of strings and of a count. *)
Definition quote : string := String (ascii_of_nat 34) EmptyString.

Definition jsonString (s : string) : string := (quote ++ escape s ++ quote)%string.

Definition jsonStrings (xs : list string) : string :=
  ("[" ++ String.concat "," (map jsonString xs) ++ "]")%string.

Definition jsonCount (n : nat) : string := intToString (Z.of_nat n).

End Encoding.

(** ** [lib/query/executor.ts] *)

Module Executor.
Import Query.

Record ResultMetadata : Type := mkMetadata {
  executionTime : R;
  stepsExecuted : nat;
  cacheHit : bool;
  confidence : R
}.

(** [QueryResult]; [data] is [None] for [null]. *)
Record QueryResult (Data : Type) : Type := mkResult {
  success : bool;
  data : option Data;
  metadata : ResultMetadata;
  error : option string
}.
Arguments mkResult {Data}.
Arguments success {Data}.
Arguments data {Data}.
Arguments metadata {Data}.
Arguments error {Data}.

Inductive StepType : Type := spatial_filter | rag_search | analysis | aggregation | join.

Inductive StepParameters : Type :=
| FilterParameters (constraints : list SpatialConstraint)
| SearchParameters (intent : QueryIntent) (entities : list ExtractedEntity)
                   (filters : list QueryFilter)
                   (temporalConstraints : list TemporalConstraint)
| AnalysisParameters (analysisType : string)
| AggregationParameters (groupBy : string).

Record ExecutionStep : Type := mkStep {
  stepId : string;
  stepType : StepType;
  operation : string;
  stepParameters : StepParameters;
  dependencies : list string
}.

Record QueryExecutionPlan : Type := mkPlan {
  steps : list ExecutionStep;
  estimatedCost : nat;
  cacheKey : option string
}.

Definition intentName (t : IntentType) : string :=
  match t with
  | search => "search"
  | compare => "compare"
  | analyze => "analyze"
  | describe => "describe"
  | find_nearby => "find_nearby"
  | route => "route"
  | change_detection => "change_detection"
  end.

(** [texts.sort()]: by code units. *)
Fixpoint insertSorted (x : string) (sorted : list string) : list string :=
  match sorted with
  | [] => [x]
  | y :: rest => if String.ltb x y then x :: sorted else y :: insertSorted x rest
  end.

Definition sortStrings (xs : list string) : list string :=
  fold_left (fun sorted x => insertSorted x sorted) xs [].

Definition generateCacheKey (parsedQuery : ParsedQuery) (originalText : string) : string :=
  let keyData :=
    ("{" ++
     Encoding.jsonString "intent" ++ ":" ++
       Encoding.jsonString (intentName (intentType (intent parsedQuery))) ++ "," ++
     Encoding.jsonString "entities" ++ ":" ++
       Encoding.jsonStrings (sortStrings (map text (entities parsedQuery))) ++ "," ++
     Encoding.jsonString "spatial" ++ ":" ++
       Encoding.jsonCount (List.length (spatialConstraints parsedQuery)) ++ "," ++
     Encoding.jsonString "temporal" ++ ":" ++
       Encoding.jsonCount (List.length (temporalConstraints parsedQuery)) ++ "," ++
     Encoding.jsonString "text" ++ ":" ++
       Encoding.jsonString (JSString.trim (JSString.toLowerCase originalText)) ++
     "}")%string in
  Encoding.btoa keyData.

Definition isAnalysisIntent (t : IntentType) : bool :=
  match t with analyze | compare => true | _ => false end.

Definition createExecutionPlan (parsedQuery : ParsedQuery) : QueryExecutionPlan :=
  let spatial := Nat.ltb 0 (List.length (spatialConstraints parsedQuery)) in
  let step1 :=
    if spatial
    then [{| stepId := "spatial_filter"; stepType := spatial_filter;
             operation := "filter_by_spatial_constraints";
             stepParameters := FilterParameters (spatialConstraints parsedQuery);
             dependencies := [] |}]
    else [] in
  let step2 :=
    [{| stepId := "rag_search"; stepType := rag_search;
        operation := "semantic_search";
        stepParameters :=
          SearchParameters (intent parsedQuery) (entities parsedQuery)
                           (filters parsedQuery) (temporalConstraints parsedQuery);
        dependencies := if spatial then ["spatial_filter"] else [] |}] in
  let step3 :=
    if isAnalysisIntent (intentType (intent parsedQuery))
    then [{| stepId := "analysis"; stepType := analysis;
             operation :=
               match intentType (intent parsedQuery) with
               | compare => "compare_features"
               | _ => "analyze_features"
               end;
             stepParameters :=
               AnalysisParameters
                 match subtype (intent parsedQuery) with
                 | Some sub => if JSString.isEmpty sub then "general" else sub
                 | None => "general"
                 end;
             dependencies := ["rag_search"] |}]
    else [] in
  let step4 :=
    if Parser.isSearch (intentType (intent parsedQuery)) &&
       Nat.ltb 1 (List.length (entities parsedQuery))
    then [{| stepId := "aggregation"; stepType := aggregation;
             operation := "aggregate_results";
             stepParameters := AggregationParameters "type";
             dependencies := ["rag_search"] |}]
    else [] in
  {| steps := step1 ++ step2 ++ step3 ++ step4;
     estimatedCost :=
       (1 + (if spatial then 2 else 0) + 5 +
        (if isAnalysisIntent (intentType (intent parsedQuery)) then 3 else 0) +
        (if Parser.isSearch (intentType (intent parsedQuery)) &&
            Nat.ltb 1 (List.length (entities parsedQuery)) then 1 else 0))%nat;
     cacheKey := Some (generateCacheKey parsedQuery "") |}.

Definition CACHE_TTL : R := 5 * 60 * 1000.

Section Executor.
Context {host : Host}.

(** The payload of a result is opaque to the cache ([data: any]). *)
Variable Data : Type.

(** The spatial index and the retrieval engine, as they are when a query is
    processed. *)
Variable Backend : Type.

(** [executePlan]: running the steps of a plan against the collaborators
    gives a result or throws, and reads the clock some number of times.
    Nothing here depends on what the steps compute. *)
Variable executePlan :
  QueryExecutionPlan -> ParsedQuery -> string -> Backend -> nat ->
  Result (QueryResult Data) * nat.

Record QueryExecutor : Type := mkExecutor {
  queryCache : JSMap.t (QueryResult Data * R)
}.

(** [new QueryExecutor(ragEngine, spatialIndex)]. *)
Definition create : QueryExecutor := {| queryCache := JSMap.empty |}.

(** The clock is read only when the key is cached. *)
Definition checkCache (executor : QueryExecutor) (key : string) (reads : nat)
  : option (QueryResult Data) * nat :=
  match JSMap.get (queryCache executor) key with
  | Some (result, timestamp) =>
      if ltb (Date_now reads - timestamp) CACHE_TTL then (Some result, S reads)
      else (None, S reads)
  | None => (None, reads)
  end.

Definition cacheResult (executor : QueryExecutor) (key : string)
           (result : QueryResult Data) (reads : nat) : QueryExecutor * nat :=
  let cache1 := JSMap.set (queryCache executor) key (result, Date_now reads) in
  let cache2 :=
    if Nat.ltb 100 (JSMap.size cache1) then
      match JSMap.keys cache1 with
      | oldestKey :: _ => JSMap.delete cache1 oldestKey
      | [] => cache1
      end
    else cache1 in
  ({| queryCache := cache2 |}, S reads).

Definition withTiming (result : QueryResult Data) (time : R) (hit : bool)
  : QueryResult Data :=
  {| success := success result;
     data := data result;
     metadata :=
       {| executionTime := time;
          stepsExecuted := stepsExecuted (metadata result);
          cacheHit := hit;
          confidence := confidence (metadata result) |};
     error := error result |}.

Definition failed (time : R) (conf : R) (message : string) : QueryResult Data :=
  {| success := false;
     data := None;
     metadata :=
       {| executionTime := time; stepsExecuted := 0; cacheHit := false;
          confidence := conf |};
     error := Some message |}.

Definition executeQuery (executor : QueryExecutor) (backend : Backend)
           (parsedQuery : ParsedQuery) (originalText : string) (reads : nat)
  : QueryResult Data * QueryExecutor * nat :=
  let startTime := Date_now reads in
  let key := generateCacheKey parsedQuery originalText in
  let '(cached, reads1) := checkCache executor key (S reads) in
  match cached with
  | Some result =>
      (withTiming result (executionTime (metadata result)) true, executor, reads1)
  | None =>
      let executionPlan := createExecutionPlan parsedQuery in
      let '(outcome, reads2) :=
        executePlan executionPlan parsedQuery originalText backend reads1 in
      match outcome with
      | Ok result =>
          let '(executor1, reads3) := cacheResult executor key result reads2 in
          (withTiming result (Date_now reads3 - startTime) false, executor1, S reads3)
      | Throw message =>
          (failed (Date_now reads2 - startTime) 0 message, executor, S reads2)
      end
  end.

End Executor.

End Executor.

(** ** [lib/query/query-engine.ts] *)

Module QueryEngine.
Import Query Executor.

Record QueryEngineOptions : Type := mkOptions {
  enableCaching : bool;
  maxCacheSize : nat;
  defaultSpatialRadius : R;
  confidenceThreshold : R
}.

Definition defaultOptions : QueryEngineOptions :=
  {| enableCaching := true; maxCacheSize := 100; defaultSpatialRadius := 50;
     confidenceThreshold := 0.5 |}.

Section Engine.
Context {host : Host}.
Variable Data : Type.
Variable Backend : Type.
Variable executePlan :
  QueryExecutionPlan -> ParsedQuery -> string -> Backend -> nat ->
  Result (QueryResult Data) * nat.

Record GeographicQueryEngine : Type := mkEngine {
  executor : QueryExecutor Data;
  options : QueryEngineOptions
}.

(** [new GeographicQueryEngine(ragEngine, spatialIndex, options)], the
    defaults already merged into [options]. *)
Definition create (opts : QueryEngineOptions) : GeographicQueryEngine :=
  {| executor := Executor.create Data; options := opts |}.

Definition belowThreshold (engine : GeographicQueryEngine) (parsedQuery : ParsedQuery)
  : bool :=
  ltb (parsingConfidence parsedQuery) (confidenceThreshold (options engine)).

Definition rejection (parsedQuery : ParsedQuery) : QueryResult Data :=
  failed Data 0 (parsingConfidence parsedQuery)
    ("Query parsing confidence (" ++
     Number_toFixed (parsingConfidence parsedQuery) 2 ++
     ") is below threshold. Please rephrase your query.")%string.

Definition processQuery (engine : GeographicQueryEngine) (backend : Backend)
           (queryText : string) (reads : nat)
  : QueryResult Data * GeographicQueryEngine * nat :=
  let '(parsedQuery, reads1) := Parser.parseQuery queryText reads in
  if belowThreshold engine parsedQuery then (rejection parsedQuery, engine, reads1)
  else
    let '(result, executor1, reads2) :=
      executeQuery executePlan (executor engine) backend parsedQuery queryText reads1 in
    (result, {| executor := executor1; options := options engine |}, reads2).

End Engine.

End QueryEngine.

(** ** Concrete data used by the examples *)

Module Scenarios.

(** Two versions of one feature: the id is kept, the point moves. *)
Definition siteBefore : GeographicFeature :=
  {| id := "site"; name := "Site"; properties := [];
     geometry := Point {| latitude := 0; longitude := 0 |} |}.

Definition siteAfter : GeographicFeature :=
  {| id := "site"; name := "Site"; properties := [];
     geometry := Point {| latitude := 1; longitude := 1 |} |}.

(** Two points on the equator, on either side of the antimeridian: they
    name the same place on the globe. *)
Definition dateLineEast : Coordinates := {| latitude := 0; longitude := 180 |}.
Definition dateLineWest : Coordinates := {| latitude := 0; longitude := -180 |}.


(** Two points on the 60th parallel, half a turn apart: the shortest way
    from one to the other goes over the pole. *)
Definition hudsonBay : Coordinates := {| latitude := 60; longitude := -90 |}.
Definition siberia : Coordinates := {| latitude := 60; longitude := 90 |}.

Definition camp : GeographicFeature :=
  {| id := "camp"; name := "Camp"; properties := [];
     geometry := Point siberia |}.

Definition sanFrancisco : Coordinates :=
  {| latitude := 37.7749; longitude := -122.4194 |}.

Definition citySF : GeographicFeature :=
  {| id := "city-sf"; name := "San Francisco"; properties := [];
     geometry := Point sanFrancisco |}.

(** A host whose clock stands still. *)
Definition plainHost : Host :=
  {| Date_parse := fun _ => None;
     Date_now := fun _ => 0;
     Date_addDays := fun d _ => d;
     Date_addMonths := fun d _ => d;
     Date_addYears := fun d _ => d;
     Date_isoDay := fun _ => "1970-01-01";
     Number_toFixed := fun _ _ => "0.00" |}.

Definition depotMetadata : Doc.Metadata :=
  {| Doc.type := Doc.feature;
     Doc.location := Some {| latitude := 0; longitude := 0 |};
     Doc.bounds := None; Doc.timestamp := "2024-01-15"; Doc.source := "survey";
     Doc.tags := []; Doc.confidence := None |}.

(** A located document that comes with an embedding of its own. *)
Definition depot : Doc.GeographicDocument :=
  {| Doc.id := "depot"; Doc.content := "Depot"; Doc.metadata := depotMetadata;
     Doc.embedding := Some [1; 0]; Doc.spatialContext := None |}.



Definition plainQuery : Doc.RAGQuery :=
  {| Doc.text := "harbours"; Doc.queryLocation := None; Doc.radius := None;
     Doc.filters := None; Doc.spatialWeight := None |}.

(** The query of the parsing scenario. *)
Definition nationalParks : string := "Find national parks within 50km of Los Angeles".

(** The entities of that query. *)
Definition parksEntity : Query.ExtractedEntity :=
  {| Query.text := "parks"; Query.value := Query.FeatureNoun "park"; Query.confidence := 0.9;
     Query.positionStart := 14; Query.positionEnd := 19 |}.

Definition distanceEntity : Query.ExtractedEntity :=
  {| Query.text := "50km"; Query.value := Query.Distance 50 Query.km; Query.confidence := 0.95;
     Query.positionStart := 27; Query.positionEnd := 31 |}.

Definition withinEntity : Query.ExtractedEntity :=
  {| Query.text := "within 50km"; Query.value := Query.Distance 50 Query.km; Query.confidence := 0.95;
     Query.positionStart := 20; Query.positionEnd := 31 |}.

(** A stand-in for the collaborators: a plan always succeeds with the
    payload ["answer"]. *)
Definition answering
           (plan : Executor.QueryExecutionPlan) (parsedQuery : Query.ParsedQuery)
           (originalText : string) (backend : unit) (reads : nat)
  : Result (Executor.QueryResult string) * nat :=
  (Ok {| Executor.success := true;
         Executor.data := Some "answer";
         Executor.metadata :=
           {| Executor.executionTime := 0; Executor.stepsExecuted := 1;
              Executor.cacheHit := false; Executor.confidence := 1 |};
         Executor.error := None |},
   reads).

(** Engine options with a confidence threshold above the base confidence. *)
Definition strictOptions : QueryEngine.QueryEngineOptions :=
  {| QueryEngine.enableCaching := true; QueryEngine.maxCacheSize := 100;
     QueryEngine.defaultSpatialRadius := 50;
     QueryEngine.confidenceThreshold := 0.6 |}.

End Scenarios.

(** ** [lib/spatial/utils.ts], continued *)

Module Boxes.


Definition boundingBoxesIntersect (box1 box2 : BoundingBox) : bool :=
  negb (ltb (east box1) (west box2) || ltb (east box2) (west box1) ||
        ltb (north box1) (south box2) || ltb (north box2) (south box1)).

(** A box whose sides are in order. *)
Definition ordered (b : BoundingBox) : Prop :=
  south b <= north b /\ west b <= east b.

(** The coordinates that [getFeatureBounds] visits. *)
Definition coordinatesOf (g : Geometry) : list Coordinates :=
  match g with
  | Point c => [c]
  | LineString cs => cs
  | Polygon rings => List.concat rings
  end.

(** A box that is the least one around the coordinates [cs]: it holds each
    of them, and each of its sides passes through one of them. *)
Definition tightAround (cs : list Coordinates) (b : BoundingBox) : Prop :=
  (forall c, In c cs -> SpatialUtils.isPointInBounds c b = true) /\
  (exists c, In c cs /\ latitude c = north b) /\
  (exists c, In c cs /\ latitude c = south b) /\
  (exists c, In c cs /\ longitude c = east b) /\
  (exists c, In c cs /\ longitude c = west b).

End Boxes.

(** ** Ranking: notions used to state what [search] returns *)

Module Ranking.



End Ranking.

(** ** [lib/query/executor.ts], continued: running a plan *)

Module Plan.
Import Query Executor.

(** The properties that the object literal of [executePlan] inherits: a
    lookup of one of these names does not give [undefined].  A step whose
    id is [__proto__] is outside the model, since assigning to that name
    replaces the prototype. *)
Definition inherited : list string :=
  [ "constructor"; "hasOwnProperty"; "isPrototypeOf"; "propertyIsEnumerable";
    "toLocaleString"; "toString"; "valueOf"; "__proto__"; "__defineGetter__";
    "__defineSetter__"; "__lookupGetter__"; "__lookupSetter__" ].

Section Steps.

(** The result of a step ([any]); it is never [undefined]. *)
Variable Output : Type.

(** [executeStep], applied to its step and to the results so far; the query
    and its text are fixed. *)
Variable executeStep : ExecutionStep -> JSMap.t Output -> Result Output.

(** [step.dependencies.every((dep) => executedSteps[dep] !== undefined)]. *)
Definition dependenciesMet (step : ExecutionStep) (executedSteps : JSMap.t Output)
  : bool :=
  forallb
    (fun dep => JSMap.has executedSteps dep || existsb (String.eqb dep) inherited)
    (dependencies step).

(** The loop of [executePlan]: the recorded results and their number. *)
Fixpoint runSteps (steps : list ExecutionStep) (executedSteps : JSMap.t Output)
         (stepsExecuted : nat) : Result (JSMap.t Output * nat) :=
  match steps with
  | [] => Ok (executedSteps, stepsExecuted)
  | step :: rest =>
      if negb (dependenciesMet step executedSteps) then
        Throw ("Dependencies not met for step " ++ stepId step)%string
      else
        bind (executeStep step executedSteps) (fun stepResult =>
        runSteps rest (JSMap.set executedSteps (stepId step) stepResult)
                 (S stepsExecuted))
  end.

End Steps.

(** The weight that [createExecutionPlan] adds to the estimated cost for a
    step of each type. *)
Definition stepCost (t : StepType) : nat :=
  match t with
  | spatial_filter => 2
  | rag_search => 5
  | analysis => 3
  | aggregation => 1
  | join => 0
  end.

(** Steps in which every dependency is the id of a step that comes
    earlier, [earlier] being the ids before the first of them. *)
Fixpoint inOrder (earlier : list string) (steps : list ExecutionStep) : bool :=
  match steps with
  | [] => true
  | step :: rest =>
      forallb (fun dep => existsb (String.eqb dep) earlier) (dependencies step) &&
      inOrder (stepId step :: earlier) rest
  end.

End Plan.

(** ** [lib/query/executor.ts], continued: analysis and aggregation *)

Module Analysis.
Import Doc.

Inductive Similarity : Type :=
| ConfidenceAspect (feature1 feature2 difference : R).

Inductive Difference : Type :=
| TypeAspect (feature1 feature2 : string) (same : bool)
| DistanceAspect (value : R) (unit : string).

Record Comparison : Type := mkComparison {
  featuresCompared : nat;
  similarities : list Similarity;
  differences : list Difference
}.

Record SpatialDistribution : Type := mkDistribution {
  center : Coordinates;
  latRange : R;
  lonRange : R
}.

Record FeatureAnalysis : Type := mkAnalysis {
  totalFeatures : nat;
  avgConfidence : R;
  featureTypes : JSMap.t nat;
  spatialDistribution : option SpatialDistribution
}.

(** What the analysis step returns: [{analysis: "..."}], [{analysis}],
    [{comparison: "..."}] or [{comparison}]. *)
Inductive AnalysisOutput : Type :=
| AnalysisMessage (analysis : string)
| AnalysisOf (analysis : FeatureAnalysis)
| ComparisonMessage (comparison : string)
| ComparisonOf (comparison : Comparison).

(** [xs.reduce((sum, x) => sum + x, 0)]. *)
Definition sumOf (xs : list R) : R := fold_left Rplus xs 0.

(** [Math.max(...xs)] and [Math.min(...xs)] of the list [x :: xs]. *)
Definition maxOf (x : R) (xs : list R) : R := fold_left Rmax xs x.
Definition minOf (x : R) (xs : list R) : R := fold_left Rmin xs x.

(** [featureTypes[type] = (featureTypes[type] || 0) + 1]. *)
Definition countType (featureTypes : JSMap.t nat) (source : VectorSearchResult)
  : JSMap.t nat :=
  let type := typeName (type (metadata (document source))) in
  JSMap.set featureTypes type
    ((match JSMap.get featureTypes type with Some n => n | None => 0 end) + 1)%nat.

(** The locations of the sources that have one. *)
Definition locations (sources : list VectorSearchResult) : list Coordinates :=
  flat_map
    (fun s =>
       match location (metadata (document s)) with
       | Some loc => [loc]
       | None => []
       end)
    sources.

Definition analyzeFeatures (sources : list VectorSearchResult) (analysisType : string)
  : AnalysisOutput :=
  match sources with
  | [] => AnalysisMessage "No features found for analysis"
  | _ :: _ =>
      let lats := map latitude (locations sources) in
      let lons := map longitude (locations sources) in
      AnalysisOf
        {| totalFeatures := List.length sources;
           avgConfidence := sumOf (map combinedScore sources) / INR (List.length sources);
           featureTypes := fold_left countType sources JSMap.empty;
           spatialDistribution :=
             match lats, lons with
             | lat :: lats', lon :: lons' =>
                 Some {| center :=
                           {| latitude := sumOf lats / INR (List.length lats);
                              longitude := sumOf lons / INR (List.length lons) |};
                         latRange := maxOf lat lats' - minOf lat lats';
                         lonRange := maxOf lon lons' - minOf lon lons' |}
             | _, _ => None
             end |}
  end.

Definition compareFeatures (sources : list VectorSearchResult) (analysisType : string)
  : AnalysisOutput :=
  match sources with
  | feature1 :: feature2 :: _ =>
      let type1 := typeName (type (metadata (document feature1))) in
      let type2 := typeName (type (metadata (document feature2))) in
      ComparisonOf
        {| featuresCompared := List.length sources;
           similarities :=
             [ConfidenceAspect (combinedScore feature1) (combinedScore feature2)
                               (Rabs (combinedScore feature1 - combinedScore feature2))];
           differences :=
             TypeAspect type1 type2 (String.eqb type1 type2) ::
             match location (metadata (document feature1)),
                   location (metadata (document feature2)) with
             | Some location1, Some location2 =>
                 [DistanceAspect (SpatialUtils.calculateDistance location1 location2) "km"]
             | _, _ => []
             end |}
  | _ => ComparisonMessage "Need at least 2 features for comparison"
  end.

(** [step.parameters.analysisType]. *)
Definition analysisTypeOf (step : Executor.ExecutionStep) : string :=
  match Executor.stepParameters step with
  | Executor.AnalysisParameters analysisType => analysisType
  | _ => ""
  end.

(** [executeAnalysis]; [ragSources] is [None] when the search step left no
    response. *)
Definition executeAnalysis (step : Executor.ExecutionStep)
           (ragSources : option (list VectorSearchResult)) : AnalysisOutput :=
  match ragSources with
  | None => AnalysisMessage "No data available for analysis"
  | Some sources =>
      if String.eqb (Executor.operation step) "analyze_features"
      then analyzeFeatures sources (analysisTypeOf step)
      else if String.eqb (Executor.operation step) "compare_features"
      then compareFeatures sources (analysisTypeOf step)
      else AnalysisMessage "Analysis type not supported"
  end.

Record Group : Type := mkGroup {
  category : string;
  count : nat;
  groupConfidence : R;
  items : list VectorSearchResult
}.











(** [calculateResultConfidence], applied to what it reads of the final
    result: its sources (none when there is no search result), whether an
    analysis is attached, and the query location of its spatial context. *)
Definition calculateResultConfidence (sources : list VectorSearchResult)
           (hasAnalysis : bool) (queryLocation : option Coordinates)
           (parsedQuery : Query.ParsedQuery) : R :=
  let confidence0 := Query.parsingConfidence parsedQuery * 0.3 in
  let confidence1 :=
    match sources with
    | [] => confidence0
    | _ :: _ =>
        confidence0 +
        sumOf (map combinedScore sources) / INR (List.length sources) * 0.5
    end in
  let confidence2 := if hasAnalysis then confidence1 + 0.1 else confidence1 in
  let confidence3 :=
    match queryLocation with
    | Some _ => confidence2 + 0.1
    | None => confidence2
    end in
  Rmin confidence3 1.0.

End Analysis.

(** ** [lib/query/query-engine.ts], continued *)

Module Validation.

(** The expression of [validateQuery]: one ASCII letter. *)
Definition letterPattern : Regex.RegExp :=
  {| Regex.source := "[a-zA-Z]"; Regex.ignoreCase := false;
     Regex.pattern := Regex.Char (Regex.Union Regex.lower Regex.upper) |}.

(** [re.test(text)] for an expression without the flag [g]. *)
Definition test (re : Regex.RegExp) (text : string) : bool :=
  match Regex.exec re text 0 with Some _ => true | None => false end.

(** [validateQuery]: the issues, in the order of the checks; the query is
    valid when there is none. *)
Definition issues (queryText : string) : list string :=
  (if JSString.isEmpty queryText ||
      Nat.eqb (String.length (JSString.trim queryText)) 0
   then ["Query cannot be empty"] else []) ++
  (if Nat.ltb 500 (String.length queryText)
   then ["Query is too long (max 500 characters)"] else []) ++
  (if Nat.ltb (String.length queryText) 3
   then ["Query is too short (min 3 characters)"] else []) ++
  (if negb (test letterPattern queryText)
   then ["Query must contain at least some text"] else []).

Definition validateQuery (queryText : string) : bool * list string :=
  (Nat.eqb (List.length (issues queryText)) 0, issues queryText).

Definition suggestionPatterns : list string :=
  [ "Find cities near {location}";
    "What is the vegetation in {location}?";
    "Show satellite analysis of {location}";
    "Compare {location1} and {location2}";
    "Find water bodies within {distance} of {location}";
    "Analyze land use changes in {location}";
    "What are the geographic features of {location}?";
    "Find mountains higher than {elevation} meters";
    "Show urban areas in {region}";
    "What is the climate like in {location}?" ].

Definition getSuggestions (partialQuery : string) : list string :=
  let lowerPartial := JSString.toLowerCase partialQuery in
  let suggestions :=
    filter
      (fun pattern =>
         JSString.includes (JSString.toLowerCase pattern) lowerPartial ||
         Nat.ltb (String.length lowerPartial) 3)
      suggestionPatterns in
  firstn 5 suggestions.

End Validation.

(** ** A client of the query engine *)

Module Session.
Import Query Executor QueryEngine.

Section Calls.
Context {host : Host}.
Variable Data : Type.
Variable Backend : Type.
Variable executePlan :
  QueryExecutionPlan -> ParsedQuery -> string -> Backend -> nat ->
  Result (QueryResult Data) * nat.

(** The engine and the clock after a sequence of calls of [processQuery],
    each with the state of the collaborators at the time. *)
Definition processAll (engine : GeographicQueryEngine Data)
           (calls : list (Backend * string)) (reads : nat)
  : GeographicQueryEngine Data * nat :=
  fold_left
    (fun state call =>
       let '(_, engine1, reads1) :=
         processQuery executePlan (fst state) (fst call) (snd call) (snd state) in
       (engine1, reads1))
    calls (engine, reads).

End Calls.

End Session.

(** ** Lists of keys *)

Module Keys.

(** No key occurs twice, as it is in every [Map]. *)
Fixpoint distinct (keys : list string) : bool :=
  match keys with
  | [] => true
  | key :: rest => negb (existsb (String.eqb key) rest) && distinct rest
  end.

End Keys.

(** ** More data for the examples *)

Module Examples.

Definition unitBox : BoundingBox := {| north := 1; south := -1; east := 1; west := -1 |}.


(** Two scored sources with a location. *)
Definition sourceAt (name : string) (loc : Coordinates) (score : R)
  : Doc.VectorSearchResult :=
  {| Doc.document :=
       {| Doc.id := name; Doc.content := name;
          Doc.metadata :=
            {| Doc.type := Doc.feature; Doc.location := Some loc; Doc.bounds := None;
               Doc.timestamp := "2024-02-01"; Doc.source := "survey"; Doc.tags := [];
               Doc.confidence := None |};
          Doc.embedding := None; Doc.spatialContext := None |};
     Doc.similarity := score; Doc.spatialRelevance := score;
     Doc.combinedScore := score |}.



(** The result that [Scenarios.answering] gives, and an older one. *)
Definition answerResult : Executor.QueryResult string :=
  {| Executor.success := true;
     Executor.data := Some "answer";
     Executor.metadata :=
       {| Executor.executionTime := 0; Executor.stepsExecuted := 1;
          Executor.cacheHit := false; Executor.confidence := 1 |};
     Executor.error := None |}.

Definition staleResult : Executor.QueryResult string :=
  {| Executor.success := true;
     Executor.data := Some "stale";
     Executor.metadata :=
       {| Executor.executionTime := 0; Executor.stepsExecuted := 1;
          Executor.cacheHit := false; Executor.confidence := 1 |};
     Executor.error := None |}.

(** A cache that is full: a hundred entries under the keys ["0"] to
    ["99"]. *)
Definition fullCache : JSMap.t (Executor.QueryResult string * R) :=
  map (fun n => (intToString (Z.of_nat n), (answerResult, 0))) (seq 0 100).

End Examples.

(* ================================================================== *)
(** * Part II: properties *)
(* ================================================================== *)

(** ** Maps, sets and ranges *)

Section Containers.
Context {V : Type}.
Implicit Types (m : JSMap.t V) (k : string) (v : V).

Lemma get_set_same m k v : JSMap.get (JSMap.set m k v) k = Some v.
Proof.
  induction m as [|[k' v'] m IH]; simpl.
  - now rewrite String.eqb_refl.
  - destruct (String.eqb k k') eqn:E; simpl; rewrite E; auto.
Qed.

Lemma get_set_other m k k' v :
  k' <> k -> JSMap.get (JSMap.set m k v) k' = JSMap.get m k'.
Proof.
  intros Hne. induction m as [|[k0 v0] m IH]; simpl.
  - destruct (String.eqb k' k) eqn:E; auto.
    apply String.eqb_eq in E. contradiction.
  - destruct (String.eqb k k0) eqn:E; simpl.
    + apply String.eqb_eq in E. subst k0.
      destruct (String.eqb k' k) eqn:E'; auto.
      apply String.eqb_eq in E'. contradiction.
    + now rewrite IH.
Qed.

Lemma get_delete_same m k : JSMap.get (JSMap.delete m k) k = None.
Proof.
  induction m as [|[k0 v0] m IH]; simpl; auto.
  destruct (String.eqb k k0) eqn:E; simpl; auto.
  now rewrite E.
Qed.

Lemma get_delete_other m k k' :
  k' <> k -> JSMap.get (JSMap.delete m k) k' = JSMap.get m k'.
Proof.
  intros Hne. induction m as [|[k0 v0] m IH]; simpl; auto.
  destruct (String.eqb k k0) eqn:E; simpl.
  - apply String.eqb_eq in E. subst k0.
    destruct (String.eqb k' k) eqn:E'; auto.
    apply String.eqb_eq in E'. contradiction.
  - now rewrite IH.
Qed.

Lemma size_set_le m k v : (JSMap.size (JSMap.set m k v) <= S (JSMap.size m))%nat.
Proof.
  unfold JSMap.size.
  induction m as [|[k0 v0] m IH]; simpl; auto.
  destruct (String.eqb k k0); simpl; lia.
Qed.

Lemma size_set_has m k v :
  JSMap.has m k = true -> JSMap.size (JSMap.set m k v) = JSMap.size m.
Proof.
  unfold JSMap.size, JSMap.has.
  induction m as [|[k0 v0] m IH]; simpl; [discriminate|].
  destruct (String.eqb k k0); simpl; auto.
Qed.

End Containers.

Lemma set_has_iff (s : JSSet.t) (x : string) : JSSet.has s x = true <-> In x s.
Proof.
  unfold JSSet.has. rewrite existsb_exists. split.
  - intros [y [Hy E]]. apply String.eqb_eq in E. now subst.
  - intros H. exists x. split; auto. apply String.eqb_refl.
Qed.

Lemma In_set_add (s : JSSet.t) (x y : string) :
  In y (JSSet.add s x) <-> In y s \/ y = x.
Proof.
  unfold JSSet.add. destruct (JSSet.has s x) eqn:E.
  - apply set_has_iff in E. split; [auto|]. intros [H|H]; subst; auto.
  - rewrite in_app_iff. simpl. intuition.
Qed.

Lemma In_set_addAll (xs : list string) (s : JSSet.t) (y : string) :
  In y (JSSet.addAll s xs) <-> In y s \/ In y xs.
Proof.
  unfold JSSet.addAll. revert s.
  induction xs as [|x xs IH]; intros s; simpl.
  - intuition.
  - rewrite IH, In_set_add. intuition.
Qed.

Lemma In_set_delete (s : JSSet.t) (x y : string) :
  In y (JSSet.delete s x) <-> In y s /\ y <> x.
Proof.
  unfold JSSet.delete. rewrite filter_In, negb_true_iff, String.eqb_neq.
  intuition.
Qed.

Lemma In_range (lo hi z : Z) : In z (range lo hi) <-> (lo <= z <= hi)%Z.
Proof.
  unfold range. rewrite in_map_iff. split.
  - intros [i [<- Hi]]. apply in_seq in Hi. lia.
  - intros H. exists (Z.to_nat (z - lo)). split; [lia|].
    apply in_seq. lia.
Qed.

(** ** Numbers *)

Lemma leb_le (x y : R) : leb x y = true <-> x <= y.
Proof. unfold leb. destruct (Rle_dec x y); intuition discriminate. Qed.

Lemma ltb_lt (x y : R) : ltb x y = true <-> x < y.
Proof. unfold ltb. destruct (Rlt_dec x y); intuition discriminate. Qed.

Lemma ltb_ge (x y : R) : ltb x y = false <-> y <= x.
Proof. unfold ltb. destruct (Rlt_dec x y); split; intros; try lra; auto; discriminate. Qed.

Lemma floor_eq (z : Z) (x : R) : IZR z <= x < IZR z + 1 -> floor x = z.
Proof. apply Zfloor_eq. Qed.

Lemma floor_le_floor (x y : R) : x <= y -> (floor x <= floor y)%Z.
Proof. apply Zfloor_le. Qed.

Lemma floor_le_ceil (x y : R) : x <= y -> (floor x <= ceil y)%Z.
Proof.
  intros H. unfold floor, ceil. apply le_IZR.
  pose proof (Zfloor_bound x). pose proof (Zceil_bound y). lra.
Qed.

(** ** The spatial index *)

Module SpatialIndexProps.
Import SpatialUtils SpatialIndex.

Lemma addToCell_here i grid key : member (addToCell i grid key) key i.
Proof.
  unfold addToCell, member, JSMap.has.
  destruct (JSMap.get grid key) as [cell|] eqn:E; simpl.
  - rewrite E. exists (JSSet.add cell i). rewrite get_set_same.
    split; auto. apply In_set_add. auto.
  - rewrite get_set_same. exists (JSSet.add JSSet.empty i).
    rewrite get_set_same. split; auto. apply In_set_add. auto.
Qed.

Lemma addToCell_mono i grid key k j :
  member grid k j -> member (addToCell i grid key) k j.
Proof.
  intros [cell [Hget Hin]]. unfold addToCell, member, JSMap.has.
  destruct (String.eqb_spec k key) as [->|Hne].
  - rewrite Hget. simpl. rewrite Hget.
    exists (JSSet.add cell i). rewrite get_set_same.
    split; auto. apply In_set_add. auto.
  - destruct (JSMap.get grid key) as [c|] eqn:E; simpl.
    + rewrite E. exists cell. now rewrite get_set_other.
    + rewrite get_set_same. exists cell.
      now rewrite !get_set_other.
Qed.

Lemma addToCells_mono i keys grid k j :
  member grid k j -> member (fold_left (addToCell i) keys grid) k j.
Proof.
  revert grid. induction keys as [|key keys IH]; intros grid H; simpl; auto.
  apply IH. now apply addToCell_mono.
Qed.

Lemma addToCells_here i keys grid key :
  In key keys -> member (fold_left (addToCell i) keys grid) key i.
Proof.
  revert grid. induction keys as [|k keys IH]; intros grid H; simpl.
  - contradiction.
  - destruct H as [->|H].
    + apply addToCells_mono. apply addToCell_here.
    + now apply IH.
Qed.

Lemma removeFromCell_keeps i grid key k j :
  j <> i -> member grid k j -> member (removeFromCell i grid key) k j.
Proof.
  intros Hne [cell [Hget Hin]]. unfold removeFromCell, member.
  destruct (JSMap.get grid key) as [c|] eqn:E; [|eauto].
  destruct (String.eqb_spec k key) as [->|Hk].
  - assert (c = cell) by congruence. subst c.
    assert (Hin' : In j (JSSet.delete cell i)) by (apply In_set_delete; auto).
    destruct (Nat.eqb_spec (JSSet.size (JSSet.delete cell i)) 0) as [Hz|Hz].
    + unfold JSSet.size in Hz. apply length_zero_iff_nil in Hz.
      rewrite Hz in Hin'. contradiction.
    + exists (JSSet.delete cell i). now rewrite get_set_same.
  - destruct (Nat.eqb (JSSet.size (JSSet.delete c i)) 0).
    + exists cell. now rewrite get_delete_other.
    + exists cell. now rewrite get_set_other.
Qed.

Lemma removeFromCells_keeps i keys grid k j :
  j <> i -> member grid k j ->
  member (fold_left (removeFromCell i) keys grid) k j.
Proof.
  intros Hne. revert grid.
  induction keys as [|key keys IH]; intros grid H; simpl; auto.
  apply IH. now apply removeFromCell_keeps.
Qed.

Lemma remove_stored i idx f :
  JSMap.get (features idx) i = Some f ->
  remove i idx =
    (true,
     {| features := JSMap.delete (features idx) i;
        spatialGrid := fold_left (removeFromCell i) (getGridKeys f) (spatialGrid idx) |}).
Proof. intros H. unfold remove. now rewrite H. Qed.

Lemma registered_empty : registered empty.
Proof. intros i f H. discriminate. Qed.

Lemma registered_insert f idx : registered idx -> registered (insert f idx).
Proof.
  intros Hreg i g Hget. unfold insert in *. simpl in *.
  destruct (String.eqb_spec i (id f)) as [->|Hne].
  - rewrite get_set_same in Hget. injection Hget as <-.
    split; auto. intros key Hkey. now apply addToCells_here.
  - rewrite get_set_other in Hget by assumption.
    destruct (Hreg i g Hget) as [Hid Hkeys].
    split; auto. intros key Hkey. apply addToCells_mono. auto.
Qed.

Lemma registered_remove i idx : registered idx -> registered (snd (remove i idx)).
Proof.
  intros Hreg j g Hget. unfold remove in *.
  destruct (JSMap.get (features idx) i) as [f|] eqn:E; simpl in *.
  - destruct (String.eqb_spec j i) as [->|Hne].
    + now rewrite get_delete_same in Hget.
    + rewrite get_delete_other in Hget by assumption.
      destruct (Hreg j g Hget) as [Hid Hkeys].
      split; auto. intros key Hkey. apply removeFromCells_keeps; auto.
  - now apply Hreg.
Qed.

Lemma registered_run_from ops idx :
  registered idx -> registered (fold_left apply ops idx).
Proof.
  revert idx. induction ops as [|op ops IH]; intros idx H; simpl; auto.
  apply IH. destruct op; simpl.
  - now apply registered_insert.
  - now apply registered_remove.
  - apply registered_empty.
Qed.

Lemma registered_run ops : registered (run ops).
Proof. apply registered_run_from, registered_empty. Qed.

Lemma scanCell_mono idx x ys acc i :
  In i acc -> In i (fold_left (scanCell idx x) ys acc).
Proof.
  revert acc. induction ys as [|y ys IH]; intros acc H; simpl; auto.
  apply IH. unfold scanCell.
  destruct (JSMap.get (spatialGrid idx) (gridKey x y)); auto.
  apply In_set_addAll. auto.
Qed.

Lemma scanCell_hit idx x y ys acc i :
  In y ys -> member (spatialGrid idx) (gridKey x y) i ->
  In i (fold_left (scanCell idx x) ys acc).
Proof.
  intros Hy [cell [Hget Hin]]. revert acc.
  induction ys as [|y0 ys IH]; intros acc; simpl; [contradiction|].
  destruct Hy as [->|Hy]; [|now apply IH].
  apply scanCell_mono. unfold scanCell. rewrite Hget.
  apply In_set_addAll. auto.
Qed.

Lemma scanColumns_mono idx ys xs acc i :
  In i acc ->
  In i (fold_left (fun acc x => fold_left (scanCell idx x) ys acc) xs acc).
Proof.
  revert acc. induction xs as [|x xs IH]; intros acc H; simpl; auto.
  apply IH. now apply scanCell_mono.
Qed.

(** The ids gathered by [query] are those of the scanned buckets. *)
Lemma candidateIds_complete idx bounds x y i :
  (floor (west bounds / gridSize) <= x <= ceil (east bounds / gridSize))%Z ->
  (floor (south bounds / gridSize) <= y <= ceil (north bounds / gridSize))%Z ->
  member (spatialGrid idx) (gridKey x y) i ->
  In i (candidateIds idx bounds).
Proof.
  intros Hx Hy Hm. unfold candidateIds.
  apply In_range in Hx. apply In_range in Hy.
  generalize JSSet.empty.
  induction (range _ (ceil (east bounds / gridSize))) as [|x0 xs IH];
    intros acc; simpl; [contradiction|].
  destruct Hx as [->|Hx]; [|now apply IH].
  apply scanColumns_mono. now apply scanCell_hit with (y := y).
Qed.

Lemma query_sound idx bounds f :
  In f (query idx bounds) ->
  featureIntersectsBounds f bounds = true /\
  exists i, JSMap.get (features idx) i = Some f.
Proof.
  unfold query. rewrite in_flat_map. intros [i [_ H]].
  destruct (JSMap.get (features idx) i) as [g|] eqn:E; [|contradiction].
  destruct (featureIntersectsBounds g bounds) eqn:B; [|contradiction].
  destruct H as [->|[]]. eauto.
Qed.

Lemma query_complete idx bounds i f :
  JSMap.get (features idx) i = Some f ->
  In i (candidateIds idx bounds) ->
  featureIntersectsBounds f bounds = true ->
  In f (query idx bounds).
Proof.
  intros Hget Hcand Hint. unfold query. apply in_flat_map.
  exists i. split; auto. rewrite Hget, Hint. now left.
Qed.

Lemma gridSize_pos : 0 < gridSize.
Proof. unfold gridSize. lra. Qed.

Lemma div_gridSize_le x y : x <= y -> x / gridSize <= y / gridSize.
Proof.
  intros H. unfold Rdiv. apply Rmult_le_compat_r; auto.
  left. apply Rinv_0_lt_compat, gridSize_pos.
Qed.

Lemma isPointInBounds_spec p b :
  isPointInBounds p b = true <->
  south b <= latitude p <= north b /\ west b <= longitude p <= east b.
Proof.
  unfold isPointInBounds, geb. rewrite !andb_true_iff, !leb_le. intuition.
Qed.

(** A stored point inside the queried box is found by [query]. *)
Lemma query_finds_point idx bounds f c :
  registered idx ->
  JSMap.get (features idx) (id f) = Some f ->
  geometry f = Point c ->
  isPointInBounds c bounds = true ->
  In f (query idx bounds).
Proof.
  intros Hreg Hget Hgeo Hin.
  destruct (Hreg _ _ Hget) as [_ Hkeys].
  apply query_complete with (i := id f); auto.
  - apply isPointInBounds_spec in Hin. destruct Hin as [[Hs Hn] [Hw He]].
    apply candidateIds_complete
      with (x := floor (longitude c / gridSize))
           (y := floor (latitude c / gridSize)).
    + split; [apply floor_le_floor | apply floor_le_ceil];
        now apply div_gridSize_le.
    + split; [apply floor_le_floor | apply floor_le_ceil];
        now apply div_gridSize_le.
    + apply Hkeys. unfold getGridKeys. rewrite Hgeo. now left.
  - unfold featureIntersectsBounds. now rewrite Hgeo.
Qed.

End SpatialIndexProps.

Module SpatialIndexClaims.
Import SpatialUtils SpatialIndex SpatialIndexProps Scenarios.

Lemma getGridKeys_siteBefore : getGridKeys siteBefore = ["0,0"%string].
Proof.
  unfold getGridKeys, siteBefore, gridSize; simpl.
  rewrite (floor_eq 0) by lra. reflexivity.
Qed.

Lemma getGridKeys_siteAfter : getGridKeys siteAfter = ["100,100"%string].
Proof.
  unfold getGridKeys, siteAfter, gridSize; simpl.
  rewrite (floor_eq 100) by lra. reflexivity.
Qed.

(** C1, behaviour of the code.  Re-inserting the feature ["site"] with a
    moved point overwrites the stored feature and registers the id in the
    cell of the new point, but the bucket of the old cell ["0,0"], which the
    new geometry does not touch, still holds the id; a later [remove] only
    cleans the cells of the new geometry, so the id stays in that bucket
    although no such feature is stored any more. *)
Theorem insert_same_id_leaves_stale_bucket :
  let idx := insert siteAfter (insert siteBefore empty) in
  JSMap.get (features idx) "site" = Some siteAfter /\
  getGridKeys siteAfter = ["100,100"%string] /\
  JSMap.get (spatialGrid idx) "100,100" = Some ["site"%string] /\
  JSMap.get (spatialGrid idx) "0,0" = Some ["site"%string] /\
  remove "site" idx =
    (true, {| features := []; spatialGrid := [("0,0"%string, ["site"%string])] |}).
Proof.
  assert (Hidx : insert siteAfter (insert siteBefore empty) =
                 {| features := [("site"%string, siteAfter)];
                    spatialGrid := [("0,0"%string, ["site"%string]);
                                    ("100,100"%string, ["site"%string])] |}).
  { unfold insert. rewrite getGridKeys_siteBefore, getGridKeys_siteAfter.
    reflexivity. }
  cbv zeta. rewrite Hidx. repeat split; try reflexivity.
  - apply getGridKeys_siteAfter.
  - rewrite (@remove_stored "site" _ siteAfter) by reflexivity.
    rewrite getGridKeys_siteAfter. reflexivity.
Qed.

(** [insert] never takes an id out of a bucket, whatever was stored under
    the id before. *)
Lemma insert_keeps_bucket_entries feature idx key i :
  member (spatialGrid idx) key i ->
  member (spatialGrid (insert feature idx)) key i.
Proof. intros H. unfold insert. simpl. now apply addToCells_mono. Qed.



Lemma distance_over_pole : calculateDistance hudsonBay siberia = 6371 * (PI / 3).
Proof.
  unfold calculateDistance, hudsonBay, siberia; simpl.
  replace (toRadians (60 - 60) / 2) with 0 by (unfold toRadians; field).
  replace (toRadians (90 - -90) / 2) with (PI / 2) by (unfold toRadians; field).
  replace (toRadians 60) with (PI / 3) by (unfold toRadians; field).
  rewrite sin_0, sin_PI2, cos_PI3.
  replace (0 * 0 + 1 / 2 * (1 / 2) * 1 * 1) with ((1 / 2) * (1 / 2)) by field.
  rewrite sqrt_square by lra.
  replace (1 - 1 / 2 * (1 / 2)) with ((sqrt 3 / 2) * (sqrt 3 / 2)).
  2:{ assert (H : sqrt 3 * sqrt 3 = 3) by (apply sqrt_sqrt; lra).
      field_simplify. rewrite <- Rsqr_pow2. unfold Rsqr. rewrite H. field. }
  assert (Hs : 0 < sqrt 3) by (apply sqrt_lt_R0; lra).
  rewrite sqrt_square by lra.
  unfold atan2. destruct (Rlt_dec 0 (sqrt 3 / 2)) as [_|H]; [|lra].
  replace (1 / 2 / (sqrt 3 / 2)) with (1 / sqrt 3) by (field; lra).
  rewrite <- tan_PI6, atan_tan.
  - field.
  - pose proof PI_RGT_0. lra.
Qed.

(** The same happens away from the antimeridian: the box is as wide in
    longitude as the radius is at the latitude of the centre, and a point
    reached over the pole lies outside it. *)
Lemma queryRadius_misses_point_over_pole :
  let idx := insert camp empty in
  JSMap.get (features idx) "camp" = Some camp /\
  calculateDistance hudsonBay siberia <= 8500 /\
  ~ In camp (queryRadius idx hudsonBay 8500).
Proof.
  cbv zeta. split; [reflexivity|]. split.
  - rewrite distance_over_pole. pose proof PI_4. lra.
  - unfold queryRadius. intros H. apply filter_In in H. destruct H as [H _].
    apply query_sound in H. destruct H as [H _].
    unfold featureIntersectsBounds, camp in H; simpl in H.
    apply isPointInBounds_spec in H. destruct H as [_ [_ He]].
    unfold createBoundingBox, hudsonBay, siberia in He; simpl in He.
    replace (toRadians 60) with (PI / 3) in He by (unfold toRadians; field).
    rewrite cos_PI3 in He. lra.
Qed.



End SpatialIndexClaims.

(** ** The vector store: scoring *)

Module ScoringProps.
Import VectorStore.









(** C10.  With the similarity fixed and a positive spatial weight, the
    combined score does not decrease when the spatial relevance grows. *)
Theorem combineScores_monotone similarity spatialWeight r1 r2 :
  0 < spatialWeight ->
  r1 <= r2 ->
  combineScores similarity r1 spatialWeight <=
  combineScores similarity r2 spatialWeight.
Proof.
  intros Hw Hr. unfold combineScores.
  apply Rplus_le_compat_l, Rmult_le_compat_l; lra.
Qed.

Lemma combineScores_monotone_witness :
  combineScores 0.8 0.2 0.3 <= combineScores 0.8 0.6 0.3.
Proof. apply combineScores_monotone; lra. Defined.

End ScoringProps.

(** ** The vector store: documents *)

Module VectorStoreProps.
Import Doc VectorStore Scenarios.

Lemma set_set_same {V} (m : JSMap.t V) k v :
  JSMap.set (JSMap.set m k v) k v = JSMap.set m k v.
Proof.
  induction m as [|[k' v'] m IH]; simpl.
  - now rewrite String.eqb_refl.
  - destruct (String.eqb k k') eqn:E; simpl; rewrite E; auto.
    now rewrite IH.
Qed.

(** Without a location, adding a document twice is the same as adding it
    once. *)
Lemma addDocument_twice_unlocated document st :
  location (metadata document) = None ->
  addDocument document (addDocument document st) = addDocument document st.
Proof.
  intros H. unfold addDocument. simpl. rewrite H, set_set_same.
  destruct (embedding document); [rewrite set_set_same|]; reflexivity.
Qed.

Lemma addToSpatialIndex_origin docId grid :
  addToSpatialIndex docId {| latitude := 0; longitude := 0 |} grid =
  let grid1 := if negb (JSMap.has grid "0,0") then JSMap.set grid "0,0" [] else grid in
  match JSMap.get grid1 "0,0" with
  | Some cellDocs => JSMap.set grid1 "0,0" (cellDocs ++ [docId])
  | None => grid1
  end.
Proof.
  unfold addToSpatialIndex; simpl.
  rewrite (floor_eq 0) by lra. reflexivity.
Qed.

Lemma removeFromSpatialIndex_origin docId grid :
  removeFromSpatialIndex docId {| latitude := 0; longitude := 0 |} grid =
  match JSMap.get grid "0,0" with
  | Some cellDocs =>
      if existsb (String.eqb docId) cellDocs then
        let cellDocs1 := removeFirst docId cellDocs in
        if Nat.eqb (List.length cellDocs1) 0 then JSMap.delete grid "0,0"
        else JSMap.set grid "0,0" cellDocs1
      else grid
  | None => grid
  end.
Proof.
  unfold removeFromSpatialIndex; simpl.
  rewrite (floor_eq 0) by lra. reflexivity.
Qed.

(** C4, behaviour of the code.  Adding the located document ["depot"] a
    second time leaves the document and embedding tables as they were, but
    pushes the id a second time into the bucket of its cell, so the store
    differs from the store after one call.  The difference shows after
    [removeDocument]: it removes one occurrence only, so the id of the
    removed document stays registered in the grid and [getStats] still
    counts its cell. *)
Theorem addDocument_twice_duplicates_grid_entry :
  let once := addDocument depot (create RAGEngine.defaultOptions) in
  let twice := addDocument depot once in
  documents twice = documents once /\
  embeddings twice = embeddings once /\
  spatialIndex once = [("0,0"%string, ["depot"%string])] /\
  spatialIndex twice = [("0,0"%string, ["depot"%string; "depot"%string])] /\
  twice <> once /\
  spatialIndex (snd (removeDocument "depot" once)) = [] /\
  spatialIndex (snd (removeDocument "depot" twice)) =
    [("0,0"%string, ["depot"%string])] /\
  spatialGridCells (getStats (snd (removeDocument "depot" once))) = 0%nat /\
  spatialGridCells (getStats (snd (removeDocument "depot" twice))) = 1%nat.
Proof.
  assert (H1 : addDocument depot (create RAGEngine.defaultOptions) =
               {| documents := [("depot"%string, depot)];
                  embeddings := [("depot"%string, [1; 0])];
                  spatialIndex := [("0,0"%string, ["depot"%string])];
                  options := RAGEngine.defaultOptions |}).
  { unfold addDocument, create.
    cbn [Doc.id Doc.embedding Doc.metadata Doc.location depot depotMetadata
         documents embeddings spatialIndex options].
    rewrite addToSpatialIndex_origin. reflexivity. }
  assert (H2 : addDocument depot (addDocument depot (create RAGEngine.defaultOptions)) =
               {| documents := [("depot"%string, depot)];
                  embeddings := [("depot"%string, [1; 0])];
                  spatialIndex := [("0,0"%string, ["depot"%string; "depot"%string])];
                  options := RAGEngine.defaultOptions |}).
  { rewrite H1. unfold addDocument.
    cbn [Doc.id Doc.embedding Doc.metadata Doc.location depot depotMetadata
         documents embeddings spatialIndex options].
    rewrite addToSpatialIndex_origin. reflexivity. }
  cbv zeta. rewrite H2, H1. cbn [documents embeddings spatialIndex].
  assert (R1 : spatialIndex
                 (snd (removeDocument "depot"
                         {| documents := [("depot"%string, depot)];
                            embeddings := [("depot"%string, [1; 0])];
                            spatialIndex := [("0,0"%string, ["depot"%string])];
                            options := RAGEngine.defaultOptions |})) = []).
  { unfold removeDocument.
    cbn [JSMap.get documents String.eqb Ascii.eqb Bool.eqb].
    cbn [Doc.metadata Doc.location depot depotMetadata snd spatialIndex].
    rewrite removeFromSpatialIndex_origin. reflexivity. }
  assert (R2 : spatialIndex
                 (snd (removeDocument "depot"
                         {| documents := [("depot"%string, depot)];
                            embeddings := [("depot"%string, [1; 0])];
                            spatialIndex :=
                              [("0,0"%string, ["depot"%string; "depot"%string])];
                            options := RAGEngine.defaultOptions |})) =
               [("0,0"%string, ["depot"%string])]).
  { unfold removeDocument.
    cbn [JSMap.get documents String.eqb Ascii.eqb Bool.eqb].
    cbn [Doc.metadata Doc.location depot depotMetadata snd spatialIndex].
    rewrite removeFromSpatialIndex_origin. reflexivity. }
  unfold getStats. cbn [spatialGridCells]. rewrite R1, R2.
  repeat split. intros E. discriminate E.
Qed.

End VectorStoreProps.

(** ** The retrieval engine *)

Module RAGProps.
Import Doc Embeddings VectorStore RAGEngine Scenarios.




Lemma enhance_located base d :
  location (metadata d) <> None ->
  enhanceWithSpatialContext base d = base ++ extractSpatialFeatures d.
Proof.
  unfold enhanceWithSpatialContext.
  destruct (location (metadata d)); [reflexivity | contradiction].
Qed.

(** *** What [addDocuments] of the store leaves in the two tables *)



(** *** A length mismatch makes the whole search fail *)

Section Failure.
Context {host : Host}.







End Failure.










End RAGProps.

(** ** Regular expressions: every loop over the matches ends *)

Module RegexProps.
Import Regex.

(** [pass H]: the position reached in [H] is the one to give. *)
Ltac pass H :=
  let p := fresh "prev'" in
  let t := fresh "rest'" in
  let n := fresh "pos'" in
  let c := fresh "caps'" in
  destruct H as (p & t & n & c & H & ? & ?);
  exists p, t, n, c; repeat split; auto; simpl in *; lia.

(** [here]: the continuation was called where the match stood. *)
Ltac here :=
  match goal with
  | H : ?k ?p ?t ?n ?c = Some _ |- reaches ?k _ _ _ _ =>
      exists p, t, n, c; repeat split; auto; simpl in *; lia
  end.

Lemma repeatFrom_advances test min max greedy k caps rest :
  forall count prev pos res,
    repeatFrom test min max greedy k caps count prev rest pos = Some res ->
    reaches k res pos (List.length rest) (pos + (min - count)).
Proof.
  induction rest as [|c rest IH]; intros count prev pos res H; simpl in H.
  - assert (Hstop : (if Nat.leb min count then k prev [] pos caps else None) = Some res).
    { destruct greedy; auto.
      destruct (if Nat.leb min count then k prev [] pos caps else None); auto. }
    destruct (Nat.leb_spec min count) as [Hle|]; [here|discriminate].
  - assert (Hcases :
        (if belowMax count max && test c
         then repeatFrom test min max greedy k caps (S count) (Some c) rest (S pos)
         else None) = Some res \/
        (if Nat.leb min count then k prev (c :: rest) pos caps else None) = Some res).
    { destruct greedy.
      - destruct (if belowMax count max && test c then _ else None); auto.
      - destruct (if Nat.leb min count then _ else None); auto. }
    destruct Hcases as [Hmore|Hstop].
    + destruct (belowMax count max && test c); [|discriminate].
      apply IH in Hmore. pass Hmore.
    + destruct (Nat.leb_spec min count) as [Hle|]; [here|discriminate].
Qed.

Lemma run_advances ic r :
  forall prev rest pos caps k res,
    run ic r prev rest pos caps k = Some res ->
    reaches k res pos (List.length rest) (pos + minLength r).
Proof.
  induction r as [|cs|r1 IH1 r2 IH2|r1 IH1 r2 IH2|r1 IH1|cs min max greedy|n r1 IH1| |];
    intros prev rest pos caps k res H; simpl in H.
  - here.
  - destruct rest as [|c rest]; [discriminate|].
    destruct (accepts ic cs c); [here|discriminate].
  - apply IH1 in H. destruct H as (p1 & t1 & n1 & c1 & H & Hlow1 & Hlen1).
    apply IH2 in H. pass H.
  - destruct (run ic r1 prev rest pos caps k) as [m|] eqn:E.
    + injection H as <-. apply IH1 in E. pass E.
    + apply IH2 in H. pass H.
  - destruct (run ic r1 prev rest pos caps k) as [m|] eqn:E.
    + injection H as <-. apply IH1 in E. pass E.
    + here.
  - apply repeatFrom_advances in H. pass H.
  - apply IH1 in H. destruct H as (p1 & t1 & n1 & c1 & H & Hlow & Hlen).
    exists p1, t1, n1, ((n, (pos, n1)) :: c1). repeat split; auto.
  - destruct (xorb _ _); [here|discriminate].
  - destruct rest; [here|discriminate].
Qed.

Lemma scan_bounds re rest :
  forall prev pos m,
    scan re prev rest pos = Some m ->
    (pos + minLength (pattern re) <= stop m <= pos + List.length rest)%nat.
Proof.
  induction rest as [|c rest IH]; intros prev pos m H; simpl in H.
  - destruct (run _ _ _ _ _ _ _) as [[e caps]|] eqn:E; [|discriminate].
    injection H as <-. simpl. apply run_advances in E.
    destruct E as [p1 [t1 [n1 [c1 [E [Hlow Hlen]]]]]].
    injection E as <- _. simpl in *. lia.
  - destruct (run _ _ _ _ _ _ _) as [[e caps]|] eqn:E.
    + injection H as <-. simpl. apply run_advances in E.
      destruct E as [p1 [t1 [n1 [c1 [E [Hlow Hlen]]]]]].
      injection E as <- _. simpl in *. lia.
    + apply IH in H. simpl. lia.
Qed.

Lemma advance_length n :
  forall prev rest prev' rest',
    advance n prev rest = (prev', rest') ->
    List.length rest' = (List.length rest - n)%nat.
Proof.
  induction n as [|n IH]; intros prev rest prev' rest' H; simpl in H.
  - injection H as _ <-. lia.
  - destruct rest as [|c rest].
    + injection H as _ <-. reflexivity.
    + apply IH in H. simpl. lia.
Qed.

Lemma length_list_ascii s : List.length (list_ascii_of_string s) = String.length s.
Proof. induction s as [|c s IH]; simpl; auto. Qed.

Lemma exec_bounds re text lastIndex m :
  (1 <= minLength (pattern re))%nat ->
  exec re text lastIndex = Some m ->
  (lastIndex < stop m <= Nat.max lastIndex (String.length text))%nat.
Proof.
  intros Hmin H. unfold exec in H.
  destruct (advance lastIndex None (list_ascii_of_string text)) as [prev rest] eqn:E.
  apply advance_length in E. rewrite length_list_ascii in E.
  apply scan_bounds in H. lia.
Qed.

(** For an expression that consumes at least one character per match, the
    loop over the matches of a text ends within the fuel that [execAll]
    provides. *)
Lemma execLoop_finishes re text :
  (1 <= minLength (pattern re))%nat ->
  forall fuel lastIndex,
    (lastIndex <= String.length text)%nat ->
    (String.length text - lastIndex < fuel)%nat ->
    execLoop fuel re text lastIndex <> None.
Proof.
  intros Hmin. induction fuel as [|fuel IH]; intros lastIndex Hle Hfuel; [lia|].
  simpl. destruct (exec re text lastIndex) as [m|] eqn:E; [|discriminate].
  apply exec_bounds in E; auto.
  specialize (IH (stop m)).
  destruct (execLoop fuel re text (stop m)); [discriminate|].
  exfalso. apply IH; auto; lia.
Qed.

Lemma execAll_finished re text :
  (1 <= minLength (pattern re))%nat ->
  execLoop (S (S (String.length text))) re text 0 = Some (execAll re text).
Proof.
  intros Hmin. unfold execAll.
  pose proof (@execLoop_finishes re text Hmin (S (S (String.length text))) 0%nat) as H.
  destruct (execLoop (S (S (String.length text))) re text 0); auto.
  exfalso. apply H; auto; lia.
Qed.

End RegexProps.

(** ** The query parser *)

Module ParserProps.
Import Regex RegexProps Query Parser Scenarios.

(** Every expression of the parser consumes at least one character per
    match, so each of its loops over the matches ends and [execAll] returns
    all the matches. *)
Lemma parser_patterns_progress :
  Forall (fun re => (1 <= minLength (pattern re))%nat)
         (LOCATION_PATTERNS ++ [coordPattern] ++ map featureTypePattern FEATURE_TYPES ++
          DISTANCE_PATTERNS ++ TIME_PATTERNS).
Proof. repeat constructor; simpl; lia. Qed.

Lemma parser_loops_finish :
  Forall (fun re =>
            forall text,
              execLoop (S (S (String.length text))) re text 0 = Some (execAll re text))
         (LOCATION_PATTERNS ++ [coordPattern] ++ map featureTypePattern FEATURE_TYPES ++
          DISTANCE_PATTERNS ++ TIME_PATTERNS).
Proof.
  eapply Forall_impl; [|apply parser_patterns_progress].
  intros re Hmin text. now apply execAll_finished.
Qed.

(** *** Confidence *)

Lemma extractEntities_nonnegative queryText :
  Forall nonnegative (extractEntities queryText).
Proof.
  unfold extractEntities, nonnegative. rewrite !Forall_app. repeat split.
  - apply Forall_flat_map, Forall_forall. intros re _.
    unfold locationEntities. apply Forall_flat_map, Forall_forall. intros m _.
    destruct (_ && _); constructor; simpl; auto; lra.
  - unfold coordinateEntities. apply Forall_flat_map, Forall_forall. intros m _.
    destruct (_ && _); constructor; simpl; auto; lra.
  - apply Forall_flat_map, Forall_forall. intros ft _.
    unfold featureTypeEntities. apply Forall_map, Forall_forall. intros m _.
    simpl; lra.
  - apply Forall_flat_map, Forall_forall. intros re _.
    unfold measurementEntities. apply Forall_map, Forall_forall. intros m _.
    simpl; lra.
Qed.

Lemma sumConfidence_from entities :
  Forall nonnegative entities ->
  forall acc, 0 <= acc -> 0 <= fold_left (fun sum e => sum + confidence e) entities acc.
Proof.
  induction 1 as [|e entities He _ IH]; intros acc Hacc; simpl; auto.
  apply IH. unfold nonnegative in He. lra.
Qed.

Lemma sumConfidence_nonnegative entities :
  Forall nonnegative entities -> 0 <= sumConfidence entities.
Proof. intros H. apply sumConfidence_from; auto. lra. Qed.

Lemma calculateParsingConfidence_bounds intent entities spatialConstraints :
  Forall nonnegative entities ->
  0.5 <= calculateParsingConfidence intent entities spatialConstraints <= 1.
Proof.
  intros Hall. unfold calculateParsingConfidence.
  set (c1 := if _ || _ then 0.5 + 0.2 else 0.5).
  assert (H1 : 0.5 <= c1) by (unfold c1; destruct (_ || _); lra).
  assert (H2 : 0 <= Rmin (INR (List.length entities) * 0.1) 0.3).
  { apply Rmin_glb; [|lra]. pose proof (pos_INR (List.length entities)). lra. }
  assert (H3 : 0 <= Rmin (INR (List.length spatialConstraints) * 0.15) 0.3).
  { apply Rmin_glb; [|lra]. pose proof (pos_INR (List.length spatialConstraints)). lra. }
  assert (H4 : 0 <= (if Nat.ltb 0 (List.length entities)
                     then sumConfidence entities / INR (List.length entities)
                     else 0) * 0.2).
  { destruct (Nat.ltb_spec 0 (List.length entities)) as [Hn|]; [|lra].
    apply sumConfidence_nonnegative in Hall.
    assert (0 < INR (List.length entities)) by (apply lt_0_INR; lia).
    assert (0 <= sumConfidence entities / INR (List.length entities)).
    { apply Rmult_le_pos; auto. left. now apply Rinv_0_lt_compat. }
    lra. }
  split.
  - apply Rmin_glb; lra.
  - eapply Rle_trans; [apply Rmin_r | lra].
Qed.

Section Parsing.
Context {host : Host}.

Lemma parsingConfidence_parseQuery queryText reads :
  parsingConfidence (fst (parseQuery queryText reads)) =
  calculateParsingConfidence
    (extractIntent (JSString.trim (JSString.toLowerCase queryText)))
    (extractEntities queryText)
    (extractSpatialConstraints queryText (extractEntities queryText)).
Proof.
  unfold parseQuery. destruct (extractTemporalConstraints _ _). reflexivity.
Qed.

Lemma spatialConstraints_parseQuery queryText reads :
  spatialConstraints (fst (parseQuery queryText reads)) =
  extractSpatialConstraints queryText (extractEntities queryText).
Proof.
  unfold parseQuery. destruct (extractTemporalConstraints _ _). reflexivity.
Qed.

Lemma entities_parseQuery queryText reads :
  entities (fst (parseQuery queryText reads)) = extractEntities queryText.
Proof.
  unfold parseQuery. destruct (extractTemporalConstraints _ _). reflexivity.
Qed.

Lemma intent_parseQuery queryText reads :
  intent (fst (parseQuery queryText reads)) =
  extractIntent (JSString.trim (JSString.toLowerCase queryText)).
Proof.
  unfold parseQuery. destruct (extractTemporalConstraints _ _). reflexivity.
Qed.

Lemma parseQuery_confidence_bounds queryText reads :
  0.5 <= parsingConfidence (fst (parseQuery queryText reads)) <= 1.
Proof.
  rewrite parsingConfidence_parseQuery.
  apply calculateParsingConfidence_bounds, extractEntities_nonnegative.
Qed.

End Parsing.

(** *** The scenario *)

Lemma parseFloat_50 : JSString.parseFloat "50" = 50.
Proof. unfold JSString.parseFloat. simpl. lra. Qed.

Lemma extractEntities_nationalParks :
  extractEntities nationalParks = [parksEntity; distanceEntity; withinEntity].
Proof.
  unfold extractEntities.
  assert (H1 : flat_map (locationEntities nationalParks) LOCATION_PATTERNS = [])
    by reflexivity.
  assert (H2 : coordinateEntities nationalParks = []) by reflexivity.
  assert (H3 : flat_map (featureTypeEntities nationalParks) FEATURE_TYPES = [parksEntity])
    by reflexivity.
  assert (H4 : flat_map (measurementEntities nationalParks) DISTANCE_PATTERNS =
               [{| text := "50km"; value := Distance (JSString.parseFloat "50") km;
                   confidence := 0.95; positionStart := 27; positionEnd := 31 |};
                {| text := "within 50km"; value := Distance (JSString.parseFloat "50") km;
                   confidence := 0.95; positionStart := 20; positionEnd := 31 |}])
    by reflexivity.
  rewrite H1, H2, H3, H4, parseFloat_50. reflexivity.
Qed.

Lemma extractSpatialConstraints_nationalParks :
  extractSpatialConstraints nationalParks (extractEntities nationalParks) = [].
Proof. rewrite extractEntities_nationalParks. reflexivity. Qed.

Lemma extractIntent_nationalParks :
  extractIntent (JSString.trim (JSString.toLowerCase nationalParks)) =
  {| intentType := search; subtype := None;
     description := "Search for geographic information" |}.
Proof. reflexivity. Qed.

(** C5, counterexample.  The parsed scenario query has no spatial constraint
    at all, hence none of type [radius] with radius 50: ["of Los Angeles"]
    follows none of the prepositions that introduce a place, and a radius
    constraint is only derived from a pair of coordinates. *)
Lemma nationalParks_has_no_radius_constraint :
  ~ exists c,
      In c (spatialConstraints (fst (parseQuery (host := plainHost) nationalParks 0))) /\
      constraintType c = radius /\
      (exists p, parameters c = Some p /\ parameterRadius p = Some 50).
Proof.
  intros [c [Hin _]].
  rewrite spatialConstraints_parseQuery in Hin.
  now rewrite extractSpatialConstraints_nationalParks in Hin.
Qed.

(** C5, as amended.  Parsing the scenario query yields the intent [search],
    the feature-type entity [park], the measurement [{50, km}] (twice, once
    for each distance pattern) and no spatial constraint. *)
Theorem nationalParks_parse {host : Host} (reads : nat) :
  let parsedQuery := fst (parseQuery nationalParks reads) in
  intentType (intent parsedQuery) = search /\
  entities parsedQuery = [parksEntity; distanceEntity; withinEntity] /\
  entityType parksEntity = feature_type /\
  value parksEntity = FeatureNoun "park" /\
  entityType distanceEntity = measurement /\
  value distanceEntity = Distance 50 km /\
  spatialConstraints parsedQuery = [].
Proof.
  cbv zeta.
  rewrite intent_parseQuery, entities_parseQuery, spatialConstraints_parseQuery.
  rewrite extractIntent_nationalParks, extractSpatialConstraints_nationalParks,
    extractEntities_nationalParks.
  repeat split.
Qed.

End ParserProps.

(** ** The query engine and the result cache *)

Module EngineProps.
Import Query Parser Executor QueryEngine ParserProps Scenarios.

(** *** The cache key does not depend on the clock *)

Section Keys.
Context {host : Host}.











End Keys.

Section Engine.
Context {host : Host}.
Variables (Data Backend : Type).
Variable executePlan :
  QueryExecutionPlan -> ParsedQuery -> string -> Backend -> nat ->
  Result (QueryResult Data) * nat.


(** *** The confidence gate *)

Lemma processQuery_rejects (engine : GeographicQueryEngine Data) backend queryText reads :
  belowThreshold engine (fst (parseQuery queryText reads)) = true ->
  processQuery executePlan engine backend queryText reads =
  (rejection Data (fst (parseQuery queryText reads)), engine,
   snd (parseQuery queryText reads)).
Proof.
  intros H. unfold processQuery.
  destruct (parseQuery queryText reads) as [parsedQuery reads1].
  simpl in *. now rewrite H.
Qed.



(** C6.  When the confidence of the parsed query is below the configured
    threshold, [processQuery] returns the rejection: [success] is false,
    there is no data, the reported confidence is the parser's and is at most
    the threshold, and an error message is given.  Nothing is executed: the
    engine and its cache are unchanged and the clock has only been read by
    the parser. *)
Theorem low_confidence_is_rejected (engine : GeographicQueryEngine Data) backend queryText reads :
  let parsedQuery := fst (parseQuery queryText reads) in
  parsingConfidence parsedQuery < confidenceThreshold (options engine) ->
  exists result,
    processQuery executePlan engine backend queryText reads =
      (result, engine, snd (parseQuery queryText reads)) /\
    success result = false /\
    data result = None /\
    confidence (metadata result) = parsingConfidence parsedQuery /\
    confidence (metadata result) <= confidenceThreshold (options engine) /\
    cacheHit (metadata result) = false /\
    stepsExecuted (metadata result) = 0%nat /\
    error result <> None.
Proof.
  intros parsedQuery Hlow. exists (rejection Data parsedQuery).
  split.
  - apply processQuery_rejects. unfold belowThreshold. now apply ltb_lt.
  - simpl. repeat split; try lra. discriminate.
Qed.


(** *** The cache *)


Lemma set_oldest_key (cache : JSMap.t (QueryResult Data * R)) key v oldest rest :
  JSMap.keys (JSMap.set cache key v) = oldest :: rest ->
  (100 < JSMap.size (JSMap.set cache key v))%nat ->
  (JSMap.size cache <= 100)%nat ->
  oldest <> key.
Proof.
  destruct cache as [|[k0 v0] cache]; simpl.
  - unfold JSMap.size. simpl. lia.
  - destruct (String.eqb_spec key k0) as [->|Hne]; simpl.
    + unfold JSMap.size. simpl. lia.
    + intros [= <- _] _ _. congruence.
Qed.

(** With at most 100 entries in the cache, the result just cached is not the
    one evicted. *)
Lemma cacheResult_get (executor0 : QueryExecutor Data) key result reads :
  (JSMap.size (queryCache executor0) <= 100)%nat ->
  JSMap.get (queryCache (fst (cacheResult executor0 key result reads))) key =
  Some (result, Date_now reads).
Proof.
  intros Hsize. unfold cacheResult. simpl.
  destruct (Nat.ltb_spec 100 (JSMap.size (JSMap.set (queryCache executor0) key
                                                    (result, Date_now reads)))) as [Hbig|_].
  - destruct (JSMap.keys _) as [|oldest rest] eqn:K.
    + apply get_set_same.
    + rewrite get_delete_other; [apply get_set_same|].
      apply not_eq_sym. eapply set_oldest_key; eauto.
  - apply get_set_same.
Qed.

Lemma size_delete_head (cache : JSMap.t (QueryResult Data * R)) k rest :
  JSMap.keys cache = k :: rest ->
  (S (JSMap.size (JSMap.delete cache k)) <= JSMap.size cache)%nat.
Proof.
  destruct cache as [|[k0 v0] cache]; simpl; [discriminate|].
  intros [= -> _]. unfold JSMap.delete, JSMap.size. simpl.
  rewrite String.eqb_refl. simpl.
  apply le_n_S, filter_length_le.
Qed.

(** The bound is an invariant of the executor. *)
Lemma cacheResult_bound (executor0 : QueryExecutor Data) key result reads :
  (JSMap.size (queryCache executor0) <= 100)%nat ->
  (JSMap.size (queryCache (fst (cacheResult executor0 key result reads))) <= 100)%nat.
Proof.
  intros Hsize. unfold cacheResult. simpl.
  set (cache1 := JSMap.set _ _ _).
  pose proof (size_set_le (queryCache executor0) key (result, Date_now reads)) as Hle.
  fold cache1 in Hle.
  destruct (Nat.ltb_spec 100 (JSMap.size cache1)) as [Hbig|]; [|assumption].
  assert (Hkeys : List.length (JSMap.keys cache1) = JSMap.size cache1)
    by apply length_map.
  destruct (JSMap.keys cache1) as [|oldest rest] eqn:K; [simpl in Hkeys; lia|].
  pose proof (size_delete_head cache1 K). lia.
Qed.

Lemma executeQuery_bound (executor0 : QueryExecutor Data) backend parsedQuery text reads :
  (JSMap.size (queryCache executor0) <= 100)%nat ->
  (JSMap.size
     (queryCache (snd (fst (executeQuery executePlan executor0 backend parsedQuery
                                         text reads)))) <= 100)%nat.
Proof.
  intros Hsize. unfold executeQuery.
  destruct (checkCache _ _ _) as [[cached|] reads1]; [assumption|].
  destruct (executePlan _ _ _ _ _) as [[result|message] reads2]; [|assumption].
  pose proof (cacheResult_bound executor0
                (generateCacheKey parsedQuery text) result reads2 Hsize) as H.
  destruct (cacheResult _ _ _ _). exact H.
Qed.

Lemma processQuery_bound (engine : GeographicQueryEngine Data) backend queryText reads :
  (JSMap.size (queryCache (executor engine)) <= 100)%nat ->
  (JSMap.size
     (queryCache
        (executor (snd (fst (processQuery executePlan engine backend queryText reads)))))
   <= 100)%nat.
Proof.
  intros Hsize. unfold processQuery.
  destruct (parseQuery queryText reads) as [parsedQuery reads1].
  destruct (belowThreshold engine parsedQuery); [assumption|].
  pose proof (executeQuery_bound (executor engine) backend parsedQuery queryText reads1
                                 Hsize) as H.
  destruct (executeQuery _ _ _ _ _ _) as [[result executor1] reads2]. exact H.
Qed.

Lemma create_bound opts :
  (JSMap.size (queryCache (executor (QueryEngine.create Data opts))) <= 100)%nat.
Proof. unfold JSMap.size. simpl. lia. Qed.




End Engine.

(** *** The two-character query ["zz"] *)

Lemma gibberish_confidence {host : Host} reads :
  parsingConfidence (fst (parseQuery "zz" reads)) = 0.5.
Proof.
  rewrite parsingConfidence_parseQuery.
  assert (He : extractEntities "zz" = []) by reflexivity.
  rewrite He.
  assert (Hc : extractSpatialConstraints "zz" [] = []) by reflexivity.
  rewrite Hc.
  assert (Hi : extractIntent (JSString.trim (JSString.toLowerCase "zz")) =
               {| intentType := search; subtype := None;
                  description := "Search for geographic information" |}) by reflexivity.
  rewrite Hi.
  unfold calculateParsingConfidence. simpl.
  unfold Rmin. repeat destruct (Rle_dec _ _); lra.
Qed.

Lemma low_confidence_is_rejected_witness :
  exists result,
    processQuery (host := plainHost) answering (create string strictOptions) tt "zz" 0 =
      (result, create string strictOptions, snd (parseQuery (host := plainHost) "zz" 0)) /\
    success result = false /\
    data result = None /\
    confidence (metadata result) =
      parsingConfidence (fst (parseQuery (host := plainHost) "zz" 0)) /\
    confidence (metadata result) <= 0.6 /\
    cacheHit (metadata result) = false /\
    stepsExecuted (metadata result) = 0%nat /\
    error result <> None.
Proof.
  apply (@low_confidence_is_rejected plainHost string unit answering
           (create string strictOptions) tt "zz" 0%nat).
  rewrite gibberish_confidence. simpl. lra.
Defined.


End EngineProps.

(* ================================================================== *)
(** * Part III: further properties of the code *)
(* ================================================================== *)

(** ** Distances and boxes *)

Module UtilsProps.
Import SpatialUtils SpatialIndexProps Boxes.







Lemma boundingBoxesIntersect_spec box1 box2 :
  boundingBoxesIntersect box1 box2 = true <->
  west box2 <= east box1 /\ west box1 <= east box2 /\
  south box2 <= north box1 /\ south box1 <= north box2.
Proof.
  unfold boundingBoxesIntersect.
  rewrite negb_true_iff, !orb_false_iff, !ltb_ge. tauto.
Qed.

(** For two boxes whose sides are in order, [boundingBoxesIntersect]
    holds exactly when some point lies in both
    ([isPointInBounds]); touching boxes count as intersecting. *)
Theorem boundingBoxesIntersect_iff_common_point box1 box2 :
  ordered box1 ->
  ordered box2 ->
  boundingBoxesIntersect box1 box2 = true <->
  exists p, isPointInBounds p box1 = true /\ isPointInBounds p box2 = true.
Proof.
  intros [Hs1 Hw1] [Hs2 Hw2]. rewrite boundingBoxesIntersect_spec. split.
  - intros (Ha & Hb & Hc & Hd).
    exists {| latitude := Rmax (south box1) (south box2);
              longitude := Rmax (west box1) (west box2) |}.
    rewrite !isPointInBounds_spec. cbn [latitude longitude].
    pose proof (Rmax_l (south box1) (south box2)).
    pose proof (Rmax_r (south box1) (south box2)).
    pose proof (Rmax_l (west box1) (west box2)).
    pose proof (Rmax_r (west box1) (west box2)).
    repeat split; auto; apply Rmax_lub; auto.
  - intros [p [H1 H2]]. apply isPointInBounds_spec in H1, H2. lra.
Qed.

Lemma boundingBoxesIntersect_iff_common_point_witness :
  let box1 := {| north := 1; south := 0; east := 1; west := 0 |} in
  let box2 := {| north := 2; south := 1; east := 2; west := 1 |} in
  boundingBoxesIntersect box1 box2 = true <->
  exists p, isPointInBounds p box1 = true /\ isPointInBounds p box2 = true.
Proof.
  cbv zeta.
  apply (@boundingBoxesIntersect_iff_common_point
           {| north := 1; south := 0; east := 1; west := 0 |}
           {| north := 2; south := 1; east := 2; west := 1 |});
    split; cbn [north south east west]; lra.
Defined.

End UtilsProps.

(** ** The spatial index: what queries return *)

Module IndexProps.
Import SpatialUtils SpatialIndex SpatialIndexProps Boxes UtilsProps.

Lemma tightAround_ordered cs b : tightAround cs b -> ordered b.
Proof.
  intros (Hall & (cn & Hcn & Hn) & _ & (ce & Hce & He) & _).
  apply Hall in Hcn, Hce. apply isPointInBounds_spec in Hcn, Hce.
  unfold ordered. lra.
Qed.

Lemma processCoord_tight acc seen c :
  match acc with None => seen = [] | Some b => tightAround seen b end ->
  exists b, processCoord acc c = Some b /\ tightAround (seen ++ [c]) b.
Proof.
  destruct acc as [b|]; simpl.
  - intros (Hall & (cn & Hcn & Hn) & (cs & Hcs & Hs) & (ce & Hce & He) &
            (cw & Hcw & Hw)).
    eexists; split; [reflexivity|].
    unfold tightAround; cbn [north south east west].
    split; [|repeat split].
    + intros c' Hc'. apply isPointInBounds_spec; cbn [north south east west].
      pose proof (Rmax_l (north b) (latitude c)).
      pose proof (Rmax_r (north b) (latitude c)).
      pose proof (Rmin_l (south b) (latitude c)).
      pose proof (Rmin_r (south b) (latitude c)).
      pose proof (Rmax_l (east b) (longitude c)).
      pose proof (Rmax_r (east b) (longitude c)).
      pose proof (Rmin_l (west b) (longitude c)).
      pose proof (Rmin_r (west b) (longitude c)).
      apply in_app_or in Hc'. destruct Hc' as [Hc'|[Hc'|[]]].
      * apply Hall, isPointInBounds_spec in Hc'. lra.
      * subst c'. lra.
    + unfold Rmax. destruct (Rle_dec (north b) (latitude c)).
      * exists c. split; auto. apply in_or_app. right. now left.
      * exists cn. split; auto. apply in_or_app. now left.
    + unfold Rmin. destruct (Rle_dec (south b) (latitude c)).
      * exists cs. split; auto. apply in_or_app. now left.
      * exists c. split; auto. apply in_or_app. right. now left.
    + unfold Rmax. destruct (Rle_dec (east b) (longitude c)).
      * exists c. split; auto. apply in_or_app. right. now left.
      * exists ce. split; auto. apply in_or_app. now left.
    + unfold Rmin. destruct (Rle_dec (west b) (longitude c)).
      * exists cw. split; auto. apply in_or_app. now left.
      * exists c. split; auto. apply in_or_app. right. now left.
  - intros ->. eexists; split; [reflexivity|].
    unfold tightAround; cbn [north south east west app].
    split; [|repeat split; exists c; split; auto; now left].
    intros c' [<-|[]]. apply isPointInBounds_spec; cbn [north south east west]. lra.
Qed.

Lemma processCoords_tight cs :
  forall acc seen,
    match acc with None => seen = [] | Some b => tightAround seen b end ->
    match fold_left processCoord cs acc with
    | None => seen ++ cs = []
    | Some b => tightAround (seen ++ cs) b
    end.
Proof.
  induction cs as [|c cs IH]; intros acc seen Hacc; simpl.
  - rewrite app_nil_r. destruct acc; auto.
  - destruct (@processCoord_tight acc seen c Hacc) as [b [Hb Ht]].
    rewrite Hb. specialize (IH (Some b) (seen ++ [c]) Ht).
    rewrite <- app_assoc in IH. exact IH.
Qed.

Lemma processRings rings :
  forall acc,
    fold_left (fun acc ring => fold_left processCoord ring acc) rings acc =
    fold_left processCoord (List.concat rings) acc.
Proof.
  induction rings as [|ring rings IH]; intros acc; simpl; auto.
  rewrite fold_left_app. apply IH.
Qed.

Lemma getFeatureBounds_spec f :
  match getFeatureBounds f with
  | Some b => tightAround (coordinatesOf (geometry f)) b
  | None => coordinatesOf (geometry f) = []
  end.
Proof.
  unfold getFeatureBounds, coordinatesOf.
  destruct (geometry f) as [c|cs|rings].
  - destruct (@processCoord_tight None [] c eq_refl) as [b [Hb Ht]].
    rewrite Hb. exact Ht.
  - apply (@processCoords_tight cs None [] eq_refl).
  - rewrite processRings. apply (@processCoords_tight (List.concat rings) None [] eq_refl).
Qed.

(** X3.  The box that [getFeatureBounds] computes is the least box around
    the coordinates of the feature: it holds every one of them, each of its
    four sides passes through one of them, and its sides are in order.  It
    stays infinite (no box) exactly when the geometry has no coordinate. *)
Theorem getFeatureBounds_least_box f :
  match getFeatureBounds f with
  | Some b => ordered b /\ tightAround (coordinatesOf (geometry f)) b
  | None => coordinatesOf (geometry f) = []
  end.
Proof.
  pose proof (getFeatureBounds_spec f) as H.
  destruct (getFeatureBounds f) as [b|]; auto.
  split; auto. eapply tightAround_ordered; eauto.
Qed.

(** The cells of a feature that is not a point. *)
Lemma getGridKeys_box f fb x y :
  (forall c, geometry f <> Point c) ->
  getFeatureBounds f = Some fb ->
  (floor (west fb / gridSize) <= x <= ceil (east fb / gridSize))%Z ->
  (floor (south fb / gridSize) <= y <= ceil (north fb / gridSize))%Z ->
  In (gridKey x y) (getGridKeys f).
Proof.
  intros Hnp Hfb Hx Hy. unfold getGridKeys. rewrite Hfb.
  destruct (geometry f) as [c|cs|rings]; [now elim (Hnp c)| |];
    (apply in_flat_map; exists x; split; [now apply In_range|];
     apply in_map_iff; exists y; split; [reflexivity|now apply In_range]).
Qed.

Lemma floor_div_max_le (a b c : R) :
  a <= c -> b <= c ->
  (floor (Rmax a b / gridSize) <= ceil (c / gridSize))%Z.
Proof.
  intros Ha Hb. apply floor_le_ceil, div_gridSize_le. now apply Rmax_lub.
Qed.

(** A stored feature that intersects a box whose sides are in order is
    found by [query]. *)
Lemma query_finds idx bounds f :
  registered idx ->
  ordered bounds ->
  JSMap.get (features idx) (id f) = Some f ->
  featureIntersectsBounds f bounds = true ->
  In f (query idx bounds).
Proof.
  intros Hreg [Hsn Hwe] Hget Hint.
  destruct (geometry f) as [c|cs|rings] eqn:Hgeo.
  - apply query_finds_point with (c := c); auto.
    unfold featureIntersectsBounds in Hint. now rewrite Hgeo in Hint.
  - assert (Hnp : forall c, geometry f <> Point c) by (intros c H; congruence).
    destruct (Hreg _ _ Hget) as [_ Hkeys].
    unfold featureIntersectsBounds in Hint. rewrite Hgeo in Hint.
    pose proof (getFeatureBounds_spec f) as Hfb.
    destruct (getFeatureBounds f) as [fb|] eqn:Efb; [|discriminate].
    apply tightAround_ordered in Hfb. destruct Hfb as [Hfsn Hfwe].
    rewrite negb_true_iff, !orb_false_iff, !ltb_ge in Hint.
    destruct Hint as [[[H1 H2] H3] H4].
    apply query_complete with (i := id f); auto.
    + apply candidateIds_complete
        with (x := floor (Rmax (west fb) (west bounds) / gridSize))
             (y := floor (Rmax (south fb) (south bounds) / gridSize)).
      * split; [apply floor_le_floor, div_gridSize_le, Rmax_r
               | now apply floor_div_max_le].
      * split; [apply floor_le_floor, div_gridSize_le, Rmax_r
               | now apply floor_div_max_le].
      * apply Hkeys. apply getGridKeys_box with (fb := fb); auto.
        -- split; [apply floor_le_floor, div_gridSize_le, Rmax_l
                  | now apply floor_div_max_le].
        -- split; [apply floor_le_floor, div_gridSize_le, Rmax_l
                  | now apply floor_div_max_le].
    + unfold featureIntersectsBounds. rewrite Hgeo, Efb.
      rewrite negb_true_iff, !orb_false_iff, !ltb_ge. auto.
  - assert (Hnp : forall c, geometry f <> Point c) by (intros c H; congruence).
    destruct (Hreg _ _ Hget) as [_ Hkeys].
    unfold featureIntersectsBounds in Hint. rewrite Hgeo in Hint.
    pose proof (getFeatureBounds_spec f) as Hfb.
    destruct (getFeatureBounds f) as [fb|] eqn:Efb; [|discriminate].
    apply tightAround_ordered in Hfb. destruct Hfb as [Hfsn Hfwe].
    rewrite negb_true_iff, !orb_false_iff, !ltb_ge in Hint.
    destruct Hint as [[[H1 H2] H3] H4].
    apply query_complete with (i := id f); auto.
    + apply candidateIds_complete
        with (x := floor (Rmax (west fb) (west bounds) / gridSize))
             (y := floor (Rmax (south fb) (south bounds) / gridSize)).
      * split; [apply floor_le_floor, div_gridSize_le, Rmax_r
               | now apply floor_div_max_le].
      * split; [apply floor_le_floor, div_gridSize_le, Rmax_r
               | now apply floor_div_max_le].
      * apply Hkeys. apply getGridKeys_box with (fb := fb); auto.
        -- split; [apply floor_le_floor, div_gridSize_le, Rmax_l
                  | now apply floor_div_max_le].
        -- split; [apply floor_le_floor, div_gridSize_le, Rmax_l
                  | now apply floor_div_max_le].
    + unfold featureIntersectsBounds. rewrite Hgeo, Efb.
      rewrite negb_true_iff, !orb_false_iff, !ltb_ge. auto.
Qed.

(** What [query] returns, as a set. *)
Lemma query_iff idx bounds f :
  registered idx ->
  ordered bounds ->
  In f (query idx bounds) <->
  JSMap.get (features idx) (id f) = Some f /\ featureIntersectsBounds f bounds = true.
Proof.
  intros Hreg Hord. split.
  - intros H. apply query_sound in H. destruct H as [Hint [i Hi]].
    destruct (Hreg _ _ Hi) as [Hid _]. subst i. auto.
  - intros [Hget Hint]. now apply query_finds.
Qed.

(** X4.  In an index built by any sequence of calls, and for a box whose
    sides are in order, [query] returns exactly the stored features that
    pass the intersection test, whatever their geometry: none is missed
    because of the grid, and nothing else is returned. *)
Theorem query_returns_exactly_the_intersecting_features ops bounds f :
  ordered bounds ->
  In f (query (run ops) bounds) <->
  JSMap.get (features (run ops)) (id f) = Some f /\
  featureIntersectsBounds f bounds = true.
Proof.
  intros Hord. apply query_iff; auto. apply registered_run.
Qed.

Lemma query_returns_exactly_the_intersecting_features_witness :
  let box := {| north := 1; south := -1; east := 1; west := -1 |} in
  In Scenarios.siteBefore (query (run [OpInsert Scenarios.siteBefore]) box) <->
  JSMap.get (features (run [OpInsert Scenarios.siteBefore])) (id Scenarios.siteBefore) =
    Some Scenarios.siteBefore /\
  featureIntersectsBounds Scenarios.siteBefore box = true.
Proof.
  cbv zeta.
  apply (@query_returns_exactly_the_intersecting_features
           [OpInsert Scenarios.siteBefore]
           {| north := 1; south := -1; east := 1; west := -1 |}
           Scenarios.siteBefore).
  split; cbn [north south east west]; lra.
Defined.

Lemma NoDup_set_add s x : NoDup s -> NoDup (JSSet.add s x).
Proof.
  intros H. unfold JSSet.add. destruct (JSSet.has s x) eqn:E; auto.
  apply NoDup_app; auto.
  - constructor; [intros []|constructor].
  - intros y Hy [<-|[]]. apply set_has_iff in Hy. congruence.
Qed.

Lemma NoDup_set_addAll xs : forall s, NoDup s -> NoDup (JSSet.addAll s xs).
Proof.
  induction xs as [|x xs IH]; intros s H; simpl; auto.
  apply IH. now apply NoDup_set_add.
Qed.

Lemma NoDup_scanCells idx x ys : forall acc,
  NoDup acc -> NoDup (fold_left (scanCell idx x) ys acc).
Proof.
  induction ys as [|y ys IH]; intros acc H; simpl; auto.
  apply IH. unfold scanCell.
  destruct (JSMap.get (spatialGrid idx) (gridKey x y)); auto.
  now apply NoDup_set_addAll.
Qed.

Lemma NoDup_candidateIds idx bounds : NoDup (candidateIds idx bounds).
Proof.
  unfold candidateIds.
  generalize (range (floor (south bounds / gridSize)) (ceil (north bounds / gridSize))).
  intros ys.
  assert (H : forall xs acc, NoDup acc ->
            NoDup (fold_left (fun acc x => fold_left (scanCell idx x) ys acc) xs acc)).
  { induction xs as [|x xs IH]; intros acc Hacc; simpl; auto.
    apply IH. now apply NoDup_scanCells. }
  apply H. constructor.
Qed.

Lemma NoDup_lookups idx bounds ids :
  registered idx ->
  NoDup ids ->
  NoDup
    (flat_map
       (fun i =>
          match JSMap.get (features idx) i with
          | Some feature =>
              if featureIntersectsBounds feature bounds then [feature] else []
          | None => []
          end)
       ids).
Proof.
  intros Hreg. induction ids as [|i ids IH]; intros Hnd; simpl.
  - constructor.
  - inversion Hnd as [|? ? Hni Hnd']; subst.
    apply NoDup_app; auto.
    + destruct (JSMap.get (features idx) i) as [g|]; [|constructor].
      destruct (featureIntersectsBounds g bounds); repeat constructor. intros [].
    + intros f Hf Hin.
      destruct (JSMap.get (features idx) i) as [g|] eqn:Eg; [|destruct Hf].
      destruct (featureIntersectsBounds g bounds); [|destruct Hf].
      destruct Hf as [<-|[]].
      apply in_flat_map in Hin. destruct Hin as [j [Hj Hin]].
      destruct (JSMap.get (features idx) j) as [h|] eqn:Eh; [|destruct Hin].
      destruct (featureIntersectsBounds h bounds); [|destruct Hin].
      destruct Hin as [<-|[]].
      destruct (Hreg _ _ Eg) as [Hi _]. destruct (Hreg _ _ Eh) as [Hj' _].
      congruence.
Qed.

(** X5.  In an index built by any sequence of calls, [query] returns no
    feature twice, although a feature that spans several cells, or one
    that left stale entries behind, is met in several cells. *)
Theorem query_returns_no_feature_twice ops bounds : NoDup (query (run ops) bounds).
Proof.
  unfold query. apply NoDup_lookups.
  - apply registered_run.
  - apply NoDup_candidateIds.
Qed.

(** X6.  Removing an id takes exactly the feature stored under it out of
    the result of every query, stale grid entries notwithstanding, and
    removing an id that is not stored returns [false] and leaves the index
    as it is. *)
Theorem remove_takes_feature_out_of_queries ops i bounds f :
  ordered bounds ->
  (In f (query (snd (remove i (run ops))) bounds) <->
   In f (query (run ops) bounds) /\ id f <> i) /\
  (JSMap.get (features (run ops)) i = None -> remove i (run ops) = (false, run ops)).
Proof.
  intros Hord. split.
  - pose proof (registered_run ops) as Hreg.
    pose proof (registered_remove i Hreg) as Hreg'.
    rewrite (query_iff f Hreg' Hord), (query_iff f Hreg Hord).
    destruct (JSMap.get (features (run ops)) i) as [g|] eqn:Eg.
    + rewrite (remove_stored _ _ Eg). cbn [snd features].
      destruct (string_dec (id f) i) as [E|E].
      * rewrite E, get_delete_same. split; [intros [H _]; discriminate|tauto].
      * rewrite get_delete_other by auto. tauto.
    + unfold remove. rewrite Eg. cbn [snd].
      split; [|tauto]. intros [H1 H2]. repeat split; auto. congruence.
  - intros H. unfold remove. now rewrite H.
Qed.

Lemma remove_takes_feature_out_of_queries_witness :
  let box := {| north := 1; south := -1; east := 1; west := -1 |} in
  (In Scenarios.citySF
      (query (snd (remove "site" (run [OpInsert Scenarios.siteBefore]))) box) <->
   In Scenarios.citySF (query (run [OpInsert Scenarios.siteBefore]) box) /\
   id Scenarios.citySF <> "site"%string) /\
  (JSMap.get (features (run [OpInsert Scenarios.siteBefore])) "site" = None ->
   remove "site" (run [OpInsert Scenarios.siteBefore]) =
   (false, run [OpInsert Scenarios.siteBefore])).
Proof.
  cbv zeta.
  apply (@remove_takes_feature_out_of_queries
           [OpInsert Scenarios.siteBefore] "site"
           {| north := 1; south := -1; east := 1; west := -1 |} Scenarios.citySF).
  split; cbn [north south east west]; lra.
Defined.

(** X7.  Inserting a feature puts it into the result of exactly the
    queries whose box it intersects, and takes the feature that was stored
    under its id before out of all results; every other feature is
    returned as before. *)
Theorem insert_replaces_feature_in_queries ops g bounds f :
  ordered bounds ->
  In f (query (insert g (run ops)) bounds) <->
  (f = g /\ featureIntersectsBounds g bounds = true) \/
  (In f (query (run ops) bounds) /\ id f <> id g).
Proof.
  intros Hord.
  pose proof (registered_run ops) as Hreg.
  pose proof (registered_insert g Hreg) as Hreg'.
  rewrite (query_iff f Hreg' Hord), (query_iff f Hreg Hord).
  unfold insert; cbn [features].
  destruct (string_dec (id f) (id g)) as [E|E].
  - rewrite E, get_set_same. split.
    + intros [H1 H2]. left. inversion H1; subst. auto.
    + intros [[-> H]|[_ H]]; [auto|contradiction].
  - rewrite get_set_other by auto. split.
    + intros H. right. tauto.
    + intros [[-> H]|[H _]]; [contradiction|auto].
Qed.

Lemma insert_replaces_feature_in_queries_witness :
  let box := {| north := 1; south := -1; east := 1; west := -1 |} in
  In Scenarios.siteBefore
     (query (insert Scenarios.siteAfter (run [OpInsert Scenarios.siteBefore])) box) <->
  (Scenarios.siteBefore = Scenarios.siteAfter /\
   featureIntersectsBounds Scenarios.siteAfter box = true) \/
  (In Scenarios.siteBefore (query (run [OpInsert Scenarios.siteBefore]) box) /\
   id Scenarios.siteBefore <> id Scenarios.siteAfter).
Proof.
  cbv zeta.
  apply (@insert_replaces_feature_in_queries
           [OpInsert Scenarios.siteBefore] Scenarios.siteAfter
           {| north := 1; south := -1; east := 1; west := -1 |} Scenarios.siteBefore).
  split; cbn [north south east west]; lra.
Defined.

Lemma set_get_same {V} (m : JSMap.t V) k v :
  JSMap.get m k = Some v -> JSMap.set m k v = m.
Proof.
  induction m as [|[k' v'] m IH]; simpl; [discriminate|].
  destruct (String.eqb k k') eqn:E.
  - intros H. inversion H. reflexivity.
  - intros H. now rewrite IH.
Qed.

Lemma delete_set_fresh {V} (m : JSMap.t V) k v :
  JSMap.get m k = None -> JSMap.delete (JSMap.set m k v) k = m.
Proof.
  unfold JSMap.delete.
  induction m as [|[k' v'] m IH]; simpl.
  - intros _. now rewrite String.eqb_refl.
  - destruct (String.eqb k k') eqn:E; [discriminate|].
    intros H. simpl. rewrite E. simpl. now rewrite IH.
Qed.

Lemma set_twice {V} (m : JSMap.t V) k v v' :
  JSMap.set (JSMap.set m k v) k v' = JSMap.set m k v'.
Proof.
  induction m as [|[k' w] m IH]; simpl.
  - now rewrite String.eqb_refl.
  - destruct (String.eqb k k') eqn:E; simpl; rewrite E; [reflexivity|].
    now rewrite IH.
Qed.

Lemma delete_fresh (cell : JSSet.t) i :
  ~ In i cell -> JSSet.delete (cell ++ [i]) i = cell.
Proof.
  intros Hni. unfold JSSet.delete. rewrite filter_app. simpl.
  rewrite String.eqb_refl. simpl. rewrite app_nil_r.
  induction cell as [|x cell IH]; simpl; auto.
  destruct (String.eqb i x) eqn:E.
  - apply String.eqb_eq in E. subst. elim Hni. now left.
  - simpl. rewrite IH; auto. intros H. apply Hni. now right.
Qed.

(** Filing an id in one cell and taking it out again. *)
Lemma removeFromCell_addToCell i grid key :
  (forall cell, JSMap.get grid key = Some cell -> cell <> [] /\ ~ In i cell) ->
  removeFromCell i (addToCell i grid key) key = grid.
Proof.
  intros H. unfold addToCell, JSMap.has. unfold JSSet.t in *.
  destruct (JSMap.get grid key) as [cell|] eqn:E; cbn [negb].
  - destruct (H cell eq_refl) as [Hne Hni].
    rewrite E. unfold removeFromCell. rewrite get_set_same.
    unfold JSSet.add. destruct (JSSet.has cell i) eqn:Ehas.
    { apply set_has_iff in Ehas. contradiction. }
    rewrite delete_fresh by auto.
    destruct cell as [|x cell]; [congruence|]. cbn [JSSet.size List.length Nat.eqb].
    rewrite set_twice. now apply set_get_same.
  - rewrite get_set_same. unfold removeFromCell. rewrite get_set_same.
    cbn [JSSet.add JSSet.has JSSet.empty existsb app JSSet.delete filter].
    rewrite String.eqb_refl. cbn [negb JSSet.size List.length Nat.eqb].
    rewrite set_twice. now apply delete_set_fresh.
Qed.

(** X8.  Inserting a point feature under an id that is not stored, into an
    index whose cell for that point neither is empty nor holds the id,
    and removing the id again restores the index exactly: the feature
    map and every grid cell are as before. *)
Theorem insert_then_remove_restores_index f c idx :
  geometry f = Point c ->
  JSMap.get (features idx) (id f) = None ->
  (forall key cell,
      In key (getGridKeys f) ->
      JSMap.get (spatialGrid idx) key = Some cell -> cell <> [] /\ ~ In (id f) cell) ->
  remove (id f) (insert f idx) = (true, idx).
Proof.
  intros Hgeo Hfresh Hcells.
  assert (Hget : JSMap.get (features (insert f idx)) (id f) = Some f).
  { unfold insert; cbn [features]. apply get_set_same. }
  rewrite (remove_stored _ _ Hget). f_equal.
  destruct idx as [fs grid]. unfold insert; cbn [features spatialGrid] in *.
  f_equal.
  - now apply delete_set_fresh.
  - unfold getGridKeys in *. rewrite Hgeo in *. cbn [fold_left].
    apply removeFromCell_addToCell. intros cell Hcell.
    eapply Hcells; [|exact Hcell]. now left.
Qed.

Lemma insert_then_remove_restores_index_witness :
  remove (id Scenarios.siteAfter) (insert Scenarios.siteAfter empty) = (true, empty).
Proof.
  apply (@insert_then_remove_restores_index Scenarios.siteAfter
           {| latitude := 1; longitude := 1 |} empty).
  - reflexivity.
  - reflexivity.
  - intros key cell _ H. discriminate H.
Defined.

End IndexProps.

(** ** The vector store: similarity, ranking and candidates *)

Module SearchProps.
Import Doc SpatialUtils VectorStore Ranking ScoringProps UtilsProps.







Section Searching.
Context {host : Host}.

Lemma scoreCandidate_ok st qe q i r :
  scoreCandidate st qe q i = Ok (Some r) ->
  exists e,
    JSMap.get (documents st) i = Some (document r) /\
    JSMap.get (embeddings st) i = Some e /\
    cosineSimilarity qe e = Ok (similarity r) /\
    spatialRelevance r = calculateSpatialRelevance (document r) q /\
    combinedScore r =
      combineScores (similarity r) (spatialRelevance r)
        (orDefault (spatialWeight q) (optSpatialWeight (options st))).
Proof.
  unfold scoreCandidate.
  destruct (JSMap.get (documents st) i) as [d|]; [|discriminate].
  destruct (JSMap.get (embeddings st) i) as [e|]; [|discriminate].
  destruct (cosineSimilarity qe e) as [s|m] eqn:Es; simpl; [|discriminate].
  intros [= <-]. exists e. simpl. repeat split; auto.
Qed.

Lemma scoreAll_In st qe q candidates :
  forall results out,
    scoreAll st qe q candidates results = Ok out ->
    forall r, In r out ->
              In r results \/
              exists i, In i candidates /\ scoreCandidate st qe q i = Ok (Some r).
Proof.
  induction candidates as [|c cs IH]; intros results out H r Hr; simpl in H.
  - inversion H; subst. now left.
  - destruct (scoreCandidate st qe q c) as [x|m] eqn:E; simpl in H; [|discriminate].
    destruct (IH _ _ H r Hr) as [Hin|[i [Hi Hs]]].
    + destruct x as [x|]; auto.
      apply in_app_or in Hin. destruct Hin as [Hin|[<-|[]]]; auto.
      right. exists c. split; [now left|assumption].
    + right. exists i. split; [now right|assumption].
Qed.


Lemma In_insertByScore x r sorted :
  In r (insertByScore x sorted) <-> r = x \/ In r sorted.
Proof.
  induction sorted as [|y rest IH]; simpl.
  - intuition.
  - destruct (ltb (combinedScore x) (combinedScore y)); simpl; rewrite ?IH; intuition.
Qed.

Lemma In_sortByScore r results : In r (sortByScore results) <-> In r results.
Proof.
  unfold sortByScore. induction results as [|x rest IH]; simpl; [tauto|].
  rewrite In_insertByScore, IH. intuition.
Qed.






(** X12.  Every result of [search] is a candidate document that is stored
    with an embedding; its similarity is the cosine similarity of the query
    embedding and the stored one, its spatial relevance is that of the
    document, and its combined score weighs the two with the spatial weight
    of the query or, by default, of the store. *)
Theorem search_result_is_a_scored_candidate st qe q results r :
  search st qe q = Ok results ->
  In r results ->
  exists docId e,
    In docId (getCandidateDocuments st q) /\
    JSMap.get (documents st) docId = Some (document r) /\
    JSMap.get (embeddings st) docId = Some e /\
    cosineSimilarity qe e = Ok (similarity r) /\
    spatialRelevance r = calculateSpatialRelevance (document r) q /\
    combinedScore r =
      combineScores (similarity r) (spatialRelevance r)
        (orDefault (spatialWeight q) (optSpatialWeight (options st))).
Proof.
  unfold search. intros H Hr.
  destruct (scoreAll st qe q (getCandidateDocuments st q) []) as [scored|m] eqn:E;
    simpl in H; [|discriminate].
  inversion H; subst; clear H.
  assert (Hr' : In r (sortByScore scored)).
  { rewrite <- (firstn_skipn (maxResults (options st)) (sortByScore scored)).
    apply in_or_app. now left. }
  apply (proj1 (In_sortByScore _ _)) in Hr'. clear Hr. rename Hr' into Hr.
  destruct (scoreAll_In _ _ _ _ _ E r Hr) as [[]|[i [Hi Hs]]].
  apply scoreCandidate_ok in Hs. destruct Hs as [e Hs].
  exists i, e. tauto.
Qed.



Lemma In_keys {V} (m : JSMap.t V) k : In k (JSMap.keys m) -> JSMap.has m k = true.
Proof.
  unfold JSMap.has, JSMap.keys.
  induction m as [|[k' v] m IH]; simpl; [intros []|].
  destruct (String.eqb k k') eqn:E; auto.
  intros [H|H]; auto. subst. now rewrite String.eqb_refl in E.
Qed.



End Searching.

Lemma search_result_is_a_scored_candidate_witness :
  let st := addDocument Scenarios.depot (create RAGEngine.defaultOptions) in
  exists results r,
    search (host := Scenarios.plainHost) st [1; 0] Scenarios.plainQuery = Ok results /\
    In r results /\
    exists docId e,
      In docId (getCandidateDocuments (host := Scenarios.plainHost) st Scenarios.plainQuery) /\
      JSMap.get (documents st) docId = Some (document r) /\
      JSMap.get (embeddings st) docId = Some e /\
      cosineSimilarity [1; 0] e = Ok (similarity r) /\
      spatialRelevance r = calculateSpatialRelevance (document r) Scenarios.plainQuery /\
      combinedScore r =
        combineScores (similarity r) (spatialRelevance r)
          (orDefault (spatialWeight Scenarios.plainQuery) (optSpatialWeight (options st))).
Proof.
  cbv zeta. eexists. eexists.
  assert (H : search (host := Scenarios.plainHost)
                     (addDocument Scenarios.depot (create RAGEngine.defaultOptions))
                     [1; 0] Scenarios.plainQuery = Ok [_]) by reflexivity.
  split; [exact H|]. split; [now left|].
  exact (search_result_is_a_scored_candidate _ _ _ _ H (or_introl eq_refl)).
Defined.



End SearchProps.

(** ** The vector store and the retrieval engine: documents *)

Module StoreProps.
Import Doc Embeddings VectorStore RAGEngine RAGProps IndexProps SearchProps.

Lemma delete_absent {V} (m : JSMap.t V) k :
  JSMap.get m k = None -> JSMap.delete m k = m.
Proof.
  unfold JSMap.delete. induction m as [|[k' v] m IH]; simpl; auto.
  destruct (String.eqb k k') eqn:E; [discriminate|].
  intros H. simpl. now rewrite IH.
Qed.

Lemma removeFirst_fresh i cell :
  ~ In i cell -> removeFirst i (cell ++ [i]) = cell.
Proof.
  induction cell as [|x cell IH]; simpl; intros Hni.
  - now rewrite String.eqb_refl.
  - destruct (String.eqb i x) eqn:E.
    + apply String.eqb_eq in E. subst. elim Hni. now left.
    + rewrite IH; auto.
Qed.

Lemma existsb_last i cell : existsb (String.eqb i) (cell ++ [i]) = true.
Proof.
  rewrite existsb_app. simpl. rewrite String.eqb_refl. now rewrite orb_true_r.
Qed.

(** Filing a document in the cell of its location and taking it out
    again. *)
Lemma removeFromSpatialIndex_addToSpatialIndex docId loc grid :
  (forall cell,
      JSMap.get grid
        (gridKey (floor (longitude loc / 0.1)) (floor (latitude loc / 0.1))) = Some cell ->
      cell <> [] /\ ~ In docId cell) ->
  removeFromSpatialIndex docId loc (addToSpatialIndex docId loc grid) = grid.
Proof.
  unfold removeFromSpatialIndex, addToSpatialIndex. cbv zeta.
  set (key := gridKey (floor (longitude loc / 0.1)) (floor (latitude loc / 0.1))).
  intros H. unfold JSMap.has.
  destruct (JSMap.get grid key) as [cell|] eqn:E; cbn [negb].
  - destruct (H cell eq_refl) as [Hne Hni].
    rewrite E, get_set_same, existsb_last, removeFirst_fresh by auto.
    destruct cell as [|x cell]; [congruence|]. cbn [List.length Nat.eqb].
    rewrite set_twice. now apply set_get_same.
  - rewrite get_set_same, set_twice, get_set_same.
    cbn [app existsb removeFirst]. rewrite String.eqb_refl.
    cbn [orb List.length Nat.eqb]. now apply delete_set_fresh.
Qed.

(** X15.  Adding a document under an id that the store does not know, to a
    store whose grid cell for the location of the document neither is empty
    nor holds the id, and removing the id again restores the store exactly:
    documents, embeddings and grid are as before. *)
Theorem addDocument_then_removeDocument_restores_store d st :
  JSMap.get (documents st) (id d) = None ->
  JSMap.get (embeddings st) (id d) = None ->
  (forall loc cell,
      location (metadata d) = Some loc ->
      JSMap.get (spatialIndex st)
        (gridKey (floor (longitude loc / 0.1)) (floor (latitude loc / 0.1))) = Some cell ->
      cell <> [] /\ ~ In (id d) cell) ->
  removeDocument (id d) (addDocument d st) = (true, st).
Proof.
  intros Hd He Hcell. unfold removeDocument.
  assert (Hget : JSMap.get (documents (addDocument d st)) (id d) = Some d).
  { unfold addDocument; cbn [documents]. apply get_set_same. }
  rewrite Hget. f_equal.
  destruct st as [docs embs grid opts].
  unfold addDocument; cbn [documents embeddings spatialIndex options] in *.
  f_equal.
  - now apply delete_set_fresh.
  - destruct (embedding d); [now apply delete_set_fresh|now apply delete_absent].
  - destruct (location (metadata d)) as [loc|]; auto.
    apply removeFromSpatialIndex_addToSpatialIndex. intros cell. now apply Hcell.
Qed.

Lemma addDocument_then_removeDocument_restores_store_witness :
  removeDocument (id Scenarios.depot)
    (addDocument Scenarios.depot (VectorStore.create defaultOptions)) =
  (true, VectorStore.create defaultOptions).
Proof.
  apply (@addDocument_then_removeDocument_restores_store
           Scenarios.depot (VectorStore.create defaultOptions)).
  - reflexivity.
  - reflexivity.
  - intros loc cell _ H. discriminate H.
Defined.








Lemma sumScores_from sources :
  Forall (fun s => 0 <= combinedScore s) sources ->
  forall acc, 0 <= acc -> 0 <= fold_left (fun sum s => sum + combinedScore s) sources acc.
Proof.
  induction 1 as [|s rest Hs Hrest IH]; intros acc Hacc; simpl; auto.
  apply IH. lra.
Qed.

(** The confidence of a response is at most 1, and when no source has a
    negative score it is at least 0.02 as soon as there is a source. *)
Lemma calculateConfidence_bounds sources :
  calculateConfidence sources <= 1 /\
  (Forall (fun s => 0 <= combinedScore s) sources ->
   sources <> [] ->
   0.02 <= calculateConfidence sources).
Proof.
  split.
  - unfold calculateConfidence. destruct sources; [lra|]. apply Rmin_l.
  - intros Hpos Hne. unfold calculateConfidence.
    destruct sources as [|s rest]; [congruence|].
    set (n := List.length (s :: rest)).
    assert (Hn : 1 <= INR n).
    { unfold n. cbn [List.length]. rewrite S_INR. pose proof (pos_INR (List.length rest)). lra. }
    assert (Hsum : 0 <= sumScores (s :: rest)).
    { unfold sumScores. apply sumScores_from; auto. lra. }
    assert (Havg : 0 <= sumScores (s :: rest) / INR n).
    { unfold Rdiv. apply Rmult_le_pos; auto. left. apply Rinv_0_lt_compat. lra. }
    assert (Hbonus : 0.2 <= Rmin (INR n / 5) 1).
    { apply Rmin_glb; lra. }
    apply Rmin_glb; lra.
Qed.

Lemma toInt32_range z : (- 2 ^ 31 <= toInt32 z < 2 ^ 31)%Z.
Proof.
  unfold toInt32.
  pose proof (Z.mod_pos_bound (z + 2 ^ 31) (2 ^ 32) ltac:(lia)). lia.
Qed.

Lemma hashStep_range hash c : (- 2 ^ 31 <= hashStep hash c < 2 ^ 31)%Z.
Proof.
  unfold hashStep. cbv zeta. rewrite Z.land_diag. apply toInt32_range.
Qed.

(** [simpleHash] returns a whole number between 0 and 2^31, for
    every string: each step keeps the running hash a 32-bit integer. *)
Theorem simpleHash_range str : (0 <= simpleHash str <= 2 ^ 31)%Z.
Proof.
  unfold simpleHash.
  assert (H : forall cs h, (- 2 ^ 31 <= h < 2 ^ 31)%Z ->
                           (- 2 ^ 31 <= fold_left hashStep cs h < 2 ^ 31)%Z).
  { induction cs as [|c cs IH]; intros h Hh; simpl; auto.
    apply IH, hashStep_range. }
  specialize (H (list_ascii_of_string str) 0%Z ltac:(lia)). lia.
Qed.

End StoreProps.

(** ** The parser: spans, intent and spatial constraints *)

Module ParsingProps.
Import Regex RegexProps Query Parser ParserProps.

Lemma scan_span re rest :
  forall prev pos m,
    scan re prev rest pos = Some m ->
    (pos <= index m /\ index m + minLength (pattern re) <= stop m /\
     stop m <= pos + List.length rest)%nat.
Proof.
  induction rest as [|c rest IH]; intros prev pos m H; simpl in H.
  - destruct (run _ _ _ _ _ _ _) as [[e caps]|] eqn:E; [|discriminate].
    injection H as <-. simpl. apply run_advances in E.
    destruct E as [p1 [t1 [n1 [c1 [E [Hlow Hlen]]]]]].
    injection E as <- _. simpl in *. lia.
  - destruct (run _ _ _ _ _ _ _) as [[e caps]|] eqn:E.
    + injection H as <-. simpl. apply run_advances in E.
      destruct E as [p1 [t1 [n1 [c1 [E [Hlow Hlen]]]]]].
      injection E as <- _. simpl in *. lia.
    + apply IH in H. simpl. lia.
Qed.

Lemma exec_span re text lastIndex m :
  (lastIndex <= String.length text)%nat ->
  exec re text lastIndex = Some m ->
  (lastIndex <= index m /\ index m + minLength (pattern re) <= stop m /\
   stop m <= String.length text)%nat.
Proof.
  intros Hle H. unfold exec in H.
  destruct (advance lastIndex None (list_ascii_of_string text)) as [prev rest] eqn:E.
  apply advance_length in E. rewrite length_list_ascii in E.
  apply scan_span in H. lia.
Qed.

Lemma execLoop_spans re text :
  forall fuel lastIndex ms,
    (lastIndex <= String.length text)%nat ->
    execLoop fuel re text lastIndex = Some ms ->
    Forall (fun m => (lastIndex <= index m /\
                      index m + minLength (pattern re) <= stop m /\
                      stop m <= String.length text)%nat) ms.
Proof.
  induction fuel as [|fuel IH]; intros lastIndex ms Hle H; simpl in H; [discriminate|].
  destruct (exec re text lastIndex) as [m|] eqn:E.
  - destruct (execLoop fuel re text (stop m)) as [ms'|] eqn:E'; [|discriminate].
    injection H as <-. apply exec_span in E; auto.
    constructor; auto.
    apply IH in E'; [|lia].
    eapply Forall_impl; [|exact E']. intros m'. simpl. lia.
  - injection H as <-. constructor.
Qed.

Lemma execAll_spans re text :
  Forall (fun m => (index m + minLength (pattern re) <= stop m /\
                    stop m <= String.length text)%nat)
         (execAll re text).
Proof.
  unfold execAll.
  destruct (execLoop (S (S (String.length text))) re text 0) as [ms|] eqn:E;
    [|constructor].
  apply execLoop_spans in E; [|lia].
  eapply Forall_impl; [|exact E]. intros m. simpl. lia.
Qed.

(** The matches of an expression that consumes a character have a span
    inside the text that is not empty. *)
Lemma matches_span re text :
  (1 <= minLength (pattern re))%nat ->
  Forall (fun m => (index m < stop m <= String.length text)%nat) (execAll re text).
Proof.
  intros Hmin. eapply Forall_impl; [|apply execAll_spans].
  intros m. simpl. lia.
Qed.

Lemma patterns_progress :
  Forall (fun re => (1 <= minLength (pattern re))%nat) LOCATION_PATTERNS /\
  (1 <= minLength (pattern coordPattern))%nat /\
  Forall (fun ft => (1 <= minLength (pattern (featureTypePattern ft)))%nat) FEATURE_TYPES /\
  Forall (fun re => (1 <= minLength (pattern re))%nat) DISTANCE_PATTERNS.
Proof.
  pose proof parser_patterns_progress as H.
  rewrite !Forall_app in H. destruct H as (H1 & H2 & H3 & H4 & _).
  repeat split; auto.
  - inversion H2; assumption.
  - repeat constructor; simpl; lia.
Qed.

(** X17.  Every entity that [extractEntities] returns carries a span that
    lies inside the query text and is not empty: its start is before its
    end, and its end is at most the length of the text. *)
Theorem extractEntities_spans queryText :
  Forall (fun e => (positionStart e < positionEnd e <= String.length queryText)%nat)
         (extractEntities queryText).
Proof.
  destruct patterns_progress as (Hloc & Hcoord & Hft & Hdist).
  unfold extractEntities. rewrite !Forall_app. repeat split.
  - apply Forall_flat_map. eapply Forall_impl; [|exact Hloc].
    intros re Hre. unfold locationEntities. apply Forall_flat_map.
    eapply Forall_impl; [|apply (@matches_span _ queryText Hre)].
    intros m Hm. destruct (_ && _); constructor; auto.
  - unfold coordinateEntities. apply Forall_flat_map.
    eapply Forall_impl; [|apply (@matches_span _ queryText Hcoord)].
    intros m Hm. destruct (_ && _); constructor; auto.
  - apply Forall_flat_map. eapply Forall_impl; [|exact Hft].
    intros ft Hre. unfold featureTypeEntities. apply Forall_map.
    eapply Forall_impl; [|apply (@matches_span _ queryText Hre)].
    intros m Hm. exact Hm.
  - apply Forall_flat_map. eapply Forall_impl; [|exact Hdist].
    intros re Hre. unfold measurementEntities. apply Forall_map.
    eapply Forall_impl; [|apply (@matches_span _ queryText Hre)].
    intros m Hm. exact Hm.
Qed.

(** The fold of [extractIntent] keeps the first entry of the greatest
    score, when that score exceeds the one it starts from. *)
Lemma best_of queryText entries :
  forall best,
    let step :=
      fun (best : IntentType * nat) (entry : IntentType * list string) =>
        let score := keywordScore queryText (snd entry) in
        if Nat.ltb (snd best) score then (fst entry, score) else best in
    let res := fold_left step entries best in
    (res = best /\
     forall e, In e entries -> (keywordScore queryText (snd e) <= snd best)%nat) \/
    (exists before keywords after,
        entries = before ++ (fst res, keywords) :: after /\
        (snd best < keywordScore queryText keywords)%nat /\
        (forall e, In e before ->
                   (keywordScore queryText (snd e) < keywordScore queryText keywords)%nat) /\
        (forall e, In e after ->
                   (keywordScore queryText (snd e) <= keywordScore queryText keywords)%nat)).
Proof.
  cbv zeta. induction entries as [|[t kws] entries IH]; intros best; simpl.
  - left. split; auto. intros e [].
  - destruct (Nat.ltb (snd best) (keywordScore queryText kws)) eqn:E.
    + apply Nat.ltb_lt in E. right.
      destruct (IH (t, keywordScore queryText kws)) as [[Hres Hall]|Hdec].
      * exists [], kws, entries. rewrite Hres. simpl. repeat split; auto.
        intros e [].
      * destruct Hdec as (before & kws' & after & Heq & Hlt & Hb & Ha).
        simpl in Hlt.
        exists ((t, kws) :: before), kws', after. repeat split; auto.
        -- simpl. now rewrite <- Heq.
        -- lia.
        -- intros e [<-|He]; simpl; [lia|auto].
    + apply Nat.ltb_ge in E.
      destruct (IH best) as [[Hres Hall]|Hdec].
      * left. split; auto. intros e [<-|He]; simpl; auto.
      * right. destruct Hdec as (before & kws' & after & Heq & Hlt & Hb & Ha).
        exists ((t, kws) :: before), kws', after. repeat split; auto.
        -- simpl. now rewrite <- Heq.
        -- intros e [<-|He]; simpl; [lia|auto].
Qed.

(** X18.  The intent that [extractIntent] returns is the first entry of
    the keyword table with the greatest score: every entry before it
    scores strictly less, every entry after it scores at most as much.
    In particular the intent is [search], the first entry, when no keyword
    occurs. *)
Theorem extractIntent_picks_first_best queryText :
  (exists before keywords after,
      INTENT_KEYWORDS =
        before ++ (intentType (extractIntent queryText), keywords) :: after /\
      (forall e, In e before ->
                 (keywordScore queryText (snd e) < keywordScore queryText keywords)%nat) /\
      (forall e, In e after ->
                 (keywordScore queryText (snd e) <= keywordScore queryText keywords)%nat)) /\
  ((forall e, In e INTENT_KEYWORDS -> keywordScore queryText (snd e) = 0%nat) ->
   intentType (extractIntent queryText) = search).
Proof.
  unfold extractIntent. cbv zeta. cbn [intentType].
  destruct (best_of queryText INTENT_KEYWORDS (search, 0%nat)) as [[Hres Hall]|Hdec].
  - cbv zeta in Hres. rewrite Hres. cbn [fst]. split; [|reflexivity].
    exists [], ["find"; "search"; "locate"; "show"; "list"; "get"],
           (tl INTENT_KEYWORDS).
    repeat split.
    + intros e [].
    + intros e He. specialize (Hall e (or_intror He)). simpl in Hall. lia.
  - destruct Hdec as (before & kws & after & Heq & Hlt & Hb & Ha). split.
    + exists before, kws, after. auto.
    + intros Hzero. exfalso.
      assert (Hin : In (fst (fold_left
                        (fun (best : IntentType * nat) (entry : IntentType * list string) =>
                           if Nat.ltb (snd best) (keywordScore queryText (snd entry))
                           then (fst entry, keywordScore queryText (snd entry)) else best)
                        INTENT_KEYWORDS (search, 0%nat)), kws) INTENT_KEYWORDS).
      { rewrite Heq at 2. apply in_or_app. right. now left. }
      specialize (Hzero _ Hin). cbn [snd] in Hzero, Hlt. lia.
Qed.

Lemma isType_location e :
  isType location e = true ->
  (exists name, value e = PlaceName name) \/ (exists c, value e = PlaceCoordinates c).
Proof.
  unfold isType, entityType. destruct (value e); try discriminate; eauto.
Qed.

(** The kinds of constraint, their number, and when there is none. *)
Lemma constraints_kinds queryText entities :
  Forall
    (fun c =>
       (constraintType c = within /\
        geometry c = {| latitude := 0; longitude := 0 |} /\
        exists e name,
          In e entities /\ value e = PlaceName name /\
          parameters c =
            Some {| parameterRadius := None; parameterUnit := None;
                    locationName := Some name |}) \/
       ((exists e, In e entities /\ value e = PlaceCoordinates (geometry c)) /\
        ((constraintType c = point /\ parameters c = None) \/
         (constraintType c = radius /\
          exists p,
            parameters c = Some p /\ locationName p = None /\
            (parameterRadius p = Some 10 \/
             exists m,
               In m entities /\ isType measurement m = true /\
               parameterRadius p = distanceOf m)))))
    (extractSpatialConstraints queryText entities) /\
  (List.length (extractSpatialConstraints queryText entities) <=
   S (List.length (filter (isType location) entities)))%nat /\
  (extractSpatialConstraints queryText entities = [] <->
   filter (isType location) entities = []).
Proof.
  unfold extractSpatialConstraints. cbv zeta.
  set (locs := filter (isType location) entities).
  set (meas := filter (isType measurement) entities).
  assert (Hlocs : forall e, In e locs -> In e entities /\ isType location e = true)
    by (intros e He; apply filter_In in He; exact He).
  assert (Hmeas : forall e, In e meas -> In e entities /\ isType measurement e = true)
    by (intros e He; apply filter_In in He; exact He).
  set (nearby :=
         if JSString.includes queryText "nearby" || JSString.includes queryText "around" ||
            JSString.includes queryText "near"
         then
           match locs with
           | loc :: _ =>
               match value loc with
               | PlaceCoordinates coords =>
                   [{| constraintType := radius; geometry := coords;
                       parameters :=
                         Some {| parameterRadius :=
                                   match meas with
                                   | m :: _ => distanceOf m
                                   | [] => Some 10
                                   end;
                                 parameterUnit := Some km;
                                 locationName := None |} |}]
               | _ => []
               end
           | [] => []
           end
         else []).
  assert (Hnearby_len : (List.length nearby <= 1)%nat).
  { unfold nearby. destruct (_ || _); [|simpl; lia].
    destruct locs as [|loc ?]; [simpl; lia|].
    destruct (value loc); simpl; lia. }
  split; [|split].
  - rewrite Forall_app. split.
    + apply Forall_map, Forall_forall. intros e He.
      destruct (Hlocs e He) as [Hin Hty].
      destruct (isType_location e Hty) as [[name Hv]|[c Hv]]; rewrite Hv.
      * left. cbn [constraintType geometry parameters]. repeat split.
        exists e, name. auto.
      * right.
        destruct (find (fun m => closerThan50 (positionStart m) (positionEnd e)) meas)
          as [m|] eqn:Ef; cbn [constraintType geometry parameters].
        -- split; [exists e; auto|]. right. split; auto.
           eexists; split; [reflexivity|]. cbn [locationName parameterRadius].
           split; auto. right. apply find_some in Ef. destruct Ef as [Hm _].
           destruct (Hmeas m Hm). exists m. auto.
        -- split; [exists e; auto|]. left. auto.
    + fold nearby. unfold nearby. destruct (_ || _); [|constructor].
      destruct locs as [|loc rest] eqn:El; [constructor|].
      assert (Hloc : In loc entities) by (apply Hlocs; now left).
      destruct (value loc) as [| coords | |] eqn:Hv; constructor; [|constructor].
      right. cbn [constraintType geometry parameters].
      split; [exists loc; auto|]. right. split; auto.
      eexists; split; [reflexivity|]. cbn [locationName parameterRadius].
      split; auto.
      destruct meas as [|m ?] eqn:Em; [now left|].
      right. exists m. destruct (Hmeas m (or_introl eq_refl)). auto.
  - fold nearby. rewrite length_app, length_map. lia.
  - fold nearby. split.
    + intros H. apply app_eq_nil in H. destruct H as [H _].
      now apply map_eq_nil in H.
    + intros H. unfold nearby. rewrite H. simpl.
      now destruct (_ || _).
Qed.

(** X19.  What [extractSpatialConstraints] makes of a list of entities:
    a [within] constraint with the placeholder geometry (0, 0) and the
    name, for a named place; for a pair of coordinates a [point]
    constraint, or a [radius] constraint whose radius is the distance of
    a measurement entity or the default of 10.  There is at most one
    constraint more than there are location entities, and there is none
    exactly when there is no location entity; without a pair of coordinates
    among the entities every constraint is a [within] constraint. *)
Theorem extractSpatialConstraints_kinds queryText entities :
  Forall
    (fun c =>
       (constraintType c = within /\
        geometry c = {| latitude := 0; longitude := 0 |} /\
        exists e name,
          In e entities /\ value e = PlaceName name /\
          parameters c =
            Some {| parameterRadius := None; parameterUnit := None;
                    locationName := Some name |}) \/
       ((exists e, In e entities /\ value e = PlaceCoordinates (geometry c)) /\
        ((constraintType c = point /\ parameters c = None) \/
         (constraintType c = radius /\
          exists p,
            parameters c = Some p /\ locationName p = None /\
            (parameterRadius p = Some 10 \/
             exists m,
               In m entities /\ isType measurement m = true /\
               parameterRadius p = distanceOf m)))))
    (extractSpatialConstraints queryText entities) /\
  (List.length (extractSpatialConstraints queryText entities) <=
   S (List.length (filter (isType location) entities)))%nat /\
  (extractSpatialConstraints queryText entities = [] <->
   filter (isType location) entities = []) /\
  ((forall e c, In e entities -> value e <> PlaceCoordinates c) ->
   Forall (fun c => constraintType c = within)
          (extractSpatialConstraints queryText entities)).
Proof.
  destruct (constraints_kinds queryText entities) as (Hkinds & Hlen & Hnone).
  repeat split; auto; try apply Hnone.
  intros Hnames. eapply Forall_impl; [|exact Hkinds].
  intros c [[H _]|[[e [He Hv]] _]]; [exact H|].
  now elim (Hnames e (geometry c) He).
Qed.

End ParsingProps.

(** ** The executor: plans and their execution *)

Module PlanProps.
Import Query Executor Plan.

(** X20.  The plan that [createExecutionPlan] makes: its steps are in
    dependency order and have distinct ids; the search step is always
    there, the spatial filter exactly when there are spatial constraints,
    the analysis exactly for the intents [analyze] and [compare], the
    aggregation exactly for the intent [search] with more than one entity;
    so there are one to three steps, and the estimated cost is one plus the
    weights of the steps. *)
Theorem createExecutionPlan_shape parsedQuery :
  let plan := createExecutionPlan parsedQuery in
  let ids := map stepId (steps plan) in
  inOrder [] (steps plan) = true /\
  NoDup ids /\
  In "rag_search"%string ids /\
  (In "spatial_filter"%string ids <-> spatialConstraints parsedQuery <> []) /\
  (In "analysis"%string ids <->
   intentType (intent parsedQuery) = analyze \/ intentType (intent parsedQuery) = compare) /\
  (In "aggregation"%string ids <->
   intentType (intent parsedQuery) = search /\
   (1 < List.length (entities parsedQuery))%nat) /\
  (1 <= List.length (steps plan) <= 3)%nat /\
  estimatedCost plan = (1 + list_sum (map (fun s => stepCost (stepType s)) (steps plan)))%nat.
Proof.
  destruct parsedQuery as [[t sub desc] ents cons temps filts conf].
  unfold createExecutionPlan.
  cbn [spatialConstraints intent intentType entities Query.subtype].
  destruct cons as [|c cs]; destruct t; destruct ents as [|e [|e' es]];
    cbn [List.length Nat.ltb Nat.leb isAnalysisIntent Parser.isSearch andb app steps
         estimatedCost map stepId stepType stepCost list_sum Nat.add inOrder forallb
         existsb dependencies orb];
    (split; [reflexivity|]);
    (split; [repeat constructor; simpl; intuition discriminate|]);
    (split; [simpl; tauto|]);
    (split; [split; [simpl; intuition (try discriminate; try congruence)
                    |intros H; simpl; try tauto; now elim H]|]);
    (split; [split; [simpl; intuition (try discriminate; try congruence)
                    |intros [H|H]; simpl; try tauto; discriminate H]|]);
    (split; [split; [simpl; intuition (try discriminate; try congruence; try lia)
                    |intros [H1 H2]; simpl in *; try tauto; try discriminate H1; lia]|]);
    (split; [simpl; lia|reflexivity]).
Qed.

Section Running.
Variable Output : Type.
Variable executeStep : ExecutionStep -> JSMap.t Output -> Result Output.

Lemma has_set_same (m : JSMap.t Output) k v : JSMap.has (JSMap.set m k v) k = true.
Proof. unfold JSMap.has. now rewrite get_set_same. Qed.

Lemma has_set_mono (m : JSMap.t Output) k k' v :
  JSMap.has m k' = true -> JSMap.has (JSMap.set m k v) k' = true.
Proof.
  unfold JSMap.has. destruct (string_dec k' k) as [->|Hne].
  - now rewrite get_set_same.
  - now rewrite get_set_other.
Qed.

(** Steps in dependency order run to the end unless one of them throws. *)
Lemma runSteps_inOrder steps :
  forall executedSteps stepsExecuted earlier,
    (forall k, In k earlier -> JSMap.has executedSteps k = true) ->
    inOrder earlier steps = true ->
    match runSteps executeStep steps executedSteps stepsExecuted with
    | Ok (recorded, count) =>
        count = (stepsExecuted + List.length steps)%nat /\
        (forall k, JSMap.has executedSteps k = true -> JSMap.has recorded k = true) /\
        (forall step, In step steps -> JSMap.has recorded (stepId step) = true)
    | Throw message =>
        exists step previousResults,
          In step steps /\ executeStep step previousResults = Throw message
    end.
Proof.
  induction steps as [|step rest IH]; intros executedSteps stepsExecuted earlier Hearlier Hord;
    simpl.
  - repeat split; auto; try lia; intros step [].
  - simpl in Hord. apply andb_true_iff in Hord. destruct Hord as [Hdeps Hrest].
    assert (Hmet : dependenciesMet step executedSteps = true).
    { unfold dependenciesMet. apply forallb_forall. intros dep Hdep.
      rewrite forallb_forall in Hdeps. specialize (Hdeps dep Hdep).
      apply existsb_exists in Hdeps. destruct Hdeps as [k [Hk Heq]].
      apply String.eqb_eq in Heq. subst k. now rewrite Hearlier. }
    rewrite Hmet. cbn [negb].
    destruct (executeStep step executedSteps) as [stepResult|message] eqn:E; simpl.
    + specialize (IH (JSMap.set executedSteps (stepId step) stepResult)
                     (S stepsExecuted) (stepId step :: earlier)).
      assert (Hearlier' : forall k, In k (stepId step :: earlier) ->
                JSMap.has (JSMap.set executedSteps (stepId step) stepResult) k = true).
      { intros k [<-|Hk]; [apply has_set_same|apply has_set_mono; auto]. }
      specialize (IH Hearlier' Hrest).
      destruct (runSteps executeStep rest _ _) as [[recorded count]|message].
      * destruct IH as (Hcount & Hkeep & Hall). split; [lia|]. split.
        -- intros k Hk. apply Hkeep. now apply has_set_mono.
        -- intros s [<-|Hs]; auto. apply Hkeep, has_set_same.
      * destruct IH as (s & prev & Hs & Hthrow). exists s, prev. split; [now right|auto].
    + exists step, executedSteps. split; [now left|auto].
Qed.

(** X21.  Running the steps of a plan made by [createExecutionPlan] never
    fails on a dependency: either every step is executed, in plan order,
    and its result recorded under its id, or the error is one that a step
    itself has thrown. *)
Theorem created_plan_meets_its_dependencies parsedQuery :
  let plan := createExecutionPlan parsedQuery in
  match runSteps executeStep (steps plan) JSMap.empty 0 with
  | Ok (recorded, count) =>
      count = List.length (steps plan) /\
      forall step, In step (steps plan) -> JSMap.has recorded (stepId step) = true
  | Throw message =>
      exists step previousResults,
        In step (steps plan) /\ executeStep step previousResults = Throw message
  end.
Proof.
  cbv zeta.
  assert (Hord : inOrder [] (steps (createExecutionPlan parsedQuery)) = true).
  { destruct parsedQuery as [[t sub desc] ents cons temps filts conf].
    unfold createExecutionPlan.
    cbn [spatialConstraints intent intentType entities Query.subtype].
    destruct cons as [|c cs]; destruct t; destruct ents as [|e [|e' es]]; reflexivity. }
  pose proof (@runSteps_inOrder (steps (createExecutionPlan parsedQuery))
                JSMap.empty 0%nat [] (fun k (H : In k []) => match H with end) Hord) as H.
  destruct (runSteps executeStep (steps (createExecutionPlan parsedQuery)) JSMap.empty 0)
    as [[recorded count]|message]; auto.
  destruct H as (Hcount & _ & Hall). split; auto.
Qed.

End Running.

End PlanProps.

(** ** The executor: analysis, aggregation and confidence *)

Module AnalysisProps.
Import Query Executor Analysis UtilsProps.

(** X22.  For a query whose intent is [compare], the plan holds an
    analysis step that depends on the search and that, run on at least two
    sources of which the first two have a location, compares exactly these
    two: it reports the number of sources, the absolute difference of the
    two scores, whether the two types are equal, and the haversine distance
    between the two locations, in km.  On fewer than two sources the step
    returns a message instead. *)
Theorem compare_plan_reports_the_distance parsedQuery feature1 feature2 rest
        location1 location2 :
  intentType (intent parsedQuery) = compare ->
  Doc.location (Doc.metadata (Doc.document feature1)) = Some location1 ->
  Doc.location (Doc.metadata (Doc.document feature2)) = Some location2 ->
  exists step,
    In step (steps (createExecutionPlan parsedQuery)) /\
    stepType step = analysis /\
    dependencies step = ["rag_search"%string] /\
    executeAnalysis step (Some (feature1 :: feature2 :: rest)) =
      ComparisonOf
        {| featuresCompared := S (S (List.length rest));
           similarities :=
             [ConfidenceAspect (Doc.combinedScore feature1) (Doc.combinedScore feature2)
                (Rabs (Doc.combinedScore feature1 - Doc.combinedScore feature2))];
           differences :=
             [TypeAspect (Doc.typeName (Doc.type (Doc.metadata (Doc.document feature1))))
                         (Doc.typeName (Doc.type (Doc.metadata (Doc.document feature2))))
                         (String.eqb (Doc.typeName (Doc.type (Doc.metadata (Doc.document feature1))))
                                     (Doc.typeName (Doc.type (Doc.metadata (Doc.document feature2)))));
              DistanceAspect (SpatialUtils.calculateDistance location1 location2) "km"] |} /\
    executeAnalysis step (Some [feature1]) =
      ComparisonMessage "Need at least 2 features for comparison" /\
    executeAnalysis step (Some []) =
      ComparisonMessage "Need at least 2 features for comparison".
Proof.
  intros Hintent Hl1 Hl2.
  destruct parsedQuery as [[t sub desc] ents cons temps filts conf].
  cbn [intent intentType] in Hintent. subst t.
  eexists. split; [|split; [|split; [|split; [|split]]]].
  - unfold createExecutionPlan.
    cbn [spatialConstraints intent intentType entities Query.subtype isAnalysisIntent
         Parser.isSearch andb steps].
    rewrite app_nil_r. apply in_or_app. right. apply in_or_app. right. now left.
  - reflexivity.
  - reflexivity.
  - unfold executeAnalysis, compareFeatures. cbn [operation String.eqb Ascii.eqb Bool.eqb].
    rewrite Hl1, Hl2. reflexivity.
  - reflexivity.
  - reflexivity.
Qed.

Lemma compare_plan_reports_the_distance_witness :
  let parsedQuery :=
    {| intent := {| intentType := compare; subtype := None;
                    description := "Compare geographic features or areas" |};
       entities := []; spatialConstraints := []; temporalConstraints := [];
       filters := []; parsingConfidence := 0.7 |} in
  let feature1 := Examples.sourceAt "east" Scenarios.dateLineEast 0.9 in
  let feature2 := Examples.sourceAt "west" Scenarios.dateLineWest 0.4 in
  exists step,
    In step (steps (createExecutionPlan parsedQuery)) /\
    stepType step = analysis /\
    dependencies step = ["rag_search"%string] /\
    executeAnalysis step (Some (feature1 :: feature2 :: [])) =
      ComparisonOf
        {| featuresCompared := 2;
           similarities :=
             [ConfidenceAspect (Doc.combinedScore feature1) (Doc.combinedScore feature2)
                (Rabs (Doc.combinedScore feature1 - Doc.combinedScore feature2))];
           differences :=
             [TypeAspect (Doc.typeName (Doc.type (Doc.metadata (Doc.document feature1))))
                         (Doc.typeName (Doc.type (Doc.metadata (Doc.document feature2))))
                         (String.eqb (Doc.typeName (Doc.type (Doc.metadata (Doc.document feature1))))
                                     (Doc.typeName (Doc.type (Doc.metadata (Doc.document feature2)))));
              DistanceAspect
                (SpatialUtils.calculateDistance Scenarios.dateLineEast Scenarios.dateLineWest)
                "km"] |} /\
    executeAnalysis step (Some [feature1]) =
      ComparisonMessage "Need at least 2 features for comparison" /\
    executeAnalysis step (Some []) =
      ComparisonMessage "Need at least 2 features for comparison".
Proof.
  cbv zeta.
  apply (@compare_plan_reports_the_distance
           {| intent := {| intentType := compare; subtype := None;
                           description := "Compare geographic features or areas" |};
              entities := []; spatialConstraints := []; temporalConstraints := [];
              filters := []; parsingConfidence := 0.7 |}
           (Examples.sourceAt "east" Scenarios.dateLineEast 0.9)
           (Examples.sourceAt "west" Scenarios.dateLineWest 0.4)
           [] Scenarios.dateLineEast Scenarios.dateLineWest); reflexivity.
Defined.

(** The number of sources of a type. *)
Lemma typeName_inj t1 t2 : Doc.typeName t1 = Doc.typeName t2 -> t1 = t2.
Proof. destruct t1, t2; simpl; intros H; try reflexivity; discriminate H. Qed.

Lemma get_countType featureTypes source key :
  JSMap.get (countType featureTypes source) key =
  if String.eqb key (Doc.typeName (Doc.type (Doc.metadata (Doc.document source))))
  then Some ((match JSMap.get featureTypes key with Some n => n | None => 0 end) + 1)%nat
  else JSMap.get featureTypes key.
Proof.
  unfold countType. cbv zeta.
  destruct (String.eqb_spec key (Doc.typeName (Doc.type (Doc.metadata (Doc.document source)))))
    as [->|Hne].
  - apply get_set_same.
  - now apply get_set_other.
Qed.

Lemma fold_countType sources key :
  forall featureTypes,
    let n :=
      List.length
        (filter (fun s => String.eqb key
                            (Doc.typeName (Doc.type (Doc.metadata (Doc.document s)))))
                sources) in
    JSMap.get (fold_left countType sources featureTypes) key =
    match JSMap.get featureTypes key with
    | Some base => Some (base + n)%nat
    | None => if Nat.eqb n 0 then None else Some n
    end.
Proof.
  cbv zeta. induction sources as [|s sources IH]; intros featureTypes; simpl.
  - destruct (JSMap.get featureTypes key); auto; f_equal; lia.
  - rewrite IH, get_countType.
    destruct (String.eqb key _); simpl.
    + destruct (JSMap.get featureTypes key); simpl; f_equal; lia.
    + reflexivity.
Qed.

Lemma sum_countType featureTypes source :
  list_sum (map snd (countType featureTypes source)) =
  S (list_sum (map snd featureTypes)).
Proof.
  unfold countType. cbv zeta.
  set (key := Doc.typeName (Doc.type (Doc.metadata (Doc.document source)))).
  induction featureTypes as [|[k n] m IH]; simpl.
  - reflexivity.
  - destruct (String.eqb key k) eqn:E; simpl.
    + lia.
    + rewrite IH. lia.
Qed.

Lemma sum_fold_countType sources :
  forall featureTypes,
    list_sum (map snd (fold_left countType sources featureTypes)) =
    (list_sum (map snd featureTypes) + List.length sources)%nat.
Proof.
  induction sources as [|s sources IH]; intros featureTypes; simpl; [lia|].
  rewrite IH, sum_countType. lia.
Qed.

Lemma maxOf_ge xs : forall x, x <= maxOf x xs.
Proof.
  unfold maxOf. induction xs as [|y xs IH]; intros x; simpl; [lra|].
  eapply Rle_trans; [apply (Rmax_l x y)|apply IH].
Qed.

Lemma minOf_le xs : forall x, minOf x xs <= x.
Proof.
  unfold minOf. induction xs as [|y xs IH]; intros x; simpl; [lra|].
  eapply Rle_trans; [apply IH|apply Rmin_l].
Qed.

(** X23.  On at least one source [analyzeFeatures] returns an analysis:
    the number of sources; a histogram that gives, for each type of
    document, the number of sources of that type, and no entry for a type
    that does not occur, so that its counts add up to the number of
    sources; and a spatial distribution exactly when some source has a
    location, with ranges that are not negative. *)
Theorem analyzeFeatures_counts_the_types source rest analysisType :
  exists a,
    analyzeFeatures (source :: rest) analysisType = AnalysisOf a /\
    totalFeatures a = S (List.length rest) /\
    (forall t,
        JSMap.get (featureTypes a) (Doc.typeName t) =
        let n :=
          List.length
            (filter (fun s => String.eqb (Doc.typeName t)
                                (Doc.typeName (Doc.type (Doc.metadata (Doc.document s)))))
                    (source :: rest)) in
        if Nat.eqb n 0 then None else Some n) /\
    list_sum (map snd (featureTypes a)) = S (List.length rest) /\
    match spatialDistribution a with
    | Some d => locations (source :: rest) <> [] /\ 0 <= latRange d /\ 0 <= lonRange d
    | None => locations (source :: rest) = []
    end.
Proof.
  unfold analyzeFeatures. eexists. split; [reflexivity|].
  cbn [totalFeatures featureTypes spatialDistribution].
  split; [reflexivity|]. split; [|split].
  - intros t. rewrite fold_countType. reflexivity.
  - rewrite sum_fold_countType. reflexivity.
  - destruct (locations (source :: rest)) as [|loc locs]; cbn [map]; [reflexivity|].
    cbn [latRange lonRange]. split; [discriminate|].
    pose proof (maxOf_ge (map latitude locs) (latitude loc)).
    pose proof (minOf_le (map latitude locs) (latitude loc)).
    pose proof (maxOf_ge (map longitude locs) (longitude loc)).
    pose proof (minOf_le (map longitude locs) (longitude loc)).
    lra.
Qed.

(** *** The spatial filter *)



(** *** Aggregation *)



Lemma keys_set {V} (m : JSMap.t V) k v :
  JSMap.keys (JSMap.set m k v) =
  if JSMap.has m k then JSMap.keys m else JSMap.keys m ++ [k].
Proof.
  unfold JSMap.has, JSMap.keys. induction m as [|[k' v'] m IH]; simpl; auto.
  destruct (String.eqb k k') eqn:E; simpl; auto.
  rewrite IH. destruct (JSMap.get m k); reflexivity.
Qed.

Lemma not_has_keys {V} (m : JSMap.t V) k :
  JSMap.has m k = false -> ~ In k (JSMap.keys m).
Proof.
  intros H Hin. apply SearchProps.In_keys in Hin. congruence.
Qed.







(** *** Confidence of a result *)

Lemma sumOf_from xs :
  Forall (fun x => 0 <= x) xs ->
  forall acc, 0 <= acc -> 0 <= fold_left Rplus xs acc.
Proof.
  induction 1 as [|x xs Hx Hxs IH]; intros acc Hacc; simpl; auto.
  apply IH. lra.
Qed.

(** The confidence of the result of a parsed query is at most 1, and at
    least 0.15 when no source has a negative score. *)
Lemma calculateResultConfidence_bounds {host : Host} queryText reads sources
        hasAnalysis queryLocation :
  let parsedQuery := fst (Parser.parseQuery queryText reads) in
  calculateResultConfidence sources hasAnalysis queryLocation parsedQuery <= 1 /\
  (Forall (fun s => 0 <= Doc.combinedScore s) sources ->
   0.15 <= calculateResultConfidence sources hasAnalysis queryLocation parsedQuery).
Proof.
  cbv zeta. pose proof (ParserProps.parseQuery_confidence_bounds queryText reads) as [Hlo Hhi].
  unfold calculateResultConfidence. cbv zeta. split.
  - eapply Rle_trans; [apply Rmin_r|lra].
  - intros Hpos.
    assert (Havg : 0 <= match sources with
                        | [] => 0
                        | _ :: _ =>
                            sumOf (map Doc.combinedScore sources) /
                            INR (List.length sources) * 0.5
                        end).
    { destruct sources as [|s rest]; [lra|].
      assert (Hsum : 0 <= sumOf (map Doc.combinedScore (s :: rest))).
      { unfold sumOf. apply sumOf_from; [|lra].
        apply Forall_map. exact Hpos. }
      assert (Hn : 0 < INR (List.length (s :: rest))).
      { cbn [List.length]. rewrite S_INR. pose proof (pos_INR (List.length rest)). lra. }
      apply Rmult_le_pos; [|lra]. unfold Rdiv. apply Rmult_le_pos; auto.
      left. now apply Rinv_0_lt_compat. }
    apply Rmin_glb; [|lra].
    destruct sources as [|s rest]; destruct hasAnalysis; destruct queryLocation; lra.
Qed.

(** X26.  Both confidence scores are capped and, for sources without a
    negative score, bounded from below: the confidence of a response
    ([calculateConfidence]) is at most 1, and at least 0.02 when there is a
    source; the confidence of the result of a parsed query
    ([calculateResultConfidence]) is at most 1 and at least 0.15, whether
    or not an analysis or a query location is attached. *)
Theorem confidence_scores_are_bounded {host : Host} queryText reads sources
        hasAnalysis queryLocation :
  let parsedQuery := fst (Parser.parseQuery queryText reads) in
  RAGEngine.calculateConfidence sources <= 1 /\
  calculateResultConfidence sources hasAnalysis queryLocation parsedQuery <= 1 /\
  (Forall (fun s => 0 <= Doc.combinedScore s) sources ->
   (sources <> [] -> 0.02 <= RAGEngine.calculateConfidence sources) /\
   0.15 <= calculateResultConfidence sources hasAnalysis queryLocation parsedQuery).
Proof.
  cbv zeta.
  destruct (StoreProps.calculateConfidence_bounds sources) as [H1 H2].
  destruct (calculateResultConfidence_bounds queryText reads sources hasAnalysis
              queryLocation) as [H3 H4].
  repeat split; auto.
Qed.

End AnalysisProps.

(** ** The executor: the cache over time *)

Module CacheProps.
Import Query Parser Executor QueryEngine Session.

Section History.
Context {host : Host}.
Variables (Data Backend : Type).
Variable executePlan :
  QueryExecutionPlan -> ParsedQuery -> string -> Backend -> nat ->
  Result (QueryResult Data) * nat.

Lemma processAll_bound calls :
  forall (engine : GeographicQueryEngine Data) reads,
    (JSMap.size (queryCache (executor engine)) <= 100)%nat ->
    (JSMap.size
       (queryCache (executor (fst (processAll executePlan engine calls reads)))) <= 100)%nat.
Proof.
  unfold processAll.
  induction calls as [|[backend queryText] calls IH]; intros engine reads Hsize; simpl; auto.
  pose proof (@EngineProps.processQuery_bound host Data Backend executePlan
                engine backend queryText reads Hsize) as H.
  destruct (processQuery executePlan engine backend queryText reads)
    as [[result engine1] reads1].
  apply IH. exact H.
Qed.

(** X27.  However many queries an engine has processed since it was
    created, and whatever they returned, its cache holds at most 100
    results. *)
Theorem cache_never_exceeds_100_entries opts calls reads :
  (JSMap.size
     (queryCache
        (executor (fst (processAll executePlan (QueryEngine.create Data opts) calls reads))))
   <= 100)%nat.
Proof.
  apply processAll_bound. apply EngineProps.create_bound.
Qed.

(** X28.  An entry of the cache that is [CACHE_TTL] old or older is not
    served: the plan is executed again, the result is returned as a miss,
    and it replaces the old entry under the key of the query, with the time
    of the replacement. *)
Theorem expired_entry_is_replaced (executor0 : QueryExecutor Data) backend parsedQuery
        text reads stored timestamp result reads2 :
  (JSMap.size (queryCache executor0) <= 100)%nat ->
  JSMap.get (queryCache executor0) (generateCacheKey parsedQuery text) =
    Some (stored, timestamp) ->
  CACHE_TTL <= Date_now (S reads) - timestamp ->
  executePlan (createExecutionPlan parsedQuery) parsedQuery text backend (S (S reads)) =
    (Ok result, reads2) ->
  let '(returned, executor1, reads3) :=
    executeQuery executePlan executor0 backend parsedQuery text reads in
  cacheHit (metadata returned) = false /\
  data returned = data result /\
  success returned = success result /\
  JSMap.get (queryCache executor1) (generateCacheKey parsedQuery text) =
    Some (result, Date_now reads2) /\
  reads3 = S (S reads2).
Proof.
  intros Hsize Hget Hold Hplan. unfold executeQuery, checkCache. rewrite Hget.
  apply ltb_ge in Hold. rewrite Hold, Hplan.
  pose proof (@EngineProps.cacheResult_get host Data executor0
                (generateCacheKey parsedQuery text) result reads2 Hsize) as H.
  destruct (cacheResult executor0 (generateCacheKey parsedQuery text) result reads2)
    as [executor1 reads3] eqn:E.
  assert (Hreads : reads3 = S reads2) by (unfold cacheResult in E; now inversion E).
  subst reads3. cbn [fst] in H. cbn [withTiming cacheHit metadata data success].
  auto.
Qed.

Lemma distinct_NoDup keys : Keys.distinct keys = true -> NoDup keys.
Proof.
  induction keys as [|k keys IH]; simpl; [constructor|].
  intros H. apply andb_true_iff in H. destruct H as [Hk Hrest].
  constructor; auto. intros Hin. apply negb_true_iff in Hk.
  assert (existsb (String.eqb k) keys = true); [|congruence].
  apply existsb_exists. exists k. split; auto. apply String.eqb_refl.
Qed.

Lemma keys_delete {V} (m : JSMap.t V) k :
  JSMap.keys (JSMap.delete m k) =
  filter (fun k' => negb (String.eqb k k')) (JSMap.keys m).
Proof.
  unfold JSMap.keys, JSMap.delete. induction m as [|[k' v] m IH]; simpl; auto.
  destruct (String.eqb k k'); simpl; now rewrite IH.
Qed.

Lemma filter_absent k keys :
  ~ In k keys -> filter (fun k' => negb (String.eqb k k')) keys = keys.
Proof.
  induction keys as [|x keys IH]; simpl; auto. intros H.
  destruct (String.eqb_spec k x) as [->|Hne]; simpl.
  - elim H. now left.
  - rewrite IH; auto.
Qed.

(** X29.  The cache is kept in the order of first insertion, and
    eviction follows that order.  From a cache within its bound: the
    result just cached is retrievable under its key; caching under a key
    that is present leaves the keys and their order as they are; caching
    under a new key appends it; and when that makes 101 entries, the key
    inserted first is dropped, so that the cache holds 100 entries again. *)
Theorem cacheResult_evicts_the_oldest (executor0 : QueryExecutor Data) key result reads
        oldest rest :
  Keys.distinct (JSMap.keys (queryCache executor0)) = true ->
  (JSMap.size (queryCache executor0) <= 100)%nat ->
  JSMap.keys (queryCache executor0) = oldest :: rest ->
  let cache1 := queryCache (fst (cacheResult executor0 key result reads)) in
  JSMap.get cache1 key = Some (result, Date_now reads) /\
  (JSMap.has (queryCache executor0) key = true -> JSMap.keys cache1 = oldest :: rest) /\
  (JSMap.has (queryCache executor0) key = false ->
   (JSMap.size (queryCache executor0) < 100)%nat ->
   JSMap.keys cache1 = oldest :: rest ++ [key]) /\
  (JSMap.has (queryCache executor0) key = false ->
   JSMap.size (queryCache executor0) = 100%nat ->
   JSMap.keys cache1 = rest ++ [key] /\ JSMap.has cache1 oldest = false /\
   JSMap.size cache1 = 100%nat).
Proof.
  intros Hdistinct Hsize Hkeys. cbv zeta.
  split; [now apply EngineProps.cacheResult_get|].
  apply distinct_NoDup in Hdistinct. rewrite Hkeys in Hdistinct.
  inversion Hdistinct as [|? ? Hfirst Hrest]; subst.
  unfold cacheResult. cbn [fst queryCache].
  set (cache1 := JSMap.set (queryCache executor0) key (result, Date_now reads)).
  assert (Hkeys1 : JSMap.keys cache1 =
                   if JSMap.has (queryCache executor0) key then oldest :: rest
                   else oldest :: rest ++ [key]).
  { unfold cache1. rewrite AnalysisProps.keys_set, Hkeys. reflexivity. }
  assert (Hlen : forall V (m : JSMap.t V), JSMap.size m = List.length (JSMap.keys m)).
  { intros V m. unfold JSMap.size, JSMap.keys. now rewrite length_map. }
  rewrite (Hlen _ cache1), Hkeys1. rewrite (Hlen _ (queryCache executor0)), Hkeys in Hsize.
  rewrite (Hlen _ (queryCache executor0)), Hkeys.
  split; [|split].
  - intros Hhas. rewrite Hhas. cbv iota.
    destruct (Nat.ltb_spec 100 (List.length (oldest :: rest))); [lia|].
    rewrite Hhas in Hkeys1. exact Hkeys1.
  - intros Hhas Hless. rewrite Hhas. cbv iota.
    destruct (Nat.ltb_spec 100 (List.length (oldest :: rest ++ [key]))) as [Hbig|_].
    + cbn [List.length] in Hbig, Hless. rewrite length_app in Hbig. simpl in Hbig. lia.
    + rewrite Hhas in Hkeys1. exact Hkeys1.
  - intros Hhas Hfull. rewrite Hhas. cbv iota.
    destruct (Nat.ltb_spec 100 (List.length (oldest :: rest ++ [key]))) as [_|Hsmall].
    + rewrite Hhas in Hkeys1. cbv iota.
      assert (Hne : oldest <> key).
      { intros ->. apply AnalysisProps.not_has_keys in Hhas. apply Hhas.
        rewrite Hkeys. now left. }
      assert (Hfilter : JSMap.keys (JSMap.delete cache1 oldest) = rest ++ [key]).
      { rewrite keys_delete. unfold JSMap.t in *. rewrite Hkeys1. cbn [filter].
        rewrite String.eqb_refl. cbn [negb].
        apply filter_absent. intros Hin. apply in_app_or in Hin.
        destruct Hin as [Hin|[Hin|[]]]; [contradiction|congruence]. }
      split; [exact Hfilter|]. split.
      * unfold JSMap.has. now rewrite get_delete_same.
      * rewrite Hlen, Hfilter, length_app. cbn [List.length] in Hfull |- *. lia.
    + cbn [List.length] in Hsmall, Hfull. rewrite length_app in Hsmall. simpl in Hsmall. lia.
Qed.

End History.

Lemma cacheResult_evicts_the_oldest_witness :
  let executor0 : QueryExecutor string := {| queryCache := Examples.fullCache |} in
  let cache1 :=
    queryCache (fst (cacheResult (host := Scenarios.plainHost) executor0 "new"
                                 Examples.staleResult 0)) in
  JSMap.keys cache1 = tl (JSMap.keys Examples.fullCache) ++ ["new"%string] /\
  JSMap.has cache1 "0" = false /\
  JSMap.size cache1 = 100%nat.
Proof.
  cbv zeta.
  destruct (@cacheResult_evicts_the_oldest Scenarios.plainHost string
              {| queryCache := Examples.fullCache |} "new" Examples.staleResult 0%nat
              "0" (tl (JSMap.keys Examples.fullCache)))
    as (_ & _ & _ & H).
  - vm_compute. reflexivity.
  - vm_compute. lia.
  - vm_compute. reflexivity.
  - apply H; vm_compute; reflexivity.
Defined.

Lemma expired_entry_is_replaced_witness :
  let parsedQuery := fst (parseQuery (host := Scenarios.plainHost) "zz" 0) in
  let executor0 : QueryExecutor string :=
    {| queryCache :=
         JSMap.set JSMap.empty (generateCacheKey parsedQuery "zz")
                   (Examples.staleResult, - CACHE_TTL) |} in
  let '(returned, executor1, reads3) :=
    executeQuery (host := Scenarios.plainHost) Scenarios.answering executor0 tt
                 parsedQuery "zz" 0 in
  cacheHit (metadata returned) = false /\
  data returned = data Examples.answerResult /\
  success returned = success Examples.answerResult /\
  JSMap.get (queryCache executor1) (generateCacheKey parsedQuery "zz") =
    Some (Examples.answerResult, Date_now (Host := Scenarios.plainHost) 2) /\
  reads3 = 4%nat.
Proof.
  cbv zeta.
  apply (@expired_entry_is_replaced Scenarios.plainHost string unit Scenarios.answering
           {| queryCache :=
                JSMap.set JSMap.empty
                  (generateCacheKey (fst (parseQuery (host := Scenarios.plainHost) "zz" 0))
                                    "zz")
                  (Examples.staleResult, - CACHE_TTL) |}
           tt (fst (parseQuery (host := Scenarios.plainHost) "zz" 0)) "zz" 0%nat
           Examples.staleResult (- CACHE_TTL) Examples.answerResult 2%nat).
  - unfold JSMap.size. simpl. lia.
  - cbn [queryCache]. apply get_set_same.
  - unfold CACHE_TTL. simpl. lra.
  - reflexivity.
Defined.

End CacheProps.

(** ** The query engine: validation and suggestions *)

Module ValidationProps.
Import Regex Validation.

Lemma member_letters c :
  member (Union lower upper) c = JSString.isLower c || JSString.isUpper c.
Proof. reflexivity. Qed.

Lemma scan_letter cs :
  forall prev pos,
    match scan letterPattern prev cs pos with Some _ => true | None => false end =
    existsb JSString.isLetter cs.
Proof.
  induction cs as [|c cs IH]; intros prev pos; [reflexivity|].
  cbn [scan run letterPattern pattern ignoreCase accepts existsb].
  rewrite member_letters. unfold JSString.isLetter.
  rewrite (orb_comm (JSString.isUpper c)).
  destruct (JSString.isLower c || JSString.isUpper c); cbn [orb]; [reflexivity|].
  apply IH.
Qed.

Lemma test_letter text :
  test letterPattern text = existsb JSString.isLetter (list_ascii_of_string text).
Proof.
  unfold test, exec. cbn [advance]. apply scan_letter.
Qed.

Lemma letter_not_space c : JSString.isLetter c = true -> JSString.isSpace c = false.
Proof.
  destruct c as [[] [] [] [] [] [] [] []]; vm_compute; congruence.
Qed.

Lemma list_ascii_app s1 s2 :
  list_ascii_of_string (s1 ++ s2)%string =
  list_ascii_of_string s1 ++ list_ascii_of_string s2.
Proof. induction s1 as [|c s1 IH]; simpl; [reflexivity|now rewrite IH]. Qed.

Lemma visible_trimStart s :
  existsb (fun c => negb (JSString.isSpace c)) (list_ascii_of_string (JSString.trimStart s)) =
  existsb (fun c => negb (JSString.isSpace c)) (list_ascii_of_string s).
Proof.
  induction s as [|c s IH]; simpl; [reflexivity|].
  destruct (JSString.isSpace c) eqn:E; simpl; [exact IH|now rewrite E].
Qed.

Lemma visible_rev s :
  existsb (fun c => negb (JSString.isSpace c)) (list_ascii_of_string (JSString.rev s)) =
  existsb (fun c => negb (JSString.isSpace c)) (list_ascii_of_string s).
Proof.
  induction s as [|c s IH]; simpl; [reflexivity|].
  rewrite list_ascii_app, existsb_app, IH. simpl.
  rewrite orb_false_r. apply orb_comm.
Qed.

Lemma visible_trim s :
  existsb (fun c => negb (JSString.isSpace c)) (list_ascii_of_string (JSString.trim s)) =
  existsb (fun c => negb (JSString.isSpace c)) (list_ascii_of_string s).
Proof.
  unfold JSString.trim, JSString.trimEnd.
  now rewrite visible_rev, visible_trimStart, visible_rev, visible_trimStart.
Qed.

(** A text with a letter is not blank. *)
Lemma letter_not_blank text :
  existsb JSString.isLetter (list_ascii_of_string text) = true ->
  JSString.isEmpty text || Nat.eqb (String.length (JSString.trim text)) 0 = false.
Proof.
  intros H.
  assert (Hv : existsb (fun c => negb (JSString.isSpace c)) (list_ascii_of_string text) = true).
  { apply existsb_exists in H. destruct H as [c [Hin Hc]].
    apply existsb_exists. exists c. split; auto.
    now rewrite (letter_not_space c Hc). }
  rewrite <- visible_trim in Hv.
  destruct text as [|c text]; [simpl in H; discriminate H|]. cbn [JSString.isEmpty orb].
  destruct (JSString.trim (String c text)); [simpl in Hv; discriminate Hv|reflexivity].
Qed.

(** X30.  [validateQuery] accepts exactly the texts of 3 to 500
    characters that contain an ASCII letter.  The check for an empty or
    blank text never decides: whenever it reports its issue, the check for
    a letter reports one as well.  The empty text gets three issues. *)
Theorem validateQuery_accepts_iff queryText :
  (fst (validateQuery queryText) = true <->
   (3 <= String.length queryText <= 500)%nat /\
   existsb JSString.isLetter (list_ascii_of_string queryText) = true) /\
  (In "Query cannot be empty"%string (snd (validateQuery queryText)) ->
   In "Query must contain at least some text"%string (snd (validateQuery queryText))) /\
  validateQuery "" =
    (false, ["Query cannot be empty"%string; "Query is too short (min 3 characters)"%string;
             "Query must contain at least some text"%string]).
Proof.
  unfold validateQuery, issues. cbn [fst snd]. rewrite test_letter.
  split; [|split; [|reflexivity]].
  - destruct (existsb JSString.isLetter (list_ascii_of_string queryText)) eqn:El.
    + rewrite (letter_not_blank queryText El). cbn [negb app].
      destruct (Nat.ltb_spec 500 (String.length queryText));
        destruct (Nat.ltb_spec (String.length queryText) 3); cbn [app List.length Nat.eqb];
        split; try discriminate; try (intros [? _]; lia); try (intros _; split; [lia|auto]).
    + split; [|intros [_ H]; discriminate H].
      rewrite !length_app. cbn [negb List.length].
      intros H. apply Nat.eqb_eq in H. lia.
  - intros Hin.
    destruct (existsb JSString.isLetter (list_ascii_of_string queryText)) eqn:El.
    + rewrite (letter_not_blank queryText El) in Hin. cbn [negb app] in Hin.
      destruct (Nat.ltb 500 (String.length queryText));
        destruct (Nat.ltb (String.length queryText) 3); simpl in Hin;
        intuition discriminate.
    + cbn [negb]. apply in_or_app. right. apply in_or_app. right.
      apply in_or_app. right. now left.
Qed.

Lemma length_toLowerCase s : String.length (JSString.toLowerCase s) = String.length s.
Proof. induction s as [|c s IH]; simpl; auto. Qed.

(** [getSuggestions] returns at most five of its patterns, in
    their order: the first five for an input of fewer than three
    characters, and otherwise only patterns that contain the input,
    letter case aside. *)
Theorem getSuggestions_spec partialQuery :
  (List.length (getSuggestions partialQuery) <= 5)%nat /\
  (forall s, In s (getSuggestions partialQuery) -> In s suggestionPatterns) /\
  ((String.length partialQuery < 3)%nat ->
   getSuggestions partialQuery = firstn 5 suggestionPatterns) /\
  ((3 <= String.length partialQuery)%nat ->
   forall s, In s (getSuggestions partialQuery) ->
             JSString.includes (JSString.toLowerCase s)
                               (JSString.toLowerCase partialQuery) = true).
Proof.
  unfold getSuggestions. cbv zeta. rewrite length_toLowerCase.
  set (keep := fun pattern =>
                 JSString.includes (JSString.toLowerCase pattern)
                                   (JSString.toLowerCase partialQuery) ||
                 Nat.ltb (String.length partialQuery) 3).
  assert (Hsub : forall s, In s (firstn 5 (filter keep suggestionPatterns)) ->
                           In s (filter keep suggestionPatterns)).
  { intros s Hs. rewrite <- (firstn_skipn 5 (filter keep suggestionPatterns)).
    apply in_or_app. now left. }
  split; [|split; [|split]].
  - rewrite length_firstn. apply Nat.le_min_l.
  - intros s Hs. apply Hsub, filter_In in Hs. apply Hs.
  - intros Hshort. f_equal.
    assert (Hall : forall l, filter keep l = l).
    { induction l as [|x l IH]; simpl; auto. unfold keep at 1.
      apply Nat.ltb_lt in Hshort. rewrite Hshort, orb_true_r. now rewrite IH. }
    apply Hall.
  - intros Hlong s Hs. apply Hsub, filter_In in Hs. destruct Hs as [_ Hs].
    unfold keep in Hs. apply Nat.ltb_ge in Hlong. rewrite Hlong, orb_false_r in Hs.
    exact Hs.
Qed.

End ValidationProps.
